(** * Answer ingestion, scoring and payment verification of the exam backend

    A shallow embedding of the request handlers

      POST /api/save-answer            POST /api/save-all-answers
      POST /api/timeout-save-answers   POST /api/complete-exam
      GET  /api/today-exam-results     POST /api/verify-payment

    of the Express application, with the properties the specification
    states about them, and of

      POST /api/validate-registration  POST /api/start-exam
      POST /api/exam-questions         POST /api/exams/:examTitle/date-time
      POST, PUT, DELETE /api/exams/:examTitle/questions[/:questionId]

    and the helper [sanitizeFilename], with further properties read off
    the code.

    Conventions of the embedding.
    - Request fields are JavaScript values ([Value]); a field absent from
      the JSON body is [VUndefined].  Numbers are the integer-valued
      doubles, NaN and the two infinities, -0 not being told from 0; a
      number of a request is below 10^21 in magnitude, so that its
      [String] is its decimal numeral.  Elements of an [answers] array are
      JSON objects.
    - Strings are byte strings in UTF-8.  An ASCII character is one byte,
      so testing the first byte for the marker "Q" is testing the first
      UTF-16 code unit; [parseInt] skips the white space outside ASCII in
      its encoded form and rounds what it reads to the nearest double.
    - The clock ([new Date().toISOString()], [moment().format(..)]), the
      availability of the document store, the acceptance of a Realtime
      Database write, the HMAC primitive and the payment gateway are inputs
      of the handlers; so are [JSON.parse], the parsing of a date by
      [new Date(v)] and the identifier the store generates for an added
      document.
    - The document store of the submission routes is a map from document
      paths to documents.  A path is resolved as the client library
      resolves it: [doc(id)] wants a non-empty string without "//",
      appends the segments of [id] between "/" and wants the result to
      name a document (an even number of segments), so an identifier
      holding "/" names a nested document.  [set] overwrites and refuses
      [undefined] field values, [update] needs an existing document, a
      batch commits all of its writes or none.  A store that cannot be
      reached, or that refuses a request on grounds of its own (an
      identifier it reserves), is down for that request.
    - The question bank, the schedule, the registration check and the
      question listing are each modelled on the one collection they
      address, keyed by identifiers of one segment.  The handler that adds
      a question awaits the store twice, and is modelled in these two
      steps; the other handlers of the question bank await it once. *)

From Stdlib Require Import ZArith Ascii String List Bool Lia.
From stdpp Require Import base option list strings gmap sorting pretty.

Local Open Scope string_scope.
Local Open Scope Z_scope.

(** ** JavaScript values *)

Module JS.

Inductive Number : Type :=
| Int (z : Z)
| NaN
| Infinity (negative : bool).

Inductive Value : Type :=
| VUndefined
| VNull
| VBool (b : bool)
| VNum (n : Number)
| VStr (s : string).

#[global] Instance Number_eq_dec : EqDecision Number.
Proof. solve_decision. Defined.

#[global] Instance Value_eq_dec : EqDecision Value.
Proof. solve_decision. Defined.

(** [ToBoolean]: what [!x], [x || y] and [if (x)] look at. *)
Definition truthy (v : Value) : bool :=
  match v with
  | VUndefined | VNull => false
  | VBool b => b
  | VNum (Int z) => negb (z =? 0)
  | VNum NaN => false
  | VNum (Infinity _) => true
  | VStr s => negb (String.eqb s "")
  end.

(** [a === b]. *)
Definition strict_eq (a b : Value) : bool :=
  match a, b with
  | VUndefined, VUndefined => true
  | VNull, VNull => true
  | VBool x, VBool y => Bool.eqb x y
  | VNum (Int x), VNum (Int y) => x =? y
  | VNum (Infinity x), VNum (Infinity y) => Bool.eqb x y
  | VStr x, VStr y => String.eqb x y
  | _, _ => false
  end.

(** [a || b]. *)
Definition or (a b : Value) : Value := if truthy a then a else b.

(** [ToString]. *)
Definition to_string (v : Value) : string :=
  match v with
  | VUndefined => "undefined"
  | VNull => "null"
  | VBool true => "true"
  | VBool false => "false"
  | VNum (Int z) => pretty z
  | VNum NaN => "NaN"
  | VNum (Infinity false) => "Infinity"
  | VNum (Infinity true) => "-Infinity"
  | VStr s => s
  end.

(** [s.startsWith(p)]. *)
Definition startsWith (p s : string) : bool := String.prefix p s.

(** *** [parseInt] with the default radix *)

(** The white space of one byte: U+0009 to U+000D and U+0020. *)
Definition is_space (c : ascii) : bool :=
  let n := nat_of_ascii c in
  ((9 <=? n) && (n <=? 13))%nat || (n =? 32)%nat.

(** The white space of two bytes, U+00A0, and of three: U+1680, U+2000 to
    U+200A, U+2028, U+2029, U+202F, U+205F, U+3000 and U+FEFF. *)
Definition is_space2 (a b : ascii) : bool :=
  ((nat_of_ascii a =? 194) && (nat_of_ascii b =? 160))%nat.

Definition is_space3 (a b c : ascii) : bool :=
  let '(x, y, z) := (nat_of_ascii a, nat_of_ascii b, nat_of_ascii c) in
  ((x =? 225) && (y =? 154) && (z =? 128)
   || (x =? 226) && (y =? 128)
      && ((128 <=? z) && (z <=? 138) || (z =? 168) || (z =? 169) || (z =? 175))
   || (x =? 226) && (y =? 129) && (z =? 159)
   || (x =? 227) && (y =? 128) && (z =? 128)
   || (x =? 239) && (y =? 187) && (z =? 191))%nat.

(** Skips the leading white space and line terminators. *)
Fixpoint trim_start (s : string) : string :=
  match s with
  | String a r1 =>
      if is_space a then trim_start r1
      else
        match r1 with
        | String b r2 =>
            if is_space2 a b then trim_start r2
            else
              match r2 with
              | String c r3 => if is_space3 a b c then trim_start r3 else s
              | EmptyString => s
              end
        | EmptyString => s
        end
  | EmptyString => s
  end.

(** The double nearest to the integer of magnitude [m] (ties to even),
    which is infinite from 2^1024 - 2^970 on. *)
Definition to_double (negative : bool) (m : Z) : Number :=
  let v :=
    if m <? 2 ^ 53 then m
    else
      let e := Z.log2 m - 52 in
      let q := Z.shiftr m e in
      let r := Z.land m (Z.ones e) in
      let half := Z.shiftl 1 (e - 1) in
      let q' :=
        if r <? half then q
        else if half <? r then q + 1
        else if Z.even q then q else q + 1 in
      Z.shiftl q' e in
  if 2 ^ 1024 <=? v then Infinity negative
  else Int (if negative then - v else v).

Definition digit_of (radix : Z) (c : ascii) : option Z :=
  let n := Z.of_nat (nat_of_ascii c) in
  let d :=
    if (48 <=? n) && (n <=? 57) then Some (n - 48)
    else if (97 <=? n) && (n <=? 122) then Some (n - 87)
    else if (65 <=? n) && (n <=? 90) then Some (n - 55)
    else None in
  match d with
  | Some k => if k <? radix then Some k else None
  | None => None
  end.

(** Reads the longest prefix of digits; [acc] is [None] until a digit
    has been read. *)
Fixpoint read_digits (radix : Z) (s : string) (acc : option Z) : option Z :=
  match s with
  | EmptyString => acc
  | String c r =>
      match digit_of radix c with
      | Some d => read_digits radix r (Some (radix * default 0 acc + d))
      | None => acc
      end
  end.

Definition parseInt_string (s : string) : Number :=
  let s1 := trim_start s in
  let '(negative, s2) :=
    match s1 with
    | String "-" r => (true, r)
    | String "+" r => (false, r)
    | _ => (false, s1)
    end in
  let '(radix, s3) :=
    match s2 with
    | String "0" (String "x" r) => (16, r)
    | String "0" (String "X" r) => (16, r)
    | _ => (10, s2)
    end in
  match read_digits radix s3 None with
  | Some n => to_double negative n
  | None => NaN
  end.

Definition parseInt (v : Value) : Number := parseInt_string (to_string v).

End JS.

Import JS.

(** ** Data model *)

(** A document of [Exams/{exam}/Questions]: the fields scoring reads. *)
Module Question.
Record t : Type := mk {
  id : string;
  order : Value;
  correctAnswer : Value
}.
End Question.

(** The [submittedVia] tag of a stored answer. *)
Inductive Provenance : Type :=
| individual
| completion
| timeout.

#[global] Instance Provenance_eq_dec : EqDecision Provenance.
Proof. solve_decision. Defined.

(** A document of [candidates/{registrationNumber}/answers]. [submittedVia]
    is [None] when the document has no such field. *)
Module Answer.
Record t : Type := mk {
  examName : Value;
  timestamp : string;
  order : Value;
  answer : Value;
  skipped : Value;
  submittedVia : option Provenance
}.
End Answer.

(** A document of [candidates]. *)
Module Candidate.
Record t : Type := mk {
  candidateName : Value;
  phone : Value;
  exam : Value;
  used : Value;
  submitted : Value;
  examCompletedAt : Value
}.
End Candidate.

(** What the results endpoint computes for one candidate. *)
Module Result.
Record t : Type := mk {
  registrationNumber : string;
  candidateName : Value;
  phone : Value;
  totalQuestions : Z;
  correctAnswers : Z;
  skippedQuestions : Z;
  wrongAnswers : Z
}.
End Result.

(** ** Scoring loop of GET /api/today-exam-results *)

(** [answers.find(a => a.order === question.order)] *)
Definition candidateAnswer (answers : list Answer.t) (question : Question.t)
  : option Answer.t :=
  List.find (fun a => strict_eq (Answer.order a) (Question.order question)) answers.

(** The body of [examQuestions.forEach]; the state is the pair
    [(correctAnswers, skippedQuestions)]. *)
Definition score_question (answers : list Answer.t) (acc : Z * Z)
    (question : Question.t) : Z * Z :=
  let '(correctAnswers, skippedQuestions) := acc in
  match candidateAnswer answers question with
  | None => (correctAnswers, skippedQuestions + 1)
  | Some a =>
      if truthy (Answer.skipped a) then (correctAnswers, skippedQuestions + 1)
      else if strict_eq (Answer.answer a) (Question.correctAnswer question)
           then (correctAnswers + 1, skippedQuestions)
           else (correctAnswers, skippedQuestions)
  end.

Definition tally (examQuestions : list Question.t) (answers : list Answer.t)
  : Z * Z :=
  fold_left (score_question answers) examQuestions (0, 0).

(** The result record of one candidate.  (The copy of the handler in
    Adminindex.js has the same loop and the same counts and adds the
    candidate's [submitted] and [used] flags to the record.) *)
Definition resultData (candidateId : string) (candidateData : Candidate.t)
    (examQuestions : list Question.t) (answers : list Answer.t) : Result.t :=
  let '(correctAnswers, skippedQuestions) := tally examQuestions answers in
  {| Result.registrationNumber := candidateId;
     Result.candidateName := Candidate.candidateName candidateData;
     Result.phone := Candidate.phone candidateData;
     Result.totalQuestions := Z.of_nat (length examQuestions);
     Result.correctAnswers := correctAnswers;
     Result.skippedQuestions := skippedQuestions;
     Result.wrongAnswers :=
       Z.of_nat (length examQuestions) - (correctAnswers + skippedQuestions) |}.

(** *** The counts as the specification words them *)

(** The stored answers carrying the order value of [q]. *)
Definition same_order (q : Question.t) (a : Answer.t) : bool :=
  strict_eq (Answer.order a) (Question.order q).

(** A question counts as skipped when no stored answer carries its order
    value, or the matching one (the first, when several do) is marked
    skipped. *)
Definition counts_as_skipped (answers : list Answer.t) (q : Question.t) : bool :=
  match List.filter (same_order q) answers with
  | [] => true
  | a :: _ => truthy (Answer.skipped a)
  end.

(** A question counts as correct when its matching answer is not skipped
    and holds the question's correct-answer index. *)
Definition counts_as_correct (answers : list Answer.t) (q : Question.t) : bool :=
  match List.filter (same_order q) answers with
  | [] => false
  | a :: _ =>
      negb (truthy (Answer.skipped a))
      && strict_eq (Answer.answer a) (Question.correctAnswer q)
  end.

Definition count {A} (p : A -> bool) (l : list A) : Z :=
  Z.of_nat (length (List.filter p l)).

(** [merged] keeps the elements of [l] and of [extra], each in its own
    order: the stored answers with stale ones anywhere among them. *)
Inductive Interleave {A} : list A -> list A -> list A -> Prop :=
| Interleave_nil : Interleave [] [] []
| Interleave_left x l extra merged :
    Interleave l extra merged -> Interleave (x :: l) extra (x :: merged)
| Interleave_right x l extra merged :
    Interleave l extra merged -> Interleave l (x :: extra) (x :: merged).

(** ** Exceptions *)

(** What can be thrown inside a handler's [try] block. *)
Inductive Error : Type :=
| TypeError        (* a method called on a value that has none *)
| InvalidPath      (* the store refused a document path *)
| UndefinedField   (* the store refused [undefined] as a field value *)
| NotFound         (* [update] of a document that does not exist *)
| Unavailable.     (* the store could not be reached *)

Inductive Exn (A : Type) : Type :=
| Ret (a : A)
| Throw (e : Error).

Arguments Ret {A} a.
Arguments Throw {A} e.

#[global] Instance Exn_ret : MRet Exn := fun A a => Ret a.

#[global] Instance Exn_bind : MBind Exn := fun A B f m =>
  match m with
  | Ret a => f a
  | Throw e => Throw e
  end.

(** [l.forEach(f)] where [f] may throw and reads the clock: the element at
    position [k] of [l] is handled at clock reading [i + k]. *)
Fixpoint forEach {A B} (f : nat -> A -> Exn B) (i : nat) (l : list A)
  : Exn (list B) :=
  match l with
  | [] => Ret []
  | x :: r => b ← f i x; bs ← forEach f (S i) r; Ret (b :: bs)
  end.

(** ** Requests and responses *)

(** An answer tuple: the body of POST /api/save-answer and the elements of
    the [answers] array of the other three paths. *)
Module Tuple.
Record t : Type := mk {
  registrationNumber : Value;
  questionId : Value;
  answer : Value;
  examName : Value;
  order : Value;
  skipped : Value
}.
End Tuple.

(** The JSON sent back, by shape. *)
Inductive Body : Type :=
| Success (message : string)
| SuccessSaved (message : string) (savedCount : Z)
| SuccessCompleted (message : string) (candidateId examName : Value)
    (submittedAt : string) (totalAnswers skippedCount : Z)
| Failure (error : string)
| FailureDetails (error : string) (details : Error).

Record Response : Type := mkResponse {
  status : Z;
  body : Body
}.

(** What a request reads from outside: the [k]-th reading of
    [new Date().toISOString()], and whether the document store answers. *)
Record Env : Type := mkEnv {
  clock : nat -> string;
  firestore_up : bool
}.

(** ** The document store *)

(** A document path: from the root, collection names and document
    identifiers in turn. *)
Abbreviation Path := (list string).

(** A document, seen through the fields the handlers write and the
    results request reads: the fields of a candidate and the fields of an
    answer (the two sets of names are disjoint).  A field the document has
    not is [undefined], an absent [timestamp] the empty string. *)
Module Document.
Record t : Type := mk {
  candidate : Candidate.t;
  answer : Answer.t
}.
End Document.

Definition no_candidate : Candidate.t :=
  {| Candidate.candidateName := VUndefined;
     Candidate.phone := VUndefined;
     Candidate.exam := VUndefined;
     Candidate.used := VUndefined;
     Candidate.submitted := VUndefined;
     Candidate.examCompletedAt := VUndefined |}.

Definition no_answer : Answer.t :=
  {| Answer.examName := VUndefined;
     Answer.timestamp := "";
     Answer.order := VUndefined;
     Answer.answer := VUndefined;
     Answer.skipped := VUndefined;
     Answer.submittedVia := None |}.

Definition candidate_doc (c : Candidate.t) : Document.t :=
  {| Document.candidate := c; Document.answer := no_answer |}.

Definition answer_doc (a : Answer.t) : Document.t :=
  {| Document.candidate := no_candidate; Document.answer := a |}.

(** The documents of the store by path. *)
Record Store : Type := mkStore {
  documents : gmap Path Document.t
}.

Module Firestore.

(** [s.split('/')] *)
Fixpoint split (s : string) : list string :=
  match s with
  | EmptyString => [""]
  | String c r =>
      if Ascii.eqb c "/" then "" :: split r
      else
        match split r with
        | segment :: rest => String c segment :: rest
        | [] => [String c ""]
        end
  end.

(** The segments of a relative path: a slash at either end is allowed
    and adds no segment. *)
Definition segments (relativePath : string) : list string :=
  List.filter (fun segment => negb (String.eqb segment "")) (split relativePath).

(** [s.indexOf('//') >= 0] *)
Fixpoint double_slash (s : string) : bool :=
  match s with
  | String a r =>
      match r with
      | String b _ => Ascii.eqb a "/" && Ascii.eqb b "/" || double_slash r
      | EmptyString => false
      end
  | EmptyString => false
  end.

(** [collection.doc(id)]: the identifier is a non-empty string without
    "//", appended to the collection's path as a relative path; the result
    has to name a document, that is, to have an even number of segments. *)
Definition doc (collection : Path) (id : Value) : Exn Path :=
  match id with
  | VStr s =>
      if String.eqb s "" || double_slash s then Throw InvalidPath
      else
        let path := (collection ++ segments s)%list in
        if Nat.even (length path) then Ret path else Throw InvalidPath
  | _ => Throw InvalidPath
  end.

(** [document.collection(name)] for a name of one segment. *)
Definition collection (document : Path) (name : string) : Path :=
  (document ++ [name])%list.

End Firestore.

(** The documents of the collection [candidates], by identifier, and the
    documents of the sub-collections [candidates/{c}/answers], by [c] and
    identifier: what [collection.get()] lists. *)
Definition candidate_key (p : Path) : option string :=
  match p with
  | [root; c] => if String.eqb root "candidates" then Some c else None
  | _ => None
  end.

Definition answer_key (p : Path) : option (string * string) :=
  match p with
  | [root; c; sub; q] =>
      if String.eqb root "candidates" && String.eqb sub "answers" then Some (c, q)
      else None
  | _ => None
  end.

Definition collection_view {K V} `{Countable K} (key : Path -> option K)
    (field : Document.t -> V) (m : gmap Path Document.t) : gmap K V :=
  list_to_map
    (omap (fun kv : Path * Document.t => k ← key kv.1; Some (k, field kv.2))
          (map_to_list m)).

Definition candidates (st : Store) : gmap string Candidate.t :=
  collection_view candidate_key Document.candidate (documents st).

Definition answers (st : Store) : gmap (string * string) Answer.t :=
  collection_view answer_key Document.answer (documents st).

Inductive Write : Type :=
| UpdateCandidate (ref : Path) (submitted : Value) (examCompletedAt : Value)
| SetAnswer (ref : Path) (data : Answer.t).

Definition has_slash (s : string) : bool :=
  existsb (fun c => Ascii.eqb c "/") (list_ascii_of_string s).

(** [.doc(id)] for the endpoints modelled on one collection each (the
    schedule, the question bank, the registration check): the identifier
    taken as one path segment.  An identifier with "/" addresses a
    document outside that collection, which those models do not follow. *)
Definition doc (id : Value) : Exn string :=
  match id with
  | VStr s => if String.eqb s "" || has_slash s then Throw InvalidPath else Ret s
  | _ => Throw InvalidPath
  end.

Definition defined (v : Value) : bool := negb (strict_eq v VUndefined).

Definition valid_data (d : Answer.t) : bool :=
  defined (Answer.examName d) && defined (Answer.order d)
  && defined (Answer.answer d) && defined (Answer.skipped d).

(** [batch.set(ref, data)] and the check of [ref.set(data)] *)
Definition batch_set (ref : Path) (data : Answer.t) : Exn Write :=
  if valid_data data then Ret (SetAnswer ref data) else Throw UndefinedField.

(** [update(ref, { submitted, examCompletedAt })] merges the two fields
    into the document. *)
Definition merge_submission (submitted examCompletedAt : Value) (d : Candidate.t)
  : Candidate.t :=
  {| Candidate.candidateName := Candidate.candidateName d;
     Candidate.phone := Candidate.phone d;
     Candidate.exam := Candidate.exam d;
     Candidate.used := Candidate.used d;
     Candidate.submitted := submitted;
     Candidate.examCompletedAt := examCompletedAt |}.

Definition mark (submitted examCompletedAt : Value) (d : Document.t) : Document.t :=
  {| Document.candidate := merge_submission submitted examCompletedAt (Document.candidate d);
     Document.answer := Document.answer d |}.

(** [set] replaces the whole document, [update] changes the fields it
    names. *)
Definition apply_write (st : Store) (w : Write) : Store :=
  match w with
  | UpdateCandidate ref s t =>
      {| documents := alter (mark s t) ref (documents st) |}
  | SetAnswer ref d =>
      {| documents := <[ref := answer_doc d]> (documents st) |}
  end.

Definition precondition (st : Store) (w : Write) : bool :=
  match w with
  | UpdateCandidate ref _ _ => bool_decide (is_Some (documents st !! ref))
  | SetAnswer _ _ => true
  end.

(** [batch.commit()]: every write or none. *)
Definition commit (env : Env) (st : Store) (batch : list Write) : Exn Store :=
  if negb (firestore_up env) then Throw Unavailable
  else if forallb (precondition st) batch then Ret (fold_left apply_write batch st)
  else Throw NotFound.

Definition is_set (w : Write) : bool :=
  match w with SetAnswer _ _ => true | UpdateCandidate _ _ _ => false end.

(** ** Answer ingestion *)

(** [questionId.startsWith('Q') ? questionId : `Q${questionId}`] on a
    string. *)
Definition formatQuestionId (questionId : string) : string :=
  if startsWith "Q" questionId then questionId else "Q" ++ questionId.

(** The same expression on a request field: [startsWith] exists on strings
    only. *)
Definition formattedQuestionId (questionId : Value) : Exn string :=
  match questionId with
  | VStr s => Ret (formatQuestionId s)
  | _ => Throw TypeError
  end.

(** [firestore.collection('candidates').doc(id)] *)
Definition candidateDocRef (id : Value) : Exn Path :=
  Firestore.doc ["candidates"] id.

(** [candidateRef.collection('answers').doc(formattedQuestionId)] *)
Definition answerDocRef_of (candidateRef : Path) (formatted : string) : Exn Path :=
  Firestore.doc (Firestore.collection candidateRef "answers") (VStr formatted).

(** The reference
    [collection('candidates').doc(registrationNumber).collection('answers').doc(formatted)]. *)
Definition answerDocRef (registrationNumber questionId : Value) : Exn Path :=
  q ← formattedQuestionId questionId;
  r ← candidateDocRef registrationNumber;
  answerDocRef_of r q.

Definition respond (st : Store) (code : Z) (b : Body) : Store * Response :=
  (st, {| status := code; body := b |}).

(** *** POST /api/save-answer *)

Definition individual_answerData (timestamp : string) (t : Tuple.t) : Answer.t :=
  {| Answer.examName := Tuple.examName t;
     Answer.timestamp := timestamp;
     Answer.order := Tuple.order t;
     Answer.answer := VNum (parseInt (Tuple.answer t));
     Answer.skipped := JS.or (Tuple.skipped t) (VBool false);
     Answer.submittedVia := Some individual |}.

Definition save_answer_missing (t : Tuple.t) : bool :=
  negb (truthy (Tuple.registrationNumber t))
  || negb (truthy (Tuple.questionId t))
  || strict_eq (Tuple.answer t) VUndefined
  || negb (truthy (Tuple.examName t)).

Definition individual_write (env : Env) (i : nat) (t : Tuple.t) : Exn Write :=
  ref ← answerDocRef (Tuple.registrationNumber t) (Tuple.questionId t);
  batch_set ref (individual_answerData (clock env i) t).

Definition save_answer (env : Env) (st : Store) (t : Tuple.t) : Store * Response :=
  if save_answer_missing t then respond st 400 (Failure "Missing required fields")
  else
    match w ← individual_write env 0 t; commit env st [w] with
    | Ret st' => respond st' 200 (Success "Answer saved successfully")
    | Throw e => respond st 500 (FailureDetails "Failed to save answer" e)
    end.

(** *** POST /api/save-all-answers *)

Definition bulk_answerData (timestamp : string) (t : Tuple.t) : Answer.t :=
  if truthy (Tuple.skipped t) then
    {| Answer.examName := Tuple.examName t;
       Answer.timestamp := timestamp;
       Answer.order := Tuple.order t;
       Answer.answer := VNull;
       Answer.skipped := VBool true;
       Answer.submittedVia := None |}
  else
    {| Answer.examName := Tuple.examName t;
       Answer.timestamp := timestamp;
       Answer.order := Tuple.order t;
       Answer.answer := VNum (parseInt (Tuple.answer t));
       Answer.skipped := VBool false;
       Answer.submittedVia := None |}.

Definition bulk_write (env : Env) (i : nat) (t : Tuple.t) : Exn Write :=
  ref ← answerDocRef (Tuple.registrationNumber t) (Tuple.questionId t);
  batch_set ref (bulk_answerData (clock env i) t).

(** The [answers] field of a body is [None] when it is not an array. *)
Definition isArray (answers : option (list Tuple.t)) : bool :=
  match answers with Some _ => true | None => false end.

Definition elements (answers : option (list Tuple.t)) : list Tuple.t :=
  default [] answers.

Definition save_all_answers (env : Env) (st : Store)
    (answers : option (list Tuple.t)) : Store * Response :=
  if negb (isArray answers) || (length (elements answers) =? 0)%nat then
    respond st 400 (Failure "Invalid answers format. Expected non-empty array.")
  else
    match batch ← forEach (bulk_write env) 0 (elements answers); commit env st batch with
    | Ret st' => respond st' 200 (Success "All answers saved successfully")
    | Throw e => respond st 500 (FailureDetails "Failed to save answers" e)
    end.

(** *** POST /api/timeout-save-answers *)

(** [!answer.skipped && answer.answer !== null && answer.answer !== undefined] *)
Definition attempted (t : Tuple.t) : bool :=
  negb (truthy (Tuple.skipped t))
  && negb (strict_eq (Tuple.answer t) VNull)
  && negb (strict_eq (Tuple.answer t) VUndefined).

Definition timeout_answerData (timestamp : string) (t : Tuple.t) : Answer.t :=
  {| Answer.examName := Tuple.examName t;
     Answer.timestamp := timestamp;
     Answer.order := Tuple.order t;
     Answer.answer := VNum (parseInt (Tuple.answer t));
     Answer.skipped := VBool false;
     Answer.submittedVia := Some timeout |}.

Definition timeout_write (env : Env) (i : nat) (t : Tuple.t) : Exn Write :=
  ref ← answerDocRef (Tuple.registrationNumber t) (Tuple.questionId t);
  batch_set ref (timeout_answerData (clock env i) t).

Definition timeout_save_answers (env : Env) (st : Store)
    (answers : option (list Tuple.t)) : Store * Response :=
  if negb (isArray answers) then respond st 400 (Failure "Invalid answers format")
  else
    let attemptedAnswers := List.filter attempted (elements answers) in
    if (length attemptedAnswers =? 0)%nat then
      respond st 200 (Success "No attempted answers to save")
    else
      match
        batch ← forEach (timeout_write env) 0 attemptedAnswers;
        commit env st batch
      with
      | Ret st' =>
          respond st' 200
            (SuccessSaved "Attempted answers saved successfully"
               (Z.of_nat (length attemptedAnswers)))
      | Throw e => respond st 500 (FailureDetails "Failed to save answers" e)
      end.

(** *** POST /api/complete-exam *)

Module CompleteExam.
Record t : Type := mk {
  candidateId : Value;
  examName : Value;
  answers : option (list Tuple.t);
  submitted : Value
}.
End CompleteExam.

Definition completion_answerData (examName : Value) (timestamp : string)
    (t : Tuple.t) : Answer.t :=
  {| Answer.examName := examName;
     Answer.timestamp := timestamp;
     Answer.order := Tuple.order t;
     Answer.answer :=
       if truthy (Tuple.skipped t) then VNull
       else VNum (parseInt (Tuple.answer t));
     Answer.skipped := JS.or (Tuple.skipped t) (VBool false);
     Answer.submittedVia := Some completion |}.

Definition completion_write (env : Env) (candidateRef : Path) (examName : Value)
    (i : nat) (t : Tuple.t) : Exn Write :=
  q ← formattedQuestionId (Tuple.questionId t);
  ref ← answerDocRef_of candidateRef q;
  batch_set ref (completion_answerData examName (clock env i) t).

Definition complete_exam_invalid (req : CompleteExam.t) : bool :=
  negb (truthy (CompleteExam.candidateId req))
  || negb (truthy (CompleteExam.examName req))
  || negb (isArray (CompleteExam.answers req)).

Definition complete_exam (env : Env) (st : Store) (req : CompleteExam.t)
  : Store * Response :=
  if complete_exam_invalid req then
    respond st 400 (Failure "Missing required fields or invalid answers format")
  else
    let answers := elements (CompleteExam.answers req) in
    match
      candidateRef ← candidateDocRef (CompleteExam.candidateId req);
      ws ← forEach (completion_write env candidateRef (CompleteExam.examName req)) 1 answers;
      commit env st
        (UpdateCandidate candidateRef (VBool true) (VStr (clock env 0)) :: ws)
    with
    | Ret st' =>
        respond st' 200
          (SuccessCompleted "Exam completed and answers submitted successfully"
             (CompleteExam.candidateId req) (CompleteExam.examName req)
             (clock env (S (length answers)))
             (Z.of_nat (length answers))
             (Z.of_nat (length (List.filter (fun a => truthy (Tuple.skipped a)) answers))))
    | Throw e => respond st 500 (FailureDetails "Failed to complete exam" e)
    end.

(** A tuple whose candidate and question identifiers are single path
    segments (its candidate identifier non-empty), with [examName] and
    [order] defined: its record is a document of
    [candidates/{registrationNumber}/answers]. *)
Definition valid_id (v : Value) : bool :=
  match v with
  | VStr s => negb (String.eqb s "") && negb (has_slash s)
  | _ => false
  end.

Definition valid_question_id (v : Value) : bool :=
  match v with
  | VStr s => negb (has_slash s)
  | _ => false
  end.

Definition storable (t : Tuple.t) : bool :=
  valid_id (Tuple.registrationNumber t)
  && valid_question_id (Tuple.questionId t)
  && defined (Tuple.examName t)
  && defined (Tuple.order t).

(** ** The four submission routes *)

Inductive Request : Type :=
| SaveAnswer (t : Tuple.t)
| SaveAllAnswers (answers : option (list Tuple.t))
| TimeoutSaveAnswers (answers : option (list Tuple.t))
| CompleteExamReq (req : CompleteExam.t).

(** The router: each route runs its own handler. *)
Definition handle (env : Env) (st : Store) (r : Request) : Store * Response :=
  match r with
  | SaveAnswer t => save_answer env st t
  | SaveAllAnswers a => save_all_answers env st a
  | TimeoutSaveAnswers a => timeout_save_answers env st a
  | CompleteExamReq req => complete_exam env st req
  end.

(** The tuples a request asks to persist: for the timeout route the
    attempted ones only. *)
Definition batch_of (r : Request) : list Tuple.t :=
  match r with
  | SaveAnswer t => [t]
  | SaveAllAnswers a => elements a
  | TimeoutSaveAnswers a => List.filter attempted (elements a)
  | CompleteExamReq req => elements (CompleteExam.answers req)
  end.

(** The candidate a tuple of the request is stored under. *)
Definition registration_of (r : Request) (t : Tuple.t) : Value :=
  match r with
  | CompleteExamReq req => CompleteExam.candidateId req
  | _ => Tuple.registrationNumber t
  end.

(** The exam name stored with a tuple: the request's on the completion
    route, the tuple's own on the others. *)
Definition examName_of (r : Request) (t : Tuple.t) : Value :=
  match r with
  | CompleteExamReq req => CompleteExam.examName req
  | _ => Tuple.examName t
  end.

(** The record a route builds for a tuple at a clock reading. *)
Definition answerData_of (r : Request) (timestamp : string) (t : Tuple.t) : Answer.t :=
  match r with
  | SaveAnswer _ => individual_answerData timestamp t
  | SaveAllAnswers _ => bulk_answerData timestamp t
  | TimeoutSaveAnswers _ => timeout_answerData timestamp t
  | CompleteExamReq req => completion_answerData (CompleteExam.examName req) timestamp t
  end.

(** The document a request addresses for one of its tuples. *)
Definition answer_ref (r : Request) (t : Tuple.t) : Exn Path :=
  answerDocRef (registration_of r t) (Tuple.questionId t).

(** The document at [ref] is not after the request what it was before. *)
Definition changed (st st' : Store) (ref : Path) : Prop :=
  documents st' !! ref <> documents st !! ref.

(** The write [w] is the one the route of [r] builds for its tuple [t]:
    a [set] of the route's record at the tuple's document. *)
Definition built_for (env : Env) (r : Request) (t : Tuple.t) (w : Write) : Prop :=
  exists j ref,
    answer_ref r t = Ret ref
    /\ w = SetAnswer ref (answerData_of r (clock env j) t).

(** The document the completion route marks, and its update, which the
    other routes do not have. *)
Definition candidate_ref (r : Request) : option Path :=
  match r with
  | CompleteExamReq req =>
      match candidateDocRef (CompleteExam.candidateId req) with
      | Ret c => Some c
      | Throw _ => None
      end
  | _ => None
  end.

Definition candidate_update (env : Env) (r : Request) : list Write :=
  match candidate_ref r with
  | Some c => [UpdateCandidate c (VBool true) (VStr (clock env 0))]
  | None => []
  end.

(** *** The stored record as the specification words it *)

(** Not skipped: the integer parse and [skipped = false]. *)
Definition stores_the_parse (t : Tuple.t) (d : Answer.t) : Prop :=
  Answer.answer d = VNum (parseInt (Tuple.answer t))
  /\ Answer.skipped d = VBool false.

(** Skipped: [null], with the skip flag [flag]. *)
Definition stores_the_skip (flag : Value) (d : Answer.t) : Prop :=
  Answer.answer d = VNull /\ Answer.skipped d = flag.

(** The coercion rule, a tuple counting as skipped when its [skipped] is
    truthy: the skip flag stored is [true]. *)
Definition coercion_rule (t : Tuple.t) (d : Answer.t) : Prop :=
  (truthy (Tuple.skipped t) = false -> stores_the_parse t d)
  /\ (truthy (Tuple.skipped t) = true -> stores_the_skip (VBool true) d).

Definition has_provenance_tag (d : Answer.t) : Prop :=
  exists tag, Answer.submittedVia d = Some tag.

(** What each route guarantees of the record it stores for a tuple.  The
    bulk route: the rule in full, and no tag.  The completion route: its
    tag and the rule, the skip flag stored being the [skipped] value of the
    tuple (which is [true] when the tuple says [true]).  The timeout route,
    which stores attempted tuples only: its tag and the parse.  The
    individual route: its tag and, for a tuple that is not skipped, the
    parse. *)
Definition route_rule (r : Request) (t : Tuple.t) (d : Answer.t) : Prop :=
  match r with
  | SaveAnswer _ =>
      Answer.submittedVia d = Some individual
      /\ (truthy (Tuple.skipped t) = false -> stores_the_parse t d)
  | SaveAllAnswers _ =>
      Answer.submittedVia d = None /\ coercion_rule t d
  | TimeoutSaveAnswers _ =>
      Answer.submittedVia d = Some timeout
      /\ truthy (Tuple.skipped t) = false
      /\ stores_the_parse t d
  | CompleteExamReq _ =>
      Answer.submittedVia d = Some completion
      /\ (truthy (Tuple.skipped t) = false -> stores_the_parse t d)
      /\ (truthy (Tuple.skipped t) = true -> stores_the_skip (Tuple.skipped t) d)
  end.

(** The document [new] is [old] with [submitted = true] and the completion
    timestamp [ts], every other field as it was. *)
Definition completed_from (ts : Value) (old new : Document.t) : Prop :=
  Candidate.submitted (Document.candidate new) = VBool true
  /\ Candidate.examCompletedAt (Document.candidate new) = ts
  /\ Candidate.candidateName (Document.candidate new)
     = Candidate.candidateName (Document.candidate old)
  /\ Candidate.phone (Document.candidate new) = Candidate.phone (Document.candidate old)
  /\ Candidate.exam (Document.candidate new) = Candidate.exam (Document.candidate old)
  /\ Candidate.used (Document.candidate new) = Candidate.used (Document.candidate old)
  /\ Document.answer new = Document.answer old.

(** The record [d] is the one stored for the tuple [t] of the request at
    a clock reading of the request: exam name, order value and timestamp,
    and the rule of the route. *)
Definition stored_for (env : Env) (r : Request) (t : Tuple.t) (d : Answer.t) : Prop :=
  Answer.examName d = examName_of r t
  /\ Answer.order d = Tuple.order t
  /\ (exists j, Answer.timestamp d = clock env j)
  /\ route_rule r t d.

(** The record the timeout route stores for a tuple, field by field. *)
Definition timeout_record (env : Env) (t : Tuple.t) (d : Answer.t) : Prop :=
  Answer.examName d = Tuple.examName t
  /\ Answer.order d = Tuple.order t
  /\ (exists j, Answer.timestamp d = clock env j)
  /\ Answer.answer d = VNum (parseInt (Tuple.answer t))
  /\ Answer.skipped d = VBool false
  /\ Answer.submittedVia d = Some timeout.

(** ** GET /api/today-exam-results *)

Module DateTime.
Record t : Type := mk {
  date : Value;
  startTime : Value;
  endTime : Value;
  marks : Value
}.
End DateTime.

(** A document of [Exams]. [dateTime] is [None] when the document has no
    such object; [Questions] is the snapshot of the sub-collection that
    [orderBy('order').get()] returns. *)
Module Exam.
Record t : Type := mk {
  id : string;
  dateTime : option DateTime.t;
  Questions : list Question.t
}.
End Exam.

(** The whole backend: the [Exams] collection in the order a [get()]
    returns it, the candidates and their answers, and the [Results] node
    of the Realtime Database with the timestamp each entry was written at. *)
Record Backend : Type := mkBackend {
  Exams : list Exam.t;
  store : Store;
  Results : gmap (string * string) (Result.t * string)
}.

(** What the results request reads from outside, besides [Env]: the value
    of [moment().format('YYYY-MM-DD')] and whether the Realtime Database
    accepts the write at [Results/{exam}/{candidate}]. *)
Record ResultsEnv : Type := mkResultsEnv {
  base_env : Env;
  today : string;
  realtime_accepts : string -> string -> bool
}.

Definition by_id {V} (x y : string * V) : Prop := String.leb x.1 y.1 = true.

#[global] Instance by_id_dec {V} : RelDecision (@by_id V).
Proof. intros x y. unfold by_id. apply _. Defined.

(** The documents of a collection, by document id. *)
Definition docs {V} (m : gmap string V) : list (string * V) :=
  merge_sort by_id (map_to_list m).

(** The sub-collection [candidates/{candidateId}/answers]. *)
Definition answers_collection (st : Store) (candidateId : string)
  : list (string * Answer.t) :=
  merge_sort by_id
    (omap (fun kv : string * string * Answer.t =>
             if String.eqb kv.1.1 candidateId then Some (kv.1.2, kv.2) else None)
          (map_to_list (answers st))).

(** The loop over [examsSnapshot.docs] that stops at the first document
    with [examData.dateTime?.date === today]. *)
Fixpoint find_today (renv : ResultsEnv) (examDocs : list Exam.t)
  : option (Exam.t * DateTime.t) :=
  match examDocs with
  | [] => None
  | doc :: rest =>
      match Exam.dateTime doc with
      | Some dt =>
          if strict_eq (DateTime.date dt) (VStr (today renv)) then Some (doc, dt)
          else find_today renv rest
      | None => find_today renv rest
      end
  end.

(** [.where('exam', '==', todayExam.id)] *)
Definition registered_to (examId : string) (c : string * Candidate.t) : bool :=
  strict_eq (Candidate.exam c.2) (VStr examId).

Inductive ResultsBody : Type :=
| NoExamToday (message : string)
| ExamResults (examName : string) (date startTime endTime totalMarks : Value)
    (results : list Result.t)
| ResultsFailure (error : string) (details : Error).

Record ResultsResponse : Type := mkResultsResponse {
  results_status : Z;
  results_body : ResultsBody
}.

(** The answers read for a candidate, and the result computed from them. *)
Definition stored_answers (st : Store) (candidateId : string) : list Answer.t :=
  (answers_collection st candidateId).*2.

Definition score_of (st : Store) (examQuestions : list Question.t)
    (c : string * Candidate.t) : Result.t :=
  resultData c.1 c.2 examQuestions (stored_answers st c.1).

(** The loop over the candidates of the exam: score, push, materialize.
    A refused write throws, leaving the earlier entries written. *)
Fixpoint score_candidates (renv : ResultsEnv) (examId : string)
    (examQuestions : list Question.t) (st : Store) (i : nat)
    (candidateDocs : list (string * Candidate.t))
    (db : gmap (string * string) (Result.t * string)) (results : list Result.t)
  : gmap (string * string) (Result.t * string) * Exn (list Result.t) :=
  match candidateDocs with
  | [] => (db, Ret results)
  | (candidateId, candidateData) :: rest =>
      let answers := stored_answers st candidateId in
      let r := resultData candidateId candidateData examQuestions answers in
      if realtime_accepts renv examId candidateId then
        score_candidates renv examId examQuestions st (S i) rest
          (<[(examId, candidateId) := (r, clock (base_env renv) i)]> db)
          (results ++ [r])
      else (db, Throw Unavailable)
  end.

Definition today_exam_results (renv : ResultsEnv) (b : Backend)
  : Backend * ResultsResponse :=
  if negb (firestore_up (base_env renv)) then
    (b, {| results_status := 500;
           results_body := ResultsFailure "Failed to fetch exam results" Unavailable |})
  else
    match find_today renv (Exams b) with
    | None =>
        (b, {| results_status := 404;
               results_body := NoExamToday "No exam found for today" |})
    | Some (doc, todayExam) =>
        let candidateDocs :=
          List.filter (registered_to (Exam.id doc)) (docs (candidates (store b))) in
        match score_candidates renv (Exam.id doc) (Exam.Questions doc) (store b) 0
                candidateDocs (Results b) []
        with
        | (db, Ret results) =>
            ({| Exams := Exams b; store := store b; Results := db |},
             {| results_status := 200;
                results_body :=
                  ExamResults (Exam.id doc) (DateTime.date todayExam)
                    (DateTime.startTime todayExam) (DateTime.endTime todayExam)
                    (DateTime.marks todayExam) results |})
        | (db, Throw e) =>
            ({| Exams := Exams b; store := store b; Results := db |},
             {| results_status := 500;
                results_body := ResultsFailure "Failed to fetch exam results" e |})
        end
    end.

(** ** POST /api/verify-payment *)

Module Payment.
Record t : Type := mk {
  order_id : Value;
  amount : Value;
  status : Value;
  method : Value;
  email : Value;
  contact : Value;
  created_at : Value
}.
End Payment.

Module Order.
Record t : Type := mk {
  amount : Value
}.
End Order.

(** The payment side of the environment: the configured secret, the
    HMAC-SHA256 primitive with hexadecimal digest (key, then text), and the
    gateway's two fetch calls, [None] when the call is rejected. *)
Record Gateway : Type := mkGateway {
  RAZORPAY_KEY_SECRET : option string;
  hmac_sha256_hex : string -> string -> string;
  payments_fetch : Value -> option Payment.t;
  orders_fetch : Value -> option Order.t
}.

Inductive GatewayCall : Type :=
| PaymentsFetch (paymentId : Value)
| OrdersFetch (orderId : Value).

Module VerifyPayment.
Record t : Type := mk {
  orderId : Value;
  paymentId : Value;
  signature : Value
}.
End VerifyPayment.

(** The JSON of the payment endpoint; [Verified] carries the payment whose
    fields the response reports (its amount divided by 100). *)
Inductive PaymentBody : Type :=
| PaymentFailure (error : string)
| NotCaptured (error : string) (payment_status : Value)
| Verified (orderId paymentId : Value) (payment : Payment.t).

Record PaymentResponse : Type := mkPaymentResponse {
  payment_status : Z;
  payment_body : PaymentBody
}.

(** [crypto.createHmac("sha256", secret).update(text).digest("hex")], which
    throws when the secret is not configured. *)
Definition generated_signature (g : Gateway) (text : string) : Exn string :=
  match RAZORPAY_KEY_SECRET g with
  | Some secret => Ret (hmac_sha256_hex g secret text)
  | None => Throw TypeError
  end.

(** The inner [try] block, with the gateway calls it makes. *)
Definition check_payment (g : Gateway) (req : VerifyPayment.t)
  : PaymentResponse * list GatewayCall :=
  let orderId := VerifyPayment.orderId req in
  let paymentId := VerifyPayment.paymentId req in
  let invalid := {| payment_status := 400;
                    payment_body := PaymentFailure "Invalid payment details" |} in
  match payments_fetch g paymentId with
  | None => (invalid, [PaymentsFetch paymentId])
  | Some payment =>
      let calls := [PaymentsFetch paymentId; OrdersFetch orderId] in
      match orders_fetch g orderId with
      | None => (invalid, calls)
      | Some order =>
          if negb (strict_eq (Payment.order_id payment) orderId) then (invalid, calls)
          else if negb (strict_eq (Payment.amount payment) (Order.amount order))
          then (invalid, calls)
          else if negb (strict_eq (Payment.status payment) (VStr "captured"))
          then ({| payment_status := 400;
                   payment_body := NotCaptured "Payment not captured"
                                     (Payment.status payment) |}, calls)
          else ({| payment_status := 200;
                   payment_body := Verified orderId paymentId payment |}, calls)
      end
  end.

Definition verify_payment (g : Gateway) (req : VerifyPayment.t)
  : PaymentResponse * list GatewayCall :=
  let orderId := VerifyPayment.orderId req in
  let paymentId := VerifyPayment.paymentId req in
  let signature := VerifyPayment.signature req in
  if negb (truthy orderId) || negb (truthy paymentId) || negb (truthy signature) then
    ({| payment_status := 400;
        payment_body := PaymentFailure "Missing required parameters" |}, [])
  else
    let text := JS.to_string orderId ++ "|" ++ JS.to_string paymentId in
    match generated_signature g text with
    | Throw _ =>
        ({| payment_status := 500;
            payment_body := PaymentFailure "Signature generation failed" |}, [])
    | Ret generated =>
        if negb (strict_eq (VStr generated) signature) then
          ({| payment_status := 400;
              payment_body := PaymentFailure "Invalid payment signature" |}, [])
        else check_payment g req
    end.

(** ** Sample data: the scenarios of the specification *)

Module Sample.

Definition env : Env :=
  {| clock := fun k => "2025-03-01T09:00:0" ++ pretty k ++ "Z";
     firestore_up := true |}.

Definition candidate (name : string) : Candidate.t :=
  {| Candidate.candidateName := VStr name;
     Candidate.phone := VStr "9000000000";
     Candidate.exam := VStr "Math101";
     Candidate.used := VBool true;
     Candidate.submitted := VBool false;
     Candidate.examCompletedAt := VUndefined |}.

Definition store0 : Store :=
  {| documents := {[ ["candidates"; "REG1"] := candidate_doc (candidate "Asha");
                     ["candidates"; "REG2"] := candidate_doc (candidate "Ravi") ]} |}.

Definition tuple (reg qid : string) (answer : Value) (order : Z) (skipped : Value)
  : Tuple.t :=
  {| Tuple.registrationNumber := VStr reg;
     Tuple.questionId := VStr qid;
     Tuple.answer := answer;
     Tuple.examName := VStr "Math101";
     Tuple.order := VNum (Int order);
     Tuple.skipped := skipped |}.

(** order 1, first option, identifier without the marker *)
Definition first_option : Tuple.t := tuple "REG1" "1" (VNum (Int 0)) 1 VUndefined.

(** order 2 answered 2 *)
Definition second : Tuple.t := tuple "REG1" "Q2" (VStr "2") 2 (VBool false).

(** order 3 skipped after option 2 had been selected *)
Definition third_skipped : Tuple.t := tuple "REG1" "Q3" (VNum (Int 2)) 3 (VBool true).

(** order 4 left untouched *)
Definition untouched : Tuple.t := tuple "REG1" "Q4" VNull 4 (VBool false).

Definition questions : list Question.t :=
  [ Question.mk "Q1" (VNum (Int 1)) (VNum (Int 1));
    Question.mk "Q2" (VNum (Int 2)) (VNum (Int 0));
    Question.mk "Q3" (VNum (Int 3)) (VNum (Int 2)) ].

Definition stored (order answer : Z) : Answer.t :=
  {| Answer.examName := VStr "Math101";
     Answer.timestamp := "2025-03-01T09:00:00Z";
     Answer.order := VNum (Int order);
     Answer.answer := VNum (Int answer);
     Answer.skipped := VBool false;
     Answer.submittedVia := Some individual |}.

Definition stored_skip (order : Z) : Answer.t :=
  {| Answer.examName := VStr "Math101";
     Answer.timestamp := "2025-03-01T09:00:00Z";
     Answer.order := VNum (Int order);
     Answer.answer := VNull;
     Answer.skipped := VBool true;
     Answer.submittedVia := Some completion |}.

(** What REG1 has stored: order 1 answered 1, order 2 answered 2, order 3
    skipped. *)
Definition reg1_answers : list Answer.t := [stored 1 1; stored 2 2; stored_skip 3].

(** Left behind by a deleted question of order 9. *)
Definition stale : Answer.t := stored 9 0.

Definition five_questions : list Question.t :=
  List.map (fun k => Question.mk ("Q" ++ pretty k) (VNum (Int k)) (VNum (Int 0)))
    [1; 2; 3; 4; 5].

Definition math101 : Exam.t :=
  {| Exam.id := "Math101";
     Exam.dateTime := Some (DateTime.mk (VStr "2025-03-01") (VStr "09:00 AM")
                              (VStr "10:00 AM") (VNum (Int 3)));
     Exam.Questions := questions |}.

Definition backend : Backend :=
  {| Exams := [math101];
     store :=
       {| documents :=
            <[["candidates"; "REG9"] :=
                candidate_doc {| Candidate.candidateName := VStr "Meera";
                                 Candidate.phone := VStr "9000000009";
                                 Candidate.exam := VStr "Physics";
                                 Candidate.used := VBool true;
                                 Candidate.submitted := VBool true;
                                 Candidate.examCompletedAt := VUndefined |}]>
              (<[["candidates"; "REG1"; "answers"; "Q1"] := answer_doc (stored 1 1)]>
                 (<[["candidates"; "REG1"; "answers"; "Q2"] := answer_doc (stored 2 2)]>
                    (<[["candidates"; "REG1"; "answers"; "Q3"] :=
                         answer_doc (stored_skip 3)]>
                       (documents store0)))) |};
     Results := ∅ |}.

Definition results_env (date : string) : ResultsEnv :=
  {| base_env := env; today := date; realtime_accepts := fun _ _ => true |}.

(** A gateway whose digest function is a stand-in for HMAC-SHA256 and
    which knows no payment. *)
Definition gateway : Gateway :=
  {| RAZORPAY_KEY_SECRET := Some "secret";
     hmac_sha256_hex := fun key text => "mac(" ++ key ++ "," ++ text ++ ")";
     payments_fetch := fun _ => None;
     orders_fetch := fun _ => None |}.

Definition forged : VerifyPayment.t :=
  {| VerifyPayment.orderId := VStr "order_1";
     VerifyPayment.paymentId := VStr "pay_1";
     VerifyPayment.signature := VStr "deadbeef" |}.

End Sample.

(** A stored answer is stale for a question set when no question carries
    its order value (its question was deleted). *)
Definition is_stale (questions : list Question.t) (a : Answer.t) : bool :=
  forallb (fun q => negb (same_order q a)) questions.

(** ** A request as a plan and its execution *)

(** What a submission handler decides before it touches the store: to
    answer at once, or to commit a batch of writes (whose preparation may
    throw) and answer by the outcome. *)
Inductive Plan : Type :=
| Answer_now (resp : Response)
| Commit (batch : Exn (list Write)) (done : Response) (failed : Error -> Response).

Definition execute (env : Env) (st : Store) (p : Plan) : Store * Response :=
  match p with
  | Answer_now resp => (st, resp)
  | Commit batch done failed =>
      match b ← batch; commit env st b with
      | Ret st' => (st', done)
      | Throw e => (st, failed e)
      end
  end.

Definition failure (code : Z) (error : string) (e : Error) : Response :=
  {| status := code; body := FailureDetails error e |}.

Definition plan (env : Env) (r : Request) : Plan :=
  match r with
  | SaveAnswer t =>
      if save_answer_missing t then
        Answer_now {| status := 400; body := Failure "Missing required fields" |}
      else
        Commit (w ← individual_write env 0 t; Ret [w])
          {| status := 200; body := Success "Answer saved successfully" |}
          (failure 500 "Failed to save answer")
  | SaveAllAnswers a =>
      if negb (isArray a) || (length (elements a) =? 0)%nat then
        Answer_now {| status := 400;
                      body := Failure "Invalid answers format. Expected non-empty array." |}
      else
        Commit (forEach (bulk_write env) 0 (elements a))
          {| status := 200; body := Success "All answers saved successfully" |}
          (failure 500 "Failed to save answers")
  | TimeoutSaveAnswers a =>
      if negb (isArray a) then
        Answer_now {| status := 400; body := Failure "Invalid answers format" |}
      else if (length (List.filter attempted (elements a)) =? 0)%nat then
        Answer_now {| status := 200; body := Success "No attempted answers to save" |}
      else
        Commit (forEach (timeout_write env) 0 (List.filter attempted (elements a)))
          {| status := 200;
             body := SuccessSaved "Attempted answers saved successfully"
                       (Z.of_nat (length (List.filter attempted (elements a)))) |}
          (failure 500 "Failed to save answers")
  | CompleteExamReq req =>
      if complete_exam_invalid req then
        Answer_now {| status := 400;
                      body := Failure "Missing required fields or invalid answers format" |}
      else
        let answers := elements (CompleteExam.answers req) in
        Commit
          (candidateRef ← candidateDocRef (CompleteExam.candidateId req);
           ws ← forEach (completion_write env candidateRef (CompleteExam.examName req))
                  1 answers;
           Ret (UpdateCandidate candidateRef (VBool true) (VStr (clock env 0)) :: ws))
          {| status := 200;
             body := SuccessCompleted "Exam completed and answers submitted successfully"
                       (CompleteExam.candidateId req) (CompleteExam.examName req)
                       (clock env (S (length answers)))
                       (Z.of_nat (length answers))
                       (Z.of_nat (length (List.filter
                                            (fun a => truthy (Tuple.skipped a)) answers))) |}
          (failure 500 "Failed to complete exam")
  end.

(** The document a [set] addresses, and the last record a batch sets at
    a document. *)
Definition ref_of (w : Write) : option Path :=
  match w with
  | SetAnswer ref _ => Some ref
  | UpdateCandidate _ _ _ => None
  end.

Fixpoint last_set (batch : list Write) (ref : Path) : option Answer.t :=
  match batch with
  | [] => None
  | w :: rest =>
      match last_set rest ref with
      | Some d => Some d
      | None =>
          match w with
          | SetAnswer ref' d => if bool_decide (ref' = ref) then Some d else None
          | UpdateCandidate _ _ _ => None
          end
      end
  end.

(** The write a route prepares for one tuple at a clock reading. *)
Definition write_of (env : Env) (r : Request) (j : nat) (t : Tuple.t) : Exn Write :=
  match r with
  | SaveAnswer _ => individual_write env j t
  | SaveAllAnswers _ => bulk_write env j t
  | TimeoutSaveAnswers _ => timeout_write env j t
  | CompleteExamReq req =>
      c ← candidateDocRef (CompleteExam.candidateId req);
      completion_write env c (CompleteExam.examName req) j t
  end.

(** A tuple whose write the route of [r] can prepare: its identifiers
    name a document, and neither the exam name nor [order] is
    [undefined]. *)
Definition resolves (r : Request) (t : Tuple.t) : bool :=
  match answer_ref r t with
  | Ret _ => true
  | Throw _ => false
  end.

Definition storable_for (r : Request) (t : Tuple.t) : bool :=
  resolves r t
  && defined (examName_of r t)
  && defined (Tuple.order t).

(** No two of the answers carry the same order value. *)
Fixpoint distinct_orders (answers : list Answer.t) : bool :=
  match answers with
  | [] => true
  | a :: rest =>
      forallb (fun b => negb (strict_eq (Answer.order a) (Answer.order b))) rest
      && distinct_orders rest
  end.

(** The candidates the results loop gets to write: those before the first
    one whose write the Realtime Database refuses. *)
Fixpoint accepted_prefix (renv : ResultsEnv) (examId : string)
    (candidateDocs : list (string * Candidate.t)) : list (string * Candidate.t) :=
  match candidateDocs with
  | [] => []
  | c :: rest =>
      if realtime_accepts renv examId c.1
      then c :: accepted_prefix renv examId rest
      else []
  end.

Definition result_keys (examId : string) (l : list (string * Candidate.t))
  : list (string * string) :=
  List.map (fun c => (examId, c.1)) l.

(** ** [sanitizeFilename] (Adminindex.js) *)

(** The class [[a-zA-Z0-9.-]]. *)
Definition is_filename_char (c : ascii) : bool :=
  let n := nat_of_ascii c in
  ((97 <=? n) && (n <=? 122) || (65 <=? n) && (n <=? 90) || (48 <=? n) && (n <=? 57)
   || (n =? 46) || (n =? 45))%nat.

(** [.replace(/[^a-zA-Z0-9.-]/g, '_')] *)
Fixpoint replace_disallowed (s : string) : string :=
  match s with
  | EmptyString => EmptyString
  | String c rest =>
      String (if is_filename_char c then c else "_"%char) (replace_disallowed rest)
  end.

Definition starts_with_underscore (s : string) : bool :=
  match s with
  | String c _ => Ascii.eqb c "_"
  | EmptyString => false
  end.

(** [.replace(/_{2,}/g, '_')]: of every run of underscores one is kept (an
    underscore followed by an underscore is dropped). *)
Fixpoint collapse_underscores (s : string) : string :=
  match s with
  | EmptyString => EmptyString
  | String c rest =>
      if Ascii.eqb c "_" && starts_with_underscore rest
      then collapse_underscores rest
      else String c (collapse_underscores rest)
  end.

(** A byte outside ASCII is outside the class, and the bytes of one
    character become one underscore after the second step, as its UTF-16
    code units do. *)
Definition sanitizeFilename (filename : string) : string :=
  collapse_underscores (replace_disallowed filename).

(** Only letters, digits, ".", "-" and "_", and no two underscores in a
    row. *)
Fixpoint clean_name (s : string) : bool :=
  match s with
  | EmptyString => true
  | String c rest =>
      (is_filename_char c || Ascii.eqb c "_")
      && negb (Ascii.eqb c "_" && starts_with_underscore rest)
      && clean_name rest
  end.

Fixpoint all_chars (p : ascii -> bool) (s : string) : bool :=
  match s with
  | EmptyString => true
  | String c rest => p c && all_chars p rest
  end.

(** ** Regular expressions without repetition *)

(** The patterns of the handlers use concatenation, alternation, optional
    parts and character classes.  [run r s] lists, in the order a
    backtracking matcher tries them, what is left of [s] after [r] has
    matched a prefix; [test] is the anchored match [/^r$/.test(s)]. *)
Module Regex.

Inductive t : Type :=
| Eps
| Chr (p : ascii -> bool)
| Seq (a b : t)
| Alt (a b : t).

Definition Opt (a : t) : t := Alt a Eps.

Fixpoint run (r : t) (s : string) : list string :=
  match r with
  | Eps => [s]
  | Chr p =>
      match s with
      | String c rest => if p c then [rest] else []
      | EmptyString => []
      end
  | Seq a b => flat_map (run b) (run a s)
  | Alt a b => (run a s ++ run b s)%list
  end.

Definition test (r : t) (s : string) : bool :=
  existsb (String.eqb "") (run r s).

Definition lit (c : ascii) : t := Chr (Ascii.eqb c).

(** A letter under the [i] flag. *)
Definition lit_i (upper lower : ascii) : t :=
  Chr (fun c => Ascii.eqb c upper || Ascii.eqb c lower).

Definition in_range (lo hi c : ascii) : bool :=
  ((nat_of_ascii lo <=? nat_of_ascii c) && (nat_of_ascii c <=? nat_of_ascii hi))%nat.

Definition range (lo hi : ascii) : t := Chr (in_range lo hi).

Definition byte (n : nat) : t := lit (ascii_of_nat n).

(** [\s]: the ASCII white space and the UTF-8 encodings of U+00A0, U+1680,
    U+2000 to U+200A, U+2028, U+2029, U+202F, U+205F, U+3000 and U+FEFF. *)
Definition space : t :=
  Alt (Chr JS.is_space)
    (Alt (Seq (byte 194) (byte 160))
       (Alt (Seq (byte 225) (Seq (byte 154) (byte 128)))
          (Alt (Seq (byte 226) (Seq (byte 128)
                  (Alt (Chr (fun c => (128 <=? nat_of_ascii c)
                                      && (nat_of_ascii c <=? 138))%nat)
                     (Alt (byte 168) (Alt (byte 169) (byte 175))))))
             (Alt (Seq (byte 226) (Seq (byte 129) (byte 159)))
                (Alt (Seq (byte 227) (Seq (byte 128) (byte 128)))
                   (Seq (byte 239) (Seq (byte 187) (byte 191)))))))).

End Regex.

(** ** POST /api/exams/:examTitle/date-time *)

(** [/^(0?[1-9]|1[0-2]):[0-5][0-9]\s?(AM|PM)$/i] *)
Definition hour_pattern : Regex.t :=
  Regex.Alt (Regex.Seq (Regex.Opt (Regex.lit "0")) (Regex.range "1" "9"))
            (Regex.Seq (Regex.lit "1") (Regex.range "0" "2")).

Definition minute_pattern : Regex.t :=
  Regex.Seq (Regex.range "0" "5") (Regex.range "0" "9").

Definition meridiem_pattern : Regex.t :=
  Regex.Alt (Regex.Seq (Regex.lit_i "A" "a") (Regex.lit_i "M" "m"))
            (Regex.Seq (Regex.lit_i "P" "p") (Regex.lit_i "M" "m")).

Definition timeRegex : Regex.t :=
  Regex.Seq hour_pattern
    (Regex.Seq (Regex.lit ":")
       (Regex.Seq minute_pattern
          (Regex.Seq (Regex.Opt Regex.space) meridiem_pattern))).

(** The hour numerals the pattern admits. *)
Definition hour_numerals : list string :=
  ["1"; "2"; "3"; "4"; "5"; "6"; "7"; "8"; "9";
   "01"; "02"; "03"; "04"; "05"; "06"; "07"; "08"; "09"; "10"; "11"; "12"].

Definition meridiems : list string :=
  ["AM"; "Am"; "aM"; "am"; "PM"; "Pm"; "pM"; "pm"].

(** The body of the request, and what is written to both stores (each
    store adds its own server timestamp as [updatedAt]). *)
Module ExamDetails.
Record t : Type := mk {
  date : Value;
  startTime : Value;
  endTime : Value;
  marks : Value;
  price : Value
}.
End ExamDetails.

Inductive AdminEffect : Type :=
| RealtimeSet (node key : string) (data : ExamDetails.t)
| FirestoreMerge (collection id : string) (dateTime : ExamDetails.t).

(** Whether the Realtime Database accepts the write at
    [ExamDateTime/{examTitle}], and whether the document store is up. *)
Record AdminEnv : Type := mkAdminEnv {
  realtime_ok : string -> bool;
  firestore_ok : bool
}.

Inductive AdminBody : Type :=
| AdminError (error : string)
| AdminErrorDetails (error : string) (details : Error)
| ExamDetailsSaved (message : string) (examTitle : string) (data : ExamDetails.t).

Record AdminResponse : Type := mkAdminResponse {
  admin_status : Z;
  admin_body : AdminBody
}.

Definition date_time_missing (examTitle : string) (d : ExamDetails.t) : bool :=
  negb (truthy (VStr examTitle))
  || negb (truthy (ExamDetails.date d))
  || negb (truthy (ExamDetails.startTime d))
  || negb (truthy (ExamDetails.endTime d))
  || strict_eq (ExamDetails.marks d) VUndefined
  || strict_eq (ExamDetails.price d) VUndefined.

(** [timeRegex.test(v)], which tests the string form of [v]. *)
Definition is_12_hour_time (v : Value) : bool :=
  Regex.test timeRegex (JS.to_string v).

Definition save_exam_date_time (aenv : AdminEnv) (examTitle : string)
    (d : ExamDetails.t) : AdminResponse * list AdminEffect :=
  if date_time_missing examTitle d then
    ({| admin_status := 400;
        admin_body := AdminError
          "Missing required fields. Please provide date, startTime, endTime, marks, and price." |},
     [])
  else if negb (is_12_hour_time (ExamDetails.startTime d))
          || negb (is_12_hour_time (ExamDetails.endTime d)) then
    ({| admin_status := 400;
        admin_body := AdminError
          "Invalid time format. Please provide time in 12-hour format (e.g., 1:45 PM)." |},
     [])
  else if negb (realtime_ok aenv examTitle) then
    ({| admin_status := 500;
        admin_body := AdminErrorDetails "Failed to save exam details" Unavailable |},
     [])
  else
    let written := [RealtimeSet "ExamDateTime" examTitle d] in
    match doc (VStr examTitle) with
    | Throw e =>
        ({| admin_status := 500;
            admin_body := AdminErrorDetails "Failed to save exam details" e |},
         written)
    | Ret id =>
        if negb (firestore_ok aenv) then
          ({| admin_status := 500;
              admin_body := AdminErrorDetails "Failed to save exam details" Unavailable |},
           written)
        else
          ({| admin_status := 200;
              admin_body := ExamDetailsSaved "Exam details saved successfully" examTitle d |},
           (written ++ [FirestoreMerge "Exams" id d])%list)
    end.

(** ** The question bank of an exam *)

(** What [JSON.parse] returns. *)
Module Json.

#[warnings="-register-all"]
Inductive t : Type :=
| Prim (v : Value)
| Array (items : list t)
| Object (fields : list (string * t)).

Definition isArray (j : t) : bool :=
  match j with
  | Array _ => true
  | _ => false
  end.

(** [j.length], read only where [j] is an array. *)
Definition length (j : t) : Value :=
  match j with
  | Array items => VNum (Int (Z.of_nat (List.length items)))
  | Prim (VStr s) => VNum (Int (Z.of_nat (String.length s)))
  | _ => VUndefined
  end.

Definition items (j : t) : list t :=
  match j with
  | Array items => items
  | _ => []
  end.

End Json.

(** A document of [Exams/{examTitle}/Questions]. *)
Module QuestionDoc.
Record t : Type := mk {
  question : Value;
  options : list Json.t;
  correctAnswer : Number;
  order : Z;
  timestamp : Z;
  image : option string
}.
End QuestionDoc.

(** The uploaded file: its MIME type and [buffer.toString("base64")]. *)
Module Upload.
Record t : Type := mk {
  mimetype : string;
  base64 : string
}.
End Upload.

(** The multipart form of the add and update requests. *)
Module QuestionForm.
Record t : Type := mk {
  question : Value;
  options : Value;
  correctAnswer : Value;
  image : option Upload.t
}.
End QuestionForm.

(** [JSON.parse] ([None] when it throws), the identifier the store
    generates for the next added document, [new Date().getTime()],
    whether the store can be reached, and whether it accepts a document's
    fields. *)
Record QuestionEnv : Type := mkQuestionEnv {
  JSON_parse : string -> option Json.t;
  auto_id : string;
  getTime : Z;
  questions_up : bool;
  questions_accept : QuestionDoc.t -> bool
}.

Inductive QuestionBody : Type :=
| QuestionError (error : string)
| QuestionAdded (message questionId : string) (order : Z)
| QuestionMessage (message : string).

Record QuestionResponse : Type := mkQuestionResponse {
  question_status : Z;
  question_body : QuestionBody
}.

(** [parseInt(v, 10)]: with the radix given, a "0x" prefix is not
    hexadecimal. *)
Definition parseInt_10 (v : Value) : Number :=
  let s1 := trim_start (to_string v) in
  let '(negative, s2) :=
    match s1 with
    | String "-" r => (true, r)
    | String "+" r => (false, r)
    | _ => (false, s1)
    end in
  match read_digits 10 s2 None with
  | Some n => to_double negative n
  | None => NaN
  end.

Definition isNaN (n : Number) : bool :=
  match n with
  | NaN => true
  | Int _ | Infinity _ => false
  end.

Definition data_url (image : Upload.t) : string :=
  "data:" ++ Upload.mimetype image ++ ";base64," ++ Upload.base64 image.

Definition question_fields_missing (f : QuestionForm.t) : bool :=
  negb (truthy (QuestionForm.question f))
  || negb (truthy (QuestionForm.options f))
  || strict_eq (QuestionForm.correctAnswer f) VUndefined.

Definition invalid_options (parsedOptions : Json.t) (parsedCorrectAnswer : Number)
  : bool :=
  negb (Json.isArray parsedOptions)
  || negb (strict_eq (Json.length parsedOptions) (VNum (Int 4)))
  || isNaN parsedCorrectAnswer.

Definition internal_error : QuestionResponse :=
  {| question_status := 500; question_body := QuestionError "Internal server error" |}.

Definition missing_fields : QuestionResponse :=
  {| question_status := 400; question_body := QuestionError "Missing required fields" |}.

Definition invalid_fields : QuestionResponse :=
  {| question_status := 400;
     question_body := QuestionError "Invalid options or correct answer" |}.

(** POST /api/exams/:examTitle/questions, on the collection
    [Exams/{examTitle}/Questions].  The handler awaits the store twice:
    it reads the collection, to number the question by the count, and then
    adds the document.  [add_question_read] is the handler up to and
    including the read: the answer, when the request ends there, or the
    document to add. *)
Definition add_question_read (qenv : QuestionEnv) (examTitle : string)
    (f : QuestionForm.t) (col : gmap string QuestionDoc.t)
  : QuestionResponse + QuestionDoc.t :=
  if negb (truthy (VStr examTitle)) || question_fields_missing f then
    inl missing_fields
  else
    match JSON_parse qenv (to_string (QuestionForm.options f)) with
    | None => inl internal_error
    | Some parsedOptions =>
        let parsedCorrectAnswer := parseInt_10 (QuestionForm.correctAnswer f) in
        if invalid_options parsedOptions parsedCorrectAnswer then inl invalid_fields
        else
          match doc (VStr examTitle) with
          | Throw _ => inl internal_error
          | Ret _ =>
              if negb (questions_up qenv) then inl internal_error
              else
                let nextOrder := Z.of_nat (size col) + 1 in
                inr {| QuestionDoc.question := QuestionForm.question f;
                       QuestionDoc.options := Json.items parsedOptions;
                       QuestionDoc.correctAnswer := parsedCorrectAnswer;
                       QuestionDoc.order := nextOrder;
                       QuestionDoc.timestamp := getTime qenv;
                       QuestionDoc.image := data_url <$> QuestionForm.image f |}
          end
    end.

(** [await questionsCollection.add(questionData)] and the answer, on the
    collection as it is by then. *)
Definition add_question_add (qenv : QuestionEnv) (questionData : QuestionDoc.t)
    (col : gmap string QuestionDoc.t)
  : gmap string QuestionDoc.t * QuestionResponse :=
  if negb (questions_accept qenv questionData) then (col, internal_error)
  else
    match col !! auto_id qenv with
    | Some _ => (col, internal_error)
    | None =>
        (<[auto_id qenv := questionData]> col,
         {| question_status := 200;
            question_body :=
              QuestionAdded "Question added successfully"
                (auto_id qenv) (QuestionDoc.order questionData) |})
    end.

(** The request served with no other request between its read and its
    add. *)
Definition add_question (qenv : QuestionEnv) (examTitle : string)
    (f : QuestionForm.t) (col : gmap string QuestionDoc.t)
  : gmap string QuestionDoc.t * QuestionResponse :=
  match add_question_read qenv examTitle f col with
  | inl response => (col, response)
  | inr questionData => add_question_add qenv questionData col
  end.

(** PUT /api/exams/:examTitle/questions/:questionId: [update] replaces
    the fields it is given and keeps the others. *)
Definition update_question (qenv : QuestionEnv) (examTitle questionId : string)
    (f : QuestionForm.t) (col : gmap string QuestionDoc.t)
  : gmap string QuestionDoc.t * QuestionResponse :=
  if negb (truthy (VStr examTitle)) || negb (truthy (VStr questionId))
     || question_fields_missing f then
    (col, missing_fields)
  else
    match JSON_parse qenv (to_string (QuestionForm.options f)) with
    | None => (col, internal_error)
    | Some parsedOptions =>
        let parsedCorrectAnswer := parseInt_10 (QuestionForm.correctAnswer f) in
        if invalid_options parsedOptions parsedCorrectAnswer then (col, invalid_fields)
        else
          match doc (VStr examTitle), doc (VStr questionId) with
          | Ret _, Ret id =>
              if negb (questions_up qenv) then (col, internal_error)
              else
                match col !! id with
                | None => (col, internal_error)
                | Some stored =>
                    let updated :=
                      {| QuestionDoc.question := QuestionForm.question f;
                         QuestionDoc.options := Json.items parsedOptions;
                         QuestionDoc.correctAnswer := parsedCorrectAnswer;
                         QuestionDoc.order := QuestionDoc.order stored;
                         QuestionDoc.timestamp := QuestionDoc.timestamp stored;
                         QuestionDoc.image :=
                           match QuestionForm.image f with
                           | Some image => Some (data_url image)
                           | None => QuestionDoc.image stored
                           end |} in
                    if negb (questions_accept qenv updated) then (col, internal_error)
                    else
                      (<[id := updated]> col,
                       {| question_status := 200;
                          question_body := QuestionMessage "Question updated successfully" |})
                end
          | _, _ => (col, internal_error)
          end
    end.

(** DELETE /api/exams/:examTitle/questions/:questionId: deleting a
    document that does not exist succeeds. *)
Definition delete_question (qenv : QuestionEnv) (examTitle questionId : string)
    (col : gmap string QuestionDoc.t)
  : gmap string QuestionDoc.t * QuestionResponse :=
  match doc (VStr examTitle), doc (VStr questionId) with
  | Ret _, Ret id =>
      if negb (questions_up qenv) then (col, internal_error)
      else
        (delete id col,
         {| question_status := 200;
            question_body := QuestionMessage "Question deleted successfully" |})
  | _, _ => (col, internal_error)
  end.

(** The three requests on the questions of one exam, and a run of them
    served one after another, each with the environment it is served in. *)
Inductive QuestionRequest : Type :=
| AddQuestion (f : QuestionForm.t)
| UpdateQuestion (questionId : string) (f : QuestionForm.t)
| DeleteQuestion (questionId : string).

Definition serve_question (examTitle : string)
    (col : gmap string QuestionDoc.t) (r : QuestionEnv * QuestionRequest)
  : gmap string QuestionDoc.t * QuestionResponse :=
  match r.2 with
  | AddQuestion f => add_question r.1 examTitle f col
  | UpdateQuestion questionId f => update_question r.1 examTitle questionId f col
  | DeleteQuestion questionId => delete_question r.1 examTitle questionId col
  end.

Definition serve_questions (examTitle : string)
    (rs : list (QuestionEnv * QuestionRequest)) (col : gmap string QuestionDoc.t)
  : gmap string QuestionDoc.t :=
  fold_left (fun c r => (serve_question examTitle c r).1) rs col.

(** The same requests as the server runs them.  An add request gives up
    control at each of its two awaits, so steps of other requests can run
    between its read and its add; an update or a delete awaits the store
    once.  Between its two steps an add request holds the document it has
    built. *)
Inductive QuestionStep : Type :=
| AddRead (request : nat) (qenv : QuestionEnv) (f : QuestionForm.t)
| AddWrite (request : nat)
| Single (qenv : QuestionEnv) (r : QuestionRequest).

Record QuestionBank : Type := mkQuestionBank {
  stored : gmap string QuestionDoc.t;
  in_flight : gmap nat (QuestionEnv * QuestionDoc.t)
}.

Definition question_step (examTitle : string) (b : QuestionBank) (s : QuestionStep)
  : QuestionBank :=
  match s with
  | AddRead request qenv f =>
      match add_question_read qenv examTitle f (stored b) with
      | inl _ => b
      | inr questionData =>
          {| stored := stored b;
             in_flight := <[request := (qenv, questionData)]> (in_flight b) |}
      end
  | AddWrite request =>
      match in_flight b !! request with
      | None => b
      | Some (qenv, questionData) =>
          {| stored := (add_question_add qenv questionData (stored b)).1;
             in_flight := delete request (in_flight b) |}
      end
  | Single qenv r =>
      {| stored := (serve_question examTitle (stored b) (qenv, r)).1;
         in_flight := in_flight b |}
  end.

Definition question_steps (examTitle : string) (steps : list QuestionStep)
    (b : QuestionBank) : QuestionBank :=
  fold_left (question_step examTitle) steps b.

(** The steps of requests served one after another: each add's read is
    followed at once by its add. *)
Definition steps_of (request : nat) (r : QuestionEnv * QuestionRequest)
  : list QuestionStep :=
  match r.2 with
  | AddQuestion f => [AddRead request r.1 f; AddWrite request]
  | _ => [Single r.1 r.2]
  end.

Definition one_after_another (rs : list (QuestionEnv * QuestionRequest))
  : list QuestionStep :=
  concat (imap steps_of rs).

(** Two add requests that overlap: both read before either adds. *)
Definition overlapping (qenv1 qenv2 : QuestionEnv) (f1 f2 : QuestionForm.t)
  : list QuestionStep :=
  [AddRead 1 qenv1 f1; AddRead 2 qenv2 f2; AddWrite 1; AddWrite 2].

Definition is_delete (r : QuestionRequest) : bool :=
  match r with
  | DeleteQuestion _ => true
  | _ => false
  end.

(** The [order] fields of a collection's documents. *)
Definition orders (col : gmap string QuestionDoc.t) : list Z :=
  QuestionDoc.order <$> (map_to_list col).*2.

(** The numbers 1 .. n. *)
Definition numbering (n : nat) : list Z := Z.of_nat <$> seq 1 n.

(** What a question written by the add or the update path looks like. *)
Definition written_question (q : QuestionDoc.t) : Prop :=
  truthy (QuestionDoc.question q) = true
  /\ length (QuestionDoc.options q) = 4%nat
  /\ QuestionDoc.correctAnswer q <> NaN.

(** ** Registration check and exam start *)

(** A document of [candidates] as the registration check reads it: its
    fields by name; [d[name]] is [undefined] for a field it has not. *)
Abbreviation Fields := (gmap string Value).

Definition field (d : Fields) (name : string) : Value :=
  default VUndefined (d !! name).

(** What the registration check reads from outside: the store, the time
    value of [new Date()], and the time value of [new Date(v)], NaN for an
    invalid date. *)
Record DateEnv : Type := mkDateEnv {
  date_env : Env;
  currentDate : Z;
  new_Date : Value -> Number
}.

(** [a > b] on two dates: false when [a] is an invalid date. *)
Definition later_than (a : Number) (b : Z) : bool :=
  match a with
  | Int t => b <? t
  | NaN => false
  | Infinity negative => negb negative
  end.

Definition requiredFields : list string :=
  ["candidateName"; "district"; "dob"; "exam"; "examDate"; "examStartTime";
   "examEndTime"; "gender"; "phone"].

(** [l.join(", ")]. *)
Fixpoint join (l : list string) : string :=
  match l with
  | [] => ""
  | [x] => x
  | x :: r => x ++ ", " ++ join r
  end.

Inductive RegistrationBody : Type :=
| Refused (error : string)
| RefusedUsed (error : string) (used : bool)
| Valid (examName candidateName district examDate examStartTime examEndTime : Value)
    (used : bool).

Record RegistrationResponse : Type := mkRegistrationResponse {
  registration_status : Z;
  registration_body : RegistrationBody
}.

(** POST /api/validate-registration *)
Definition validate_registration (denv : DateEnv) (registrationNumber : Value)
    (candidates : gmap string Fields) : RegistrationResponse :=
  let failed :=
    {| registration_status := 500;
       registration_body := Refused "Failed to validate registration" |} in
  match doc registrationNumber with
  | Throw _ => failed
  | Ret id =>
      if negb (firestore_up (date_env denv)) then failed
      else
        match candidates !! id with
        | None =>
            {| registration_status := 404;
               registration_body := Refused "Invalid registration number" |}
        | Some candidateData =>
            let examDate := new_Date denv (field candidateData "examDate") in
            if later_than examDate (currentDate denv) then
              {| registration_status := 400;
                 registration_body := Refused
                   "This registration number is for an upcoming exam and cannot be used yet" |}
            else if truthy (field candidateData "used") then
              {| registration_status := 400;
                 registration_body := RefusedUsed
                   "This registration number has already been used" true |}
            else
              let missingFields :=
                List.filter (fun name => negb (truthy (field candidateData name)))
                  requiredFields in
              if (0 <? length missingFields)%nat then
                {| registration_status := 400;
                   registration_body := Refused
                     ("Missing required fields: " ++ join missingFields) |}
              else
                {| registration_status := 200;
                   registration_body :=
                     Valid (field candidateData "exam")
                       (field candidateData "candidateName")
                       (field candidateData "district")
                       (field candidateData "examDate")
                       (field candidateData "examStartTime")
                       (field candidateData "examEndTime")
                       false |}
        end
  end.

(** POST /api/start-exam: an [update], which needs the document. *)
Definition start_exam (env : Env) (registrationNumber : Value)
    (candidates : gmap string Fields) : gmap string Fields * Response :=
  let failed := {| status := 500; body := Failure "Failed to start exam" |} in
  match doc registrationNumber with
  | Throw _ => (candidates, failed)
  | Ret id =>
      if negb (firestore_up env) then (candidates, failed)
      else
        match candidates !! id with
        | None => (candidates, failed)
        | Some candidateData =>
            (<[id := <["examStartTime" := VStr (clock env 0)]>
                       (<["used" := VBool true]> candidateData)]> candidates,
             {| status := 200; body := Success "Exam started successfully" |})
        end
  end.

(** ** POST /api/exam-questions *)

Definition by_order (a b : string * QuestionDoc.t) : Prop :=
  QuestionDoc.order a.2 <= QuestionDoc.order b.2.

(** [questions.sort((a, b) => a.order - b.order)], a stable sort. *)
Fixpoint insert_by_order (x : string * QuestionDoc.t)
    (l : list (string * QuestionDoc.t)) : list (string * QuestionDoc.t) :=
  match l with
  | [] => [x]
  | y :: r =>
      if QuestionDoc.order x.2 <=? QuestionDoc.order y.2 then x :: l
      else y :: insert_by_order x r
  end.

Definition sort_by_order (l : list (string * QuestionDoc.t))
  : list (string * QuestionDoc.t) :=
  foldr insert_by_order [] l.

(** The JSON sent back: [examDetails] is the data of the exam document,
    each element of [questions] a question's id with its stored fields. *)
Inductive QuestionsBody (ExamData : Type) : Type :=
| QuestionsFailure (error : string)
| QuestionsData (examDetails : ExamData) (questions : list (string * QuestionDoc.t)).

Arguments QuestionsFailure {ExamData} error.
Arguments QuestionsData {ExamData} examDetails questions.

Record QuestionsResponse (ExamData : Type) : Type := mkQuestionsResponse {
  questions_status : Z;
  questions_body : QuestionsBody ExamData
}.

Arguments mkQuestionsResponse {ExamData} _ _.
Arguments questions_status {ExamData} _.
Arguments questions_body {ExamData} _.

(** [Exams] is the collection of exam documents, [Questions] the
    sub-collection [Exams/{examName}/Questions]. *)
Definition exam_questions {ExamData : Type} (env : Env) (examName : Value)
    (Exams : gmap string ExamData) (Questions : gmap string QuestionDoc.t)
  : QuestionsResponse ExamData :=
  let failed :=
    mkQuestionsResponse 500 (QuestionsFailure "Failed to fetch exam questions") in
  match doc examName with
  | Throw _ => failed
  | Ret id =>
      if negb (firestore_up env) then failed
      else
        match Exams !! id with
        | None => mkQuestionsResponse 404 (QuestionsFailure "Exam not found")
        | Some examData =>
            let questions := sort_by_order (docs Questions) in
            mkQuestionsResponse 200 (QuestionsData examData questions)
        end
  end.

(** A registered candidate whose exam is not in the future. *)
Module Registered.

Definition candidateData : Fields :=
  list_to_map
    [("candidateName", VStr "Asha"); ("district", VStr "Dharwad");
     ("dob", VStr "2001-05-17"); ("exam", VStr "Math101");
     ("examDate", VStr "2025-03-01"); ("examStartTime", VStr "9:00 AM");
     ("examEndTime", VStr "10:00 AM"); ("gender", VStr "F");
     ("phone", VStr "9000000000"); ("used", VBool false)].

Definition candidates : gmap string Fields := {[ "REG1" := candidateData ]}.

Definition denv : DateEnv :=
  {| date_env := Sample.env;
     currentDate := 1740819600000;
     new_Date := fun v =>
       if strict_eq v (VStr "2025-03-01") then Int 1740787200000 else NaN |}.

End Registered.

(** A small question bank: an environment in which the store is up and
    generates the identifier [id], a form, and the bank after three
    questions have been added. *)
Module Bank.

Definition four : Json.t :=
  Json.Array [Json.Prim (VNum (Int 3)); Json.Prim (VNum (Int 4));
              Json.Prim (VNum (Int 5)); Json.Prim (VNum (Int 22))].

Definition parse (s : string) : option Json.t :=
  if String.eqb s "[3,4,5,22]" then Some four else None.

Definition qenv (id : string) : QuestionEnv :=
  {| JSON_parse := parse;
     auto_id := id;
     getTime := 1700000000000;
     questions_up := true;
     questions_accept := fun _ => true |}.

Definition form (correctAnswer : string) : QuestionForm.t :=
  {| QuestionForm.question := VStr "2 + 2 = ?";
     QuestionForm.options := VStr "[3,4,5,22]";
     QuestionForm.correctAnswer := VStr correctAnswer;
     QuestionForm.image := None |}.

Definition three : gmap string QuestionDoc.t :=
  serve_questions "Math"
    [(qenv "q1", AddQuestion (form "1"));
     (qenv "q2", AddQuestion (form "1"));
     (qenv "q3", AddQuestion (form "1"))] ∅.

Definition third : QuestionDoc.t :=
  {| QuestionDoc.question := VStr "2 + 2 = ?";
     QuestionDoc.options := Json.items four;
     QuestionDoc.correctAnswer := Int 1;
     QuestionDoc.order := 3;
     QuestionDoc.timestamp := 1700000000000;
     QuestionDoc.image := None |}.

End Bank.

(** * Properties *)

Lemma find_head_filter {A} (p : A -> bool) (l : list A) :
  List.find p l = head (List.filter p l).
Proof.
  induction l as [|x l IH]; [reflexivity|].
  simpl. destruct (p x); [reflexivity|exact IH].
Qed.

Section Scoring.

Variable answers : list Answer.t.

Lemma score_question_counts acc q :
  score_question answers acc q =
    (acc.1 + (if counts_as_correct answers q then 1 else 0),
     acc.2 + (if counts_as_skipped answers q then 1 else 0)).
Proof.
  destruct acc as [c s]. unfold score_question, counts_as_correct, counts_as_skipped.
  unfold candidateAnswer. rewrite find_head_filter. fold (same_order q).
  destruct (List.filter (same_order q) answers) as [|a ?]; simpl; [f_equal; lia|].
  destruct (truthy (Answer.skipped a)); simpl; [f_equal; lia|].
  destruct (strict_eq _ _); f_equal; lia.
Qed.

Lemma fold_score_counts questions acc :
  fold_left (score_question answers) questions acc =
    (acc.1 + count (counts_as_correct answers) questions,
     acc.2 + count (counts_as_skipped answers) questions).
Proof.
  revert acc. induction questions as [|q qs IH]; intros acc.
  - destruct acc; unfold count; simpl. f_equal; lia.
  - cbn [fold_left]. rewrite IH, score_question_counts. unfold count. cbn [List.filter fst snd].
    destruct (counts_as_correct answers q), (counts_as_skipped answers q);
      cbn [length]; f_equal; lia.
Qed.

Lemma tally_counts questions :
  tally questions answers =
    (count (counts_as_correct answers) questions,
     count (counts_as_skipped answers) questions).
Proof. unfold tally. rewrite fold_score_counts. reflexivity. Qed.

Lemma correct_not_skipped q :
  counts_as_correct answers q = true -> counts_as_skipped answers q = false.
Proof.
  unfold counts_as_correct, counts_as_skipped.
  destruct (List.filter (same_order q) answers) as [|a ?]; [discriminate|].
  destruct (truthy (Answer.skipped a)); [discriminate|reflexivity].
Qed.

Lemma correct_plus_skipped_le questions :
  count (counts_as_correct answers) questions
  + count (counts_as_skipped answers) questions <= Z.of_nat (length questions).
Proof.
  unfold count. induction questions as [|q qs IH]; [simpl; lia|].
  cbn [List.filter length].
  pose proof (correct_not_skipped q) as Hq.
  destruct (counts_as_correct answers q).
  - rewrite Hq by reflexivity. cbn [length]. lia.
  - destruct (counts_as_skipped answers q); cbn [length]; lia.
Qed.

End Scoring.

Lemma count_skipped_nil (questions : list Question.t) :
  count (counts_as_skipped []) questions = Z.of_nat (length questions).
Proof.
  unfold count. f_equal.
  induction questions as [|q qs IH]; [reflexivity|]. simpl. f_equal. exact IH.
Qed.

Lemma count_correct_nil (questions : list Question.t) :
  count (counts_as_correct []) questions = 0.
Proof.
  unfold count. induction questions as [|q qs IH]; [reflexivity|exact IH].
Qed.

(** C1. For every question set and every list of stored answers of a
    candidate, the scoring loop reports [totalQuestions] = number of
    questions, [skippedQuestions] = number of questions with no stored
    answer of the same order value or whose matching answer is marked
    skipped, [correctAnswers] = number of questions whose matching,
    non-skipped answer equals the question's correct-answer index, and
    [wrongAnswers] = total - correct - skipped; hence correct + skipped +
    wrong = total, with wrong never negative; and with no stored answer at
    all skipped = total, correct = 0 and wrong = 0.  (The loop tests
    [skipped] for truthiness, which on a boolean field is [skipped = true].) *)
Theorem scoring_counts (candidateId : string) (candidateData : Candidate.t)
    (examQuestions : list Question.t) (answers : list Answer.t) :
  let r := resultData candidateId candidateData examQuestions answers in
  let r0 := resultData candidateId candidateData examQuestions [] in
  Result.totalQuestions r = Z.of_nat (length examQuestions)
  /\ Result.skippedQuestions r = count (counts_as_skipped answers) examQuestions
  /\ Result.correctAnswers r = count (counts_as_correct answers) examQuestions
  /\ Result.wrongAnswers r
     = Result.totalQuestions r - Result.correctAnswers r - Result.skippedQuestions r
  /\ Result.correctAnswers r + Result.skippedQuestions r + Result.wrongAnswers r
     = Result.totalQuestions r
  /\ 0 <= Result.wrongAnswers r
  /\ (Result.skippedQuestions r0 = Result.totalQuestions r0
      /\ Result.correctAnswers r0 = 0
      /\ Result.wrongAnswers r0 = 0).
Proof.
  unfold resultData. rewrite !tally_counts. cbn zeta. cbn [Result.totalQuestions
    Result.skippedQuestions Result.correctAnswers Result.wrongAnswers].
  pose proof (correct_plus_skipped_le answers examQuestions) as Hle.
  rewrite count_skipped_nil, count_correct_nil. repeat split; lia.
Qed.

Section Stale.

Variable questions : list Question.t.

Lemma filter_interleave {A} (p : A -> bool) (l extra merged : list A) :
  Interleave l extra merged ->
  forallb (fun x => negb (p x)) extra = true ->
  List.filter p merged = List.filter p l.
Proof.
  induction 1 as [|x l extra merged _ IH|x l extra merged _ IH]; intros Hex.
  - reflexivity.
  - simpl. rewrite (IH Hex). reflexivity.
  - simpl in Hex. apply andb_prop in Hex as [Hx Hex].
    simpl. apply negb_true_iff in Hx. rewrite Hx. exact (IH Hex).
Qed.

Lemma stale_not_same_order (extra : list Answer.t) (q : Question.t) :
  forallb (is_stale questions) extra = true ->
  In q questions ->
  forallb (fun a => negb (same_order q a)) extra = true.
Proof.
  intros Hst Hq. apply forallb_forall. intros a Ha.
  rewrite forallb_forall in Hst. specialize (Hst a Ha).
  unfold is_stale in Hst. rewrite forallb_forall in Hst. exact (Hst q Hq).
Qed.

Lemma score_question_stale answers extra merged acc q :
  Interleave answers extra merged ->
  forallb (is_stale questions) extra = true ->
  In q questions ->
  score_question merged acc q = score_question answers acc q.
Proof.
  intros Hi Hst Hq.
  rewrite !score_question_counts.
  unfold counts_as_correct, counts_as_skipped.
  rewrite (filter_interleave (same_order q) _ _ _ Hi (stale_not_same_order _ _ Hst Hq)).
  reflexivity.
Qed.

End Stale.

Lemma fold_left_ext_in {A B} (f g : A -> B -> A) (l : list B) (a : A) :
  (forall x b, In b l -> f x b = g x b) ->
  fold_left f l a = fold_left g l a.
Proof.
  revert a. induction l as [|b l IH]; intros a H; [reflexivity|].
  simpl. rewrite (H a b) by (left; reflexivity).
  apply IH. intros x b' Hb'. apply H. right. exact Hb'.
Qed.

(** C8. Stored answers whose order value matches no question's order
    (stale data of a deleted question), added anywhere among a candidate's
    stored answers, leave the computed result unchanged: the loop runs over
    the questions and only looks answers up.  The scoring function is total,
    so it cannot fail on them. *)
Theorem stale_answers_ignored (candidateId : string) (candidateData : Candidate.t)
    (examQuestions : list Question.t) (answers extra merged : list Answer.t) :
  forallb (is_stale examQuestions) extra = true ->
  Interleave answers extra merged ->
  resultData candidateId candidateData examQuestions merged
  = resultData candidateId candidateData examQuestions answers.
Proof.
  intros Hst Hi. unfold resultData, tally.
  rewrite (fold_left_ext_in (score_question merged) (score_question answers)).
  - reflexivity.
  - intros acc q Hq. exact (score_question_stale examQuestions _ _ _ acc q Hi Hst Hq).
Qed.

(** ** The store contract *)

Lemma bind_Ret {A B} (m : Exn A) (f : A -> Exn B) (b : B) :
  (m ≫= f) = Ret b -> exists a, m = Ret a /\ f a = Ret b.
Proof. destruct m as [a|e]; [eauto|discriminate]. Qed.

Lemma doc_Ret (v : Value) (s : string) :
  doc v = Ret s -> v = VStr s /\ s <> "" /\ has_slash s = false.
Proof.
  destruct v as [| |b|n|s0]; try discriminate. simpl.
  destruct (String.eqb s0 "") eqn:He; [discriminate|].
  destruct (has_slash s0) eqn:Hs; [discriminate|].
  intros [= <-]. apply String.eqb_neq in He. auto.
Qed.

Lemma doc_valid (s : string) :
  s <> "" -> has_slash s = false -> doc (VStr s) = Ret s.
Proof.
  intros Hne Hs. simpl. apply String.eqb_neq in Hne. rewrite Hne, Hs. reflexivity.
Qed.

Lemma Store_eq (a b : Store) : documents a = documents b -> a = b.
Proof. destruct a, b. simpl. intros ->. reflexivity. Qed.

(** *** Document paths *)

Lemma split_no_slash (s : string) :
  has_slash s = false -> Firestore.split s = [s].
Proof.
  unfold has_slash. induction s as [|c s IH]; [reflexivity|].
  cbn [list_ascii_of_string existsb Firestore.split]. intros H.
  apply orb_false_iff in H as [Hc Hs]. rewrite Hc, (IH Hs). reflexivity.
Qed.

Lemma segments_single (s : string) :
  s <> "" -> has_slash s = false -> Firestore.segments s = [s].
Proof.
  intros Hne Hs. unfold Firestore.segments. rewrite (split_no_slash s Hs).
  cbn [List.filter]. apply String.eqb_neq in Hne. rewrite Hne. reflexivity.
Qed.

Lemma double_slash_no_slash (s : string) :
  has_slash s = false -> Firestore.double_slash s = false.
Proof.
  unfold has_slash. induction s as [|a s IH]; [reflexivity|].
  cbn [list_ascii_of_string existsb]. intros H.
  apply orb_false_iff in H as [Ha Hs]. cbn [Firestore.double_slash].
  destruct s as [|b s']; [reflexivity|]. rewrite Ha, (IH Hs). reflexivity.
Qed.

Lemma Firestore_doc_Ret (collection : Path) (id : Value) (ref : Path) :
  Firestore.doc collection id = Ret ref ->
  exists s, id = VStr s /\ s <> ""
            /\ ref = (collection ++ Firestore.segments s)%list
            /\ Nat.even (length ref) = true.
Proof.
  destruct id as [| |b|n|s]; try discriminate. cbn [Firestore.doc].
  destruct (String.eqb s "") eqn:He; [discriminate|].
  destruct (Firestore.double_slash s); [discriminate|]. cbn [orb]. cbv zeta.
  destruct (Nat.even _) eqn:Hev; [|discriminate].
  intros [= <-]. exists s. apply String.eqb_neq in He. auto.
Qed.

Lemma Firestore_doc_single (collection : Path) (s : string) :
  s <> "" -> has_slash s = false ->
  Nat.even (length collection) = false ->
  Firestore.doc collection (VStr s) = Ret (collection ++ [s])%list.
Proof.
  intros Hne Hs Hodd. cbn [Firestore.doc].
  apply String.eqb_neq in Hne as He. rewrite He, (double_slash_no_slash s Hs).
  cbn [orb]. cbv zeta. rewrite (segments_single s Hne Hs).
  rewrite length_app. cbn [length].
  replace (length collection + 1)%nat with (S (length collection)) by lia.
  rewrite Nat.even_succ, <- Nat.negb_even, Hodd. reflexivity.
Qed.

Lemma valid_id_parts (v : Value) :
  valid_id v = true -> exists s, v = VStr s /\ s <> "" /\ has_slash s = false.
Proof.
  destruct v as [| |b|n|s]; try discriminate. cbn [valid_id]. intros H.
  apply andb_prop in H as [He Hs]. apply negb_true_iff in He, Hs.
  apply String.eqb_neq in He. eauto.
Qed.

Lemma candidateDocRef_single (s : string) :
  s <> "" -> has_slash s = false -> candidateDocRef (VStr s) = Ret ["candidates"; s].
Proof. intros Hne Hs. exact (Firestore_doc_single ["candidates"] s Hne Hs eq_refl). Qed.

Lemma candidateDocRef_even (id : Value) (c : Path) :
  candidateDocRef id = Ret c -> Nat.even (length c) = true.
Proof. intros H. apply Firestore_doc_Ret in H as (s & _ & _ & _ & H). exact H. Qed.

Lemma answerDocRef_of_single (c : Path) (q : string) :
  Nat.even (length c) = true -> q <> "" -> has_slash q = false ->
  answerDocRef_of c q = Ret (c ++ ["answers"; q])%list.
Proof.
  intros Hc Hne Hs. unfold answerDocRef_of, Firestore.collection.
  rewrite (Firestore_doc_single _ q Hne Hs).
  - rewrite <- app_assoc. reflexivity.
  - rewrite length_app. cbn [length].
    replace (length c + 1)%nat with (S (length c)) by lia.
    rewrite Nat.even_succ, <- Nat.negb_even, Hc. reflexivity.
Qed.

Lemma answerDocRef_of_longer (c : Path) (q : string) (ref : Path) :
  answerDocRef_of c q = Ret ref -> (length c < length ref)%nat.
Proof.
  unfold answerDocRef_of. intros H.
  apply Firestore_doc_Ret in H as (s & _ & _ & -> & _).
  unfold Firestore.collection. rewrite !length_app. cbn [length]. lia.
Qed.

Lemma answerDocRef_Ret (reg qid : Value) (ref : Path) :
  answerDocRef reg qid = Ret ref ->
  exists raw c,
    qid = VStr raw /\ candidateDocRef reg = Ret c
    /\ answerDocRef_of c (formatQuestionId raw) = Ret ref.
Proof.
  unfold answerDocRef. intros H.
  apply bind_Ret in H as (q & Hq & H). apply bind_Ret in H as (c & Hc & H).
  destruct qid as [| | | |raw]; try discriminate. injection Hq as <-. eauto.
Qed.

(** *** The collections *)

Lemma candidate_key_path (p : Path) (c : string) :
  candidate_key p = Some c <-> p = ["candidates"; c].
Proof.
  split.
  - destruct p as [|root [|c' [|x p]]]; try discriminate. cbn [candidate_key].
    destruct (String.eqb root "candidates") eqn:He; [|discriminate].
    apply String.eqb_eq in He. intros [= ->]. subst root. reflexivity.
  - intros ->. reflexivity.
Qed.

Lemma answer_key_path (p : Path) (k : string * string) :
  answer_key p = Some k <-> p = ["candidates"; k.1; "answers"; k.2].
Proof.
  split.
  - destruct p as [|root [|c [|sub [|q [|x p]]]]]; try discriminate.
    cbn [answer_key].
    destruct (String.eqb root "candidates") eqn:H1; [|discriminate].
    destruct (String.eqb sub "answers") eqn:H2; [|discriminate].
    apply String.eqb_eq in H1, H2. intros [= <-]. subst. reflexivity.
  - intros ->. destruct k. reflexivity.
Qed.

Section View.
Context {K V : Type} `{Countable K}.
Variables (key : Path -> option K) (path : K -> Path) (field : Document.t -> V).
Hypothesis key_path : forall p k, key p = Some k <-> p = path k.

Let entry (kv : Path * Document.t) : option (K * V) :=
  k ← key kv.1; Some (k, field kv.2).

Lemma entry_Some kv k v :
  entry kv = Some (k, v) <-> kv.1 = path k /\ v = field kv.2.
Proof.
  unfold entry. destruct (key kv.1) as [k'|] eqn:Hk; cbn.
  - split.
    + intros [= <- <-]. apply key_path in Hk. auto.
    + intros [Hp ->].
      assert (key kv.1 = Some k) as Hk' by (apply key_path; exact Hp). congruence.
  - split; [discriminate|]. intros [Hp _]. exfalso.
    assert (key kv.1 = Some k) as Hk' by (apply key_path; exact Hp). congruence.
Qed.

Lemma NoDup_entries (l : list (Path * Document.t)) :
  NoDup l.*1 -> NoDup (omap entry l).*1.
Proof.
  induction l as [|kv l IH]; [constructor|]. rewrite fmap_cons. intros Hnd.
  apply NoDup_cons in Hnd as [Hkv Hnd]. cbn [omap list_omap].
  destruct (entry kv) as [[k v]|] eqn:He; [|exact (IH Hnd)].
  rewrite fmap_cons. apply NoDup_cons. split; [|exact (IH Hnd)].
  cbn [fst]. intros Hin. apply list_elem_of_fmap in Hin as ([k' v'] & Hk & Hin).
  cbn [fst] in Hk. subst k'. apply list_elem_of_omap in Hin as (kv' & Hin & He').
  apply entry_Some in He as [Hp _]. apply entry_Some in He' as [Hp' _].
  apply Hkv. apply list_elem_of_fmap. exists kv'. split; [congruence|exact Hin].
Qed.

Lemma collection_view_lookup (m : gmap Path Document.t) (k : K) :
  collection_view key field m !! k = field <$> m !! path k.
Proof.
  unfold collection_view. fold entry.
  pose proof (NoDup_entries (map_to_list m) (NoDup_fst_map_to_list m)) as Hnd.
  destruct (m !! path k) as [d|] eqn:Hm; cbn [fmap option_fmap option_map].
  - apply elem_of_list_to_map_1; [exact Hnd|].
    apply list_elem_of_omap. exists (path k, d). split.
    + apply elem_of_map_to_list. exact Hm.
    + apply entry_Some. auto.
  - apply not_elem_of_list_to_map_1. intros Hin.
    apply list_elem_of_fmap in Hin as ([k' v] & Hk & Hin). cbn [fst] in Hk. subst k'.
    apply list_elem_of_omap in Hin as ([p d] & Hin & He).
    apply entry_Some in He as [Hp _]. cbn [fst] in Hp. subst p.
    apply elem_of_map_to_list in Hin. congruence.
Qed.

End View.

Lemma candidates_lookup (st : Store) (c : string) :
  candidates st !! c = Document.candidate <$> documents st !! ["candidates"; c].
Proof.
  exact (collection_view_lookup candidate_key (fun c => ["candidates"; c])
           Document.candidate candidate_key_path (documents st) c).
Qed.

Lemma answers_lookup (st : Store) (c q : string) :
  answers st !! (c, q)
  = Document.answer <$> documents st !! ["candidates"; c; "answers"; q].
Proof.
  exact (collection_view_lookup answer_key
           (fun k => ["candidates"; k.1; "answers"; k.2])
           Document.answer answer_key_path (documents st) (c, q)).
Qed.

(** *** Writes *)

Lemma batch_set_Ret ref d w :
  batch_set ref d = Ret w -> w = SetAnswer ref d /\ valid_data d = true.
Proof.
  unfold batch_set. destruct (valid_data d); [|discriminate]. intros [= <-]. auto.
Qed.

Lemma commit_Ret env st ws st' :
  commit env st ws = Ret st' ->
  firestore_up env = true
  /\ forallb (precondition st) ws = true
  /\ st' = fold_left apply_write ws st.
Proof.
  unfold commit. destruct (firestore_up env); [|discriminate]. simpl.
  destruct (forallb (precondition st) ws); [|discriminate].
  intros [= <-]. auto.
Qed.

Lemma lookup_set st ref d p :
  documents (apply_write st (SetAnswer ref d)) !! p
  = if decide (ref = p) then Some (answer_doc d) else documents st !! p.
Proof.
  cbn [apply_write documents]. destruct (decide (ref = p)) as [->|Hne].
  - apply lookup_insert_eq.
  - apply lookup_insert_ne. exact Hne.
Qed.

Lemma lookup_update st ref s t p :
  documents (apply_write st (UpdateCandidate ref s t)) !! p
  = if decide (ref = p) then mark s t <$> documents st !! p else documents st !! p.
Proof.
  cbn [apply_write documents]. destruct (decide (ref = p)) as [->|Hne].
  - apply lookup_alter_eq.
  - apply lookup_alter_ne. exact Hne.
Qed.

(** After a batch of [set]s a document is the last record the batch sets
    there, or what it was. *)
Lemma fold_sets_lookup ws st p :
  forallb is_set ws = true ->
  documents (fold_left apply_write ws st) !! p
  = match last_set ws p with
    | Some d => Some (answer_doc d)
    | None => documents st !! p
    end.
Proof.
  revert st. induction ws as [|w ws IH]; intros st Hs; [reflexivity|].
  cbn [forallb] in Hs. apply andb_prop in Hs as [Hw Hs].
  cbn [fold_left last_set]. rewrite (IH _ Hs).
  destruct (last_set ws p) as [d|]; [reflexivity|].
  destruct w as [c s t|ref d]; [discriminate|].
  rewrite lookup_set. destruct (decide (ref = p)) as [->|Hne].
  - rewrite bool_decide_eq_true_2 by reflexivity. reflexivity.
  - rewrite bool_decide_eq_false_2 by exact Hne. reflexivity.
Qed.

Lemma last_set_Some ws p d : last_set ws p = Some d -> In (SetAnswer p d) ws.
Proof.
  induction ws as [|w ws IH]; [discriminate|]. cbn [last_set].
  destruct (last_set ws p) as [d'|].
  - intros [= <-]. right. apply IH. reflexivity.
  - destruct w as [c s t|ref d']; [discriminate|]. case_bool_decide; [|discriminate].
    intros [= <-]. subst ref. left. reflexivity.
Qed.

Lemma last_set_None ws p d : last_set ws p = None -> ~ In (SetAnswer p d) ws.
Proof.
  induction ws as [|w ws IH]; [intros _ []|]. cbn [last_set].
  destruct (last_set ws p) as [d'|]; [discriminate|].
  destruct w as [c s t|ref d'].
  - intros _ [Hin|Hin]; [discriminate|]. exact (IH eq_refl Hin).
  - case_bool_decide as Hr; [discriminate|].
    intros _ [Hin|Hin]; [injection Hin as -> _; contradiction|].
    exact (IH eq_refl Hin).
Qed.

Lemma last_set_In ws p d : In (SetAnswer p d) ws -> is_Some (last_set ws p).
Proof.
  intros Hin. destruct (last_set ws p) as [d'|] eqn:Hl; [eauto|].
  destruct (last_set_None ws p d Hl Hin).
Qed.

(** ** [forEach] *)

Lemma forEach_Ret {A B} (f : nat -> A -> Exn B) (l : list A) (i : nat) (bs : list B) :
  forEach f i l = Ret bs ->
  Forall2 (fun x b => exists j, f j x = Ret b) l bs.
Proof.
  revert i bs. induction l as [|x l IH]; intros i bs H.
  - injection H as <-. constructor.
  - simpl in H. apply bind_Ret in H as (b & Hb & H).
    apply bind_Ret in H as (bs' & Hbs & H). injection H as <-.
    constructor; [eauto|]. exact (IH _ _ Hbs).
Qed.

Lemma forEach_total {A B} (f : nat -> A -> Exn B) (l : list A) (i : nat) :
  (forall j x, In x l -> exists b, f j x = Ret b) ->
  exists bs, forEach f i l = Ret bs.
Proof.
  revert i. induction l as [|x l IH]; intros i H; [eexists; reflexivity|].
  destruct (H i x) as (b & Hb); [left; reflexivity|].
  destruct (IH (S i)) as (bs & Hbs); [intros j y Hy; apply H; right; exact Hy|].
  exists (b :: bs). simpl. rewrite Hb. simpl. rewrite Hbs. reflexivity.
Qed.

Lemma Forall2_In_l {A B} (R : A -> B -> Prop) (l : list A) (k : list B) (x : A) :
  Forall2 R l k -> In x l -> exists y, In y k /\ R x y.
Proof.
  induction 1 as [|a b l k Hab _ IH]; intros Hin; [destruct Hin|].
  destruct Hin as [<-|Hin].
  - exists b. split; [left; reflexivity|exact Hab].
  - destruct (IH Hin) as (y & Hy & HR). exists y. split; [right; exact Hy|exact HR].
Qed.

Lemma Forall2_In_r {A B} (R : A -> B -> Prop) (l : list A) (k : list B) (y : B) :
  Forall2 R l k -> In y k -> exists x, In x l /\ R x y.
Proof.
  induction 1 as [|a b l k Hab _ IH]; intros Hin; [destruct Hin|].
  destruct Hin as [<-|Hin].
  - exists a. split; [left; reflexivity|exact Hab].
  - destruct (IH Hin) as (x & Hx & HR). exists x. split; [right; exact Hx|exact HR].
Qed.

(** ** The shape of the writes of each route *)

Lemma individual_write_built env j t w :
  individual_write env j t = Ret w -> built_for env (SaveAnswer t) t w.
Proof.
  unfold individual_write. intros H. apply bind_Ret in H as (ref & Href & H).
  apply batch_set_Ret in H as (-> & _). exists j, ref. auto.
Qed.

Lemma bulk_write_built env a j t w :
  bulk_write env j t = Ret w -> built_for env (SaveAllAnswers a) t w.
Proof.
  unfold bulk_write. intros H. apply bind_Ret in H as (ref & Href & H).
  apply batch_set_Ret in H as (-> & _). exists j, ref. auto.
Qed.

Lemma timeout_write_built env a j t w :
  timeout_write env j t = Ret w -> built_for env (TimeoutSaveAnswers a) t w.
Proof.
  unfold timeout_write. intros H. apply bind_Ret in H as (ref & Href & H).
  apply batch_set_Ret in H as (-> & _). exists j, ref. auto.
Qed.

Lemma completion_ref req c t q ref :
  candidateDocRef (CompleteExam.candidateId req) = Ret c ->
  formattedQuestionId (Tuple.questionId t) = Ret q ->
  answerDocRef_of c q = Ret ref ->
  answer_ref (CompleteExamReq req) t = Ret ref.
Proof.
  intros Hc Hq Href. unfold answer_ref, answerDocRef. cbn [registration_of].
  rewrite Hq. cbn [mbind Exn_bind]. rewrite Hc. exact Href.
Qed.

Lemma completion_write_built env req c j t w :
  candidateDocRef (CompleteExam.candidateId req) = Ret c ->
  completion_write env c (CompleteExam.examName req) j t = Ret w ->
  built_for env (CompleteExamReq req) t w.
Proof.
  unfold completion_write. intros Hc H.
  apply bind_Ret in H as (q & Hq & H). apply bind_Ret in H as (ref & Href & H).
  apply batch_set_Ret in H as (-> & _). exists j, ref.
  split; [exact (completion_ref _ _ _ _ _ Hc Hq Href)|reflexivity].
Qed.

Lemma Forall2_impl_ex {A B} (f : nat -> A -> Exn B) (P : A -> B -> Prop) l bs :
  (forall j x b, f j x = Ret b -> P x b) ->
  Forall2 (fun x b => exists j, f j x = Ret b) l bs -> Forall2 P l bs.
Proof.
  intros HP. induction 1 as [|x b l bs (j & Hj) _ IH]; constructor; eauto.
Qed.

Lemma built_for_is_set env r l ws :
  Forall2 (built_for env r) l ws -> forallb is_set ws = true.
Proof.
  induction 1 as [|t w l ws (j & ref & _ & ->) _ IH]; [reflexivity|].
  simpl. exact IH.
Qed.

(** A branch that answers with an error and hands the store back. *)
Ltac refused :=
  intros [= <- <-]; left; split; [discriminate|reflexivity].

(** What a request does to the store: nothing unless it answers 200, and
    then exactly the writes built for its tuples, after the candidate
    update on the completion route. *)
Lemma handle_cases env st r st' resp :
  handle env st r = (st', resp) ->
  (status resp <> 200 /\ st' = st)
  \/ (status resp = 200
      /\ exists ws, Forall2 (built_for env r) (batch_of r) ws
                    /\ forallb (precondition st) (candidate_update env r) = true
                    /\ st' = fold_left apply_write (candidate_update env r ++ ws) st).
Proof.
  destruct r as [t|a|a|req]; simpl.
  - unfold save_answer. destruct (save_answer_missing t).
    { refused. }
    destruct (individual_write env 0 t) as [w|e] eqn:Hw; simpl.
    2:{ refused. }
    destruct (commit env st [w]) as [st1|e] eqn:Hc.
    2:{ refused. }
    intros [= <- <-]. right. split; [reflexivity|]. exists [w].
    apply commit_Ret in Hc as (_ & _ & ->).
    split; [|split; reflexivity].
    constructor; [|constructor]. exact (individual_write_built _ _ _ _ Hw).
  - unfold save_all_answers.
    destruct (negb (isArray a) || (length (elements a) =? 0)%nat).
    { refused. }
    destruct (forEach (bulk_write env) 0 (elements a)) as [ws|e] eqn:Hws; simpl.
    2:{ refused. }
    destruct (commit env st ws) as [st1|e] eqn:Hc.
    2:{ refused. }
    intros [= <- <-]. right. split; [reflexivity|]. exists ws.
    apply commit_Ret in Hc as (_ & _ & ->).
    split; [|split; reflexivity].
    apply forEach_Ret in Hws. revert Hws. apply Forall2_impl_ex.
    intros j x b. apply bulk_write_built.
  - unfold timeout_save_answers. destruct (negb (isArray a)).
    { refused. }
    cbn zeta. destruct (List.filter attempted (elements a)) as [|t0 l0] eqn:Hf.
    { simpl. intros [= <- <-]. right. split; [reflexivity|]. exists [].
      split; [constructor|split; reflexivity]. }
    cbn [length Nat.eqb].
    destruct (forEach (timeout_write env) 0 (t0 :: l0)) as [ws|e] eqn:Hws;
      cbn [mbind Exn_bind].
    2:{ refused. }
    destruct (commit env st ws) as [st1|e] eqn:Hc.
    2:{ refused. }
    intros [= <- <-]. right. split; [reflexivity|]. exists ws.
    apply commit_Ret in Hc as (_ & _ & ->).
    split; [|split; reflexivity].
    apply forEach_Ret in Hws. revert Hws. apply Forall2_impl_ex.
    intros j x b. apply timeout_write_built.
  - unfold complete_exam. destruct (complete_exam_invalid req).
    { refused. }
    cbn zeta.
    destruct (candidateDocRef (CompleteExam.candidateId req)) as [c|e] eqn:Hdoc; simpl.
    2:{ refused. }
    destruct (forEach (completion_write env c (CompleteExam.examName req)) 1
                (elements (CompleteExam.answers req))) as [ws|e] eqn:Hws; simpl.
    2:{ refused. }
    destruct (commit env st _) as [st1|e] eqn:Hcm.
    2:{ refused. }
    intros [= <- <-]. right. split; [reflexivity|]. exists ws.
    apply commit_Ret in Hcm as (_ & Hpre & ->).
    simpl in Hpre. apply andb_prop in Hpre as [Hpre _].
    unfold candidate_update, candidate_ref. rewrite Hdoc.
    split; [|split; [simpl; rewrite Hpre; reflexivity|reflexivity]].
    apply forEach_Ret in Hws. revert Hws. apply Forall2_impl_ex.
    intros j x b. apply completion_write_built. exact Hdoc.
Qed.

(** ** What a request does to the documents *)

Lemma candidate_ref_Some r c :
  candidate_ref r = Some c ->
  exists req, r = CompleteExamReq req
              /\ candidateDocRef (CompleteExam.candidateId req) = Ret c.
Proof.
  destruct r as [t|a|a|req]; try discriminate. cbn [candidate_ref].
  destruct (candidateDocRef _) as [c'|] eqn:Hc; [|discriminate].
  intros [= <-]. eauto.
Qed.

(** The document of a tuple lies below the document of its candidate. *)
Lemma answer_ref_Ret r t ref :
  answer_ref r t = Ret ref ->
  exists raw c,
    Tuple.questionId t = VStr raw
    /\ candidateDocRef (registration_of r t) = Ret c
    /\ answerDocRef_of c (formatQuestionId raw) = Ret ref
    /\ (length c < length ref)%nat.
Proof.
  intros H. apply answerDocRef_Ret in H as (raw & c & Hq & Hc & Href).
  exists raw, c. repeat split; try assumption.
  exact (answerDocRef_of_longer _ _ _ Href).
Qed.

Lemma answer_ref_not_candidate r t c :
  candidate_ref r = Some c -> answer_ref r t <> Ret c.
Proof.
  intros Hc Href. apply candidate_ref_Some in Hc as (req & -> & Hc).
  apply answer_ref_Ret in Href as (raw & c' & _ & Hc' & _ & Hlt).
  cbn [registration_of] in Hc'. rewrite Hc in Hc'. injection Hc' as <-. lia.
Qed.

Lemma last_set_candidate env r ws c :
  Forall2 (built_for env r) (batch_of r) ws ->
  candidate_ref r = Some c ->
  last_set ws c = None.
Proof.
  intros Hws Hc. destruct (last_set ws c) as [d|] eqn:Hl; [|reflexivity].
  apply last_set_Some in Hl.
  destruct (Forall2_In_r _ _ _ _ Hws Hl) as (t & _ & j & ref & Href & Heq).
  injection Heq as <- _. destruct (answer_ref_not_candidate _ _ _ Hc Href).
Qed.

Lemma lookup_candidate_update env r st p :
  documents (fold_left apply_write (candidate_update env r) st) !! p
  = if decide (candidate_ref r = Some p)
    then mark (VBool true) (VStr (clock env 0)) <$> documents st !! p
    else documents st !! p.
Proof.
  unfold candidate_update. destruct (candidate_ref r) as [c|].
  - cbn [fold_left]. rewrite lookup_update.
    destruct (decide (c = p)) as [->|Hne].
    + rewrite decide_True by reflexivity. reflexivity.
    + rewrite decide_False by congruence. reflexivity.
  - rewrite decide_False by discriminate. reflexivity.
Qed.

(** A request that is not answered 200 leaves every document as it was.
    After one answered 200 a document is the last record the request sets
    there; or it is the document of the candidate, marked; or it is what
    it was. *)
Lemma handle_documents env st r st' resp :
  handle env st r = (st', resp) ->
  (status resp <> 200 /\ st' = st)
  \/ (status resp = 200
      /\ exists ws,
           Forall2 (built_for env r) (batch_of r) ws
           /\ (forall c, candidate_ref r = Some c -> is_Some (documents st !! c))
           /\ forall p,
                documents st' !! p
                = match last_set ws p with
                  | Some d => Some (answer_doc d)
                  | None =>
                      if decide (candidate_ref r = Some p)
                      then mark (VBool true) (VStr (clock env 0)) <$> documents st !! p
                      else documents st !! p
                  end).
Proof.
  intros H. apply handle_cases in H as [H|(H200 & ws & Hws & Hpre & ->)];
    [left; exact H|].
  right. split; [exact H200|]. exists ws. split; [exact Hws|]. split.
  - intros c Hc. unfold candidate_update in Hpre. rewrite Hc in Hpre.
    cbn [forallb precondition] in Hpre. apply andb_prop in Hpre as [Hpre _].
    apply bool_decide_eq_true in Hpre. exact Hpre.
  - intros p. rewrite fold_left_app.
    rewrite (fold_sets_lookup ws _ p (built_for_is_set _ _ _ _ Hws)).
    rewrite lookup_candidate_update. reflexivity.
Qed.

(** The tuple a stored record was built from. *)
Lemma last_set_built env r ws p d :
  Forall2 (built_for env r) (batch_of r) ws ->
  last_set ws p = Some d ->
  exists t j, In t (batch_of r)
              /\ answer_ref r t = Ret p
              /\ d = answerData_of r (clock env j) t.
Proof.
  intros Hws Hl. apply last_set_Some in Hl.
  destruct (Forall2_In_r _ _ _ _ Hws Hl) as (t & Ht & j & ref & Href & Heq).
  injection Heq as -> ->. eauto.
Qed.

(** Every tuple of a request that built its writes has a record at its
    document. *)
Lemma built_last_set env r ws t :
  Forall2 (built_for env r) (batch_of r) ws ->
  In t (batch_of r) ->
  exists ref d, answer_ref r t = Ret ref /\ last_set ws ref = Some d.
Proof.
  intros Hws Ht.
  destruct (Forall2_In_l _ _ _ _ Hws Ht) as (w & Hw & j & ref & Href & ->).
  destruct (last_set_In _ _ _ Hw) as (d & Hd). eauto.
Qed.

(** ** Question identifiers *)

Lemma prefix_empty (s : string) : String.prefix "" s = true.
Proof. destruct s; reflexivity. Qed.

Lemma startsWith_Q_cons (s : string) : startsWith "Q" ("Q" ++ s) = true.
Proof.
  unfold startsWith. simpl. destruct (ascii_dec "Q" "Q") as [_|Hne];
    [apply prefix_empty|contradiction].
Qed.

Lemma formatQuestionId_marked (s : string) : startsWith "Q" (formatQuestionId s) = true.
Proof.
  unfold formatQuestionId. destruct (startsWith "Q" s) eqn:Hs;
    [exact Hs|apply startsWith_Q_cons].
Qed.

Lemma formatQuestionId_idempotent (s : string) :
  formatQuestionId (formatQuestionId s) = formatQuestionId s.
Proof.
  unfold formatQuestionId at 1. rewrite formatQuestionId_marked. reflexivity.
Qed.

Lemma has_slash_format (raw : string) :
  has_slash (formatQuestionId raw) = has_slash raw.
Proof.
  unfold formatQuestionId. destruct (startsWith "Q" raw); reflexivity.
Qed.

Lemma formatQuestionId_nonempty (raw : string) : formatQuestionId raw <> "".
Proof.
  unfold formatQuestionId. destruct (startsWith "Q" raw) eqn:Hs; [|discriminate].
  destruct raw; [discriminate Hs|discriminate].
Qed.

(** The document of a tuple whose question identifier is one segment:
    its own identifier, the last segment of its path, is the formatted
    identifier. *)
Lemma answer_ref_single r t raw c ref :
  Tuple.questionId t = VStr raw ->
  candidateDocRef (registration_of r t) = Ret c ->
  answerDocRef_of c (formatQuestionId raw) = Ret ref ->
  has_slash raw = false ->
  ref = (c ++ ["answers"; formatQuestionId raw])%list
  /\ List.last ref "" = formatQuestionId raw.
Proof.
  intros Hq Hc Href Hs.
  rewrite (answerDocRef_of_single c (formatQuestionId raw)) in Href.
  - injection Href as <-. split; [reflexivity|].
    change (c ++ ["answers"; formatQuestionId raw])%list
      with (c ++ ["answers"] ++ [formatQuestionId raw])%list.
    rewrite app_assoc. apply last_last.
  - exact (candidateDocRef_even _ _ Hc).
  - apply formatQuestionId_nonempty.
  - rewrite has_slash_format. exact Hs.
Qed.

(** A document a request changes is the document of its candidate or the
    document of one of its tuples. *)
Lemma changed_refs env st r st' resp ref :
  handle env st r = (st', resp) ->
  changed st st' ref ->
  candidate_ref r = Some ref
  \/ exists t, In t (batch_of r) /\ answer_ref r t = Ret ref.
Proof.
  intros H Hch.
  apply handle_documents in H as [(_ & ->)|(_ & ws & Hws & _ & Hdoc)];
    [destruct (Hch eq_refl)|].
  unfold changed in Hch. rewrite (Hdoc ref) in Hch.
  destruct (last_set ws ref) as [d|] eqn:Hl.
  - right. destruct (last_set_built _ _ _ _ _ Hws Hl) as (t & j & Ht & Href & _).
    eauto.
  - destruct (decide (candidate_ref r = Some ref)) as [Hc|Hc];
      [left; exact Hc|destruct (Hch eq_refl)].
Qed.

(** C5, as the code has it.  Every submission route formats the raw
    question identifier with the one rule: the marker "Q" is prepended
    exactly when the identifier does not start with it.  So "5" and "Q5", and in general an unmarked
    identifier and its marked form, address the same slot, and formatting
    is idempotent.  Every document a request changes is the document of its
    candidate (completion) or the document addressed by the candidate and
    the formatted question identifier of one of its tuples; after a request
    answered 200 every tuple has its document.  When the raw identifier
    holds no "/", that document lies in the answers of the candidate and
    its own identifier, read back, is the formatted identifier, which
    carries the marker. *)
Theorem question_id_normalization :
  (forall s, startsWith "Q" s = true -> formatQuestionId s = s)
  /\ (forall s, startsWith "Q" s = false -> formatQuestionId s = "Q" ++ s)
  /\ formatQuestionId "5" = formatQuestionId "Q5"
  /\ (forall s, startsWith "Q" s = false ->
        formatQuestionId ("Q" ++ s) = formatQuestionId s)
  /\ (forall s, formatQuestionId (formatQuestionId s) = formatQuestionId s)
  /\ (forall env st r st' resp ref,
        handle env st r = (st', resp) ->
        changed st st' ref ->
        candidate_ref r = Some ref
        \/ exists t raw c,
             In t (batch_of r)
             /\ Tuple.questionId t = VStr raw
             /\ candidateDocRef (registration_of r t) = Ret c
             /\ answerDocRef_of c (formatQuestionId raw) = Ret ref
             /\ (has_slash raw = false ->
                   ref = (c ++ ["answers"; formatQuestionId raw])%list
                   /\ List.last ref "" = formatQuestionId raw
                   /\ startsWith "Q" (List.last ref "") = true))
  /\ (forall env st r st' resp t,
        handle env st r = (st', resp) ->
        status resp = 200 ->
        In t (batch_of r) ->
        exists raw c ref,
          Tuple.questionId t = VStr raw
          /\ candidateDocRef (registration_of r t) = Ret c
          /\ answerDocRef_of c (formatQuestionId raw) = Ret ref
          /\ is_Some (documents st' !! ref)
          /\ (forall reg,
                registration_of r t = VStr reg ->
                reg <> "" -> has_slash reg = false -> has_slash raw = false ->
                ref = ["candidates"; reg; "answers"; formatQuestionId raw]
                /\ is_Some (answers st' !! (reg, formatQuestionId raw)))).
Proof.
  split; [intros s Hs; unfold formatQuestionId; rewrite Hs; reflexivity|].
  split; [intros s Hs; unfold formatQuestionId; rewrite Hs; reflexivity|].
  split; [reflexivity|].
  split.
  { intros s Hs. unfold formatQuestionId. rewrite startsWith_Q_cons, Hs. reflexivity. }
  split; [exact formatQuestionId_idempotent|].
  split.
  - intros env st r st' resp ref H Hch.
    destruct (changed_refs _ _ _ _ _ _ H Hch) as [Hc|(t & Ht & Href)];
      [left; exact Hc|right].
    apply answer_ref_Ret in Href as (raw & c & Hq & Hc & Href & _).
    exists t, raw, c. repeat split; try assumption;
      destruct (answer_ref_single _ _ _ _ _ Hq Hc Href H0) as [Hr Hlast];
      try assumption.
    rewrite Hlast. apply formatQuestionId_marked.
  - intros env st r st' resp t H H200 Ht.
    apply handle_documents in H as [(Hne & _)|(_ & ws & Hws & _ & Hdoc)];
      [contradiction|].
    destruct (built_last_set _ _ _ _ Hws Ht) as (ref & d & Href & Hl).
    apply answer_ref_Ret in Href as (raw & c & Hq & Hc & Href & _).
    assert (documents st' !! ref = Some (answer_doc d)) as Hd
      by (rewrite Hdoc, Hl; reflexivity).
    exists raw, c, ref. repeat split; try assumption; [rewrite Hd; eauto|..];
      rewrite H in Hc; rewrite (candidateDocRef_single reg H0 H1) in Hc;
      injection Hc as <-;
      destruct (answer_ref_single _ _ _ _ _ Hq
                  (eq_trans (f_equal candidateDocRef H) (candidateDocRef_single reg H0 H1))
                  Href H2) as [-> _]; [reflexivity|].
    rewrite answers_lookup. cbn [app] in Hd. rewrite Hd. eauto.
Qed.

Lemma question_id_normalization_witness :
  is_Some (answers (handle Sample.env Sample.store0 (SaveAnswer Sample.first_option)).1
             !! ("REG1", "Q1")).
Proof.
  destruct question_id_normalization as (_ & _ & _ & _ & _ & _ & Hslot).
  destruct (Hslot Sample.env Sample.store0 (SaveAnswer Sample.first_option) _ _
              Sample.first_option (surjective_pairing _))
    as (raw & c & ref & Hraw & _ & _ & _ & Hs).
  - vm_compute. reflexivity.
  - left; reflexivity.
  - injection Hraw as <-.
    destruct (Hs "REG1" eq_refl) as [_ H]; [discriminate|reflexivity|reflexivity|].
    exact H.
Defined.

(** C5 as worded fails for an identifier that holds "/": the request is
    answered 200 and what it stores is a nested document whose own
    identifier, the last segment, does not carry the marker. *)
Lemma question_id_normalization_counterexample :
  let t := Sample.tuple "REG1" "Q1/answers/7" (VNum (Int 0)) 1 VUndefined in
  let out := handle Sample.env Sample.store0 (SaveAnswer t) in
  let ref := ["candidates"; "REG1"; "answers"; "Q1"; "answers"; "7"] in
  status out.2 = 200
  /\ answer_ref (SaveAnswer t) t = Ret ref
  /\ changed Sample.store0 out.1 ref
  /\ (forall p, changed Sample.store0 out.1 p -> p = ref)
  /\ startsWith "Q" (List.last ref "") = false.
Proof.
  cbv zeta. split; [vm_compute; reflexivity|]. split; [vm_compute; reflexivity|].
  split; [unfold changed; vm_compute; discriminate|]. split; [|reflexivity].
  intros p Hch.
  destruct (changed_refs Sample.env Sample.store0 _ _ _ p (surjective_pairing _) Hch)
    as [Hc|(t & [<-|[]] & Href)]; [discriminate Hc|].
  vm_compute in Href. injection Href as <-. reflexivity.
Qed.

(** ** The stored record *)

Lemma attempted_not_skipped t : attempted t = true -> truthy (Tuple.skipped t) = false.
Proof.
  unfold attempted. intros H. apply andb_prop in H as [H _].
  apply andb_prop in H as [H _]. apply negb_true_iff in H. exact H.
Qed.

Lemma route_rule_built r ts t :
  In t (batch_of r) -> route_rule r t (answerData_of r ts t).
Proof.
  destruct r as [t0|a|a|req]; cbn [batch_of answerData_of route_rule]; intros Ht.
  - split; [reflexivity|]. intros Hs. unfold stores_the_parse.
    cbn [individual_answerData Answer.answer Answer.skipped]. unfold JS.or.
    rewrite Hs. auto.
  - unfold bulk_answerData, coercion_rule, stores_the_parse, stores_the_skip.
    destruct (truthy (Tuple.skipped t)); cbn; repeat split; congruence.
  - apply filter_In in Ht as [_ Ht]. split; [reflexivity|].
    split; [exact (attempted_not_skipped t Ht)|]. split; reflexivity.
  - unfold stores_the_parse, stores_the_skip.
    cbn [completion_answerData Answer.answer Answer.skipped Answer.submittedVia].
    unfold JS.or. destruct (truthy (Tuple.skipped t)); repeat split; congruence.
Qed.

Lemma stored_for_built env r j t :
  In t (batch_of r) -> stored_for env r t (answerData_of r (clock env j) t).
Proof.
  intros Ht. unfold stored_for. split; [|split; [|split]].
  - destruct r as [t0|a|a|req]; cbn [answerData_of examName_of]; try reflexivity.
    unfold bulk_answerData. destruct (truthy _); reflexivity.
  - destruct r as [t0|a|a|req]; cbn [answerData_of]; try reflexivity.
    unfold bulk_answerData. destruct (truthy _); reflexivity.
  - exists j. destruct r as [t0|a|a|req]; cbn [answerData_of]; try reflexivity.
    unfold bulk_answerData. destruct (truthy _); reflexivity.
  - apply route_rule_built. exact Ht.
Qed.

Lemma mark_completed ts old : completed_from ts old (mark (VBool true) ts old).
Proof. repeat split. Qed.

(** A document a request changes is the record stored for one of its
    tuples or the marked document of its candidate. *)
Lemma changed_documents env st r st' resp ref :
  handle env st r = (st', resp) ->
  changed st st' ref ->
  (exists t d,
      In t (batch_of r)
      /\ answer_ref r t = Ret ref
      /\ documents st' !! ref = Some (answer_doc d)
      /\ stored_for env r t d)
  \/ (exists old new,
        candidate_ref r = Some ref
        /\ documents st !! ref = Some old
        /\ documents st' !! ref = Some new
        /\ completed_from (VStr (clock env 0)) old new).
Proof.
  intros H Hch.
  apply handle_documents in H as [(_ & ->)|(_ & ws & Hws & Hex & Hdoc)];
    [destruct (Hch eq_refl)|].
  unfold changed in Hch. rewrite (Hdoc ref) in Hch. rewrite (Hdoc ref).
  destruct (last_set ws ref) as [d|] eqn:Hl.
  - left. destruct (last_set_built _ _ _ _ _ Hws Hl) as (t & j & Ht & Href & ->).
    exists t, (answerData_of r (clock env j) t).
    repeat split; try assumption; apply (stored_for_built env r j t Ht).
  - destruct (decide (candidate_ref r = Some ref)) as [Hc|Hc];
      [|destruct (Hch eq_refl)].
    right. destruct (Hex ref Hc) as (old & Hold). rewrite Hold.
    exists old, (mark (VBool true) (VStr (clock env 0)) old).
    repeat split; try assumption; reflexivity.
Qed.

(** C2, as the code has it.  Every document a request of any of the four
    routes changes is the record stored for one of the request's tuples,
    at the document that tuple addresses, or, on the completion route, the
    document of the candidate, which gains [submitted = true] and the
    completion timestamp and keeps its other fields.  A stored record
    replaces the document; it carries the exam name, the order value of its
    tuple and a reading of the clock.  On the bulk route it obeys the
    coercion rule, a tuple counting as skipped when its [skipped] is
    truthy: the integer parse of the input answer and [skipped = false]
    when not skipped, [null] and [skipped = true] when skipped.  The
    completion route does the same, the skip flag stored being the
    [skipped] value of the tuple.  The timeout route stores tuples that are
    not skipped only: the integer parse and [skipped = false].  On the
    individual route a tuple that is not skipped is stored as the integer
    parse with [skipped = false].  Individual, completion and timeout
    records carry the tag of their route; bulk records carry no tag. *)
Theorem stored_answer_coercion env st r st' resp ref :
  handle env st r = (st', resp) ->
  changed st st' ref ->
  (exists t d,
      In t (batch_of r)
      /\ answer_ref r t = Ret ref
      /\ documents st' !! ref = Some (answer_doc d)
      /\ Answer.examName d = examName_of r t
      /\ Answer.order d = Tuple.order t
      /\ (exists j, Answer.timestamp d = clock env j)
      /\ route_rule r t d)
  \/ (exists old new,
        candidate_ref r = Some ref
        /\ documents st !! ref = Some old
        /\ documents st' !! ref = Some new
        /\ completed_from (VStr (clock env 0)) old new).
Proof.
  intros H Hch.
  destruct (changed_documents _ _ _ _ _ _ H Hch)
    as [(t & d & Ht & Href & Hd & He & Ho & Hts & Hrule)|Hmark];
    [left|right; exact Hmark].
  exists t, d. auto 10.
Qed.

Lemma stored_answer_coercion_witness :
  let r := SaveAllAnswers (Some [Sample.first_option; Sample.second]) in
  let st' := (handle Sample.env Sample.store0 r).1 in
  let ref := ["candidates"; "REG1"; "answers"; "Q2"] in
  (exists t d,
      In t (batch_of r)
      /\ answer_ref r t = Ret ref
      /\ documents st' !! ref = Some (answer_doc d)
      /\ Answer.examName d = examName_of r t
      /\ Answer.order d = Tuple.order t
      /\ (exists j, Answer.timestamp d = clock Sample.env j)
      /\ route_rule r t d)
  \/ (exists old new,
        candidate_ref r = Some ref
        /\ documents Sample.store0 !! ref = Some old
        /\ documents st' !! ref = Some new
        /\ completed_from (VStr (clock Sample.env 0)) old new).
Proof.
  apply (stored_answer_coercion Sample.env Sample.store0
           (SaveAllAnswers (Some [Sample.first_option; Sample.second]))
           _ _ ["candidates"; "REG1"; "answers"; "Q2"] (surjective_pairing _)).
  unfold changed. vm_compute. discriminate.
Defined.

(** C2 as worded fails: the individual route accepts a skipped tuple and
    stores the parsed answer, not [null]; a record of the bulk route has
    no provenance tag; and the completion route stores the [skipped] value
    it was sent, which for a truthy value other than [true] is not
    [true]. *)
Lemma stored_answer_coercion_counterexample :
  (exists d,
      documents (handle Sample.env Sample.store0 (SaveAnswer Sample.third_skipped)).1
        !! ["candidates"; "REG1"; "answers"; "Q3"] = Some (answer_doc d)
      /\ Tuple.skipped Sample.third_skipped = VBool true
      /\ Answer.answer d = VNum (Int 2)
      /\ Answer.answer d <> VNull)
  /\ (exists d,
        documents
          (handle Sample.env Sample.store0 (SaveAllAnswers (Some [Sample.second]))).1
          !! ["candidates"; "REG1"; "answers"; "Q2"] = Some (answer_doc d)
        /\ ~ has_provenance_tag d)
  /\ (exists d,
        documents
          (handle Sample.env Sample.store0
             (CompleteExamReq
                (CompleteExam.mk (VStr "REG1") (VStr "Math101")
                   (Some [Sample.tuple "REG1" "Q3" (VNum (Int 2)) 3 (VNum (Int 1))])
                   VUndefined))).1
          !! ["candidates"; "REG1"; "answers"; "Q3"] = Some (answer_doc d)
        /\ Answer.answer d = VNull
        /\ Answer.skipped d = VNum (Int 1)
        /\ Answer.skipped d <> VBool true).
Proof.
  split; [|split].
  - eexists. split; [vm_compute; reflexivity|].
    split; [reflexivity|]. split; [reflexivity|discriminate].
  - eexists. split; [vm_compute; reflexivity|].
    intros [tag Htag]. discriminate.
  - eexists. split; [vm_compute; reflexivity|].
    split; [reflexivity|]. split; [reflexivity|discriminate].
Qed.

(** ** Requests the store accepts *)

Lemma defined_num (n : Number) : defined (VNum n) = true.
Proof. destruct n; reflexivity. Qed.

Lemma defined_or (v : Value) : defined (JS.or v (VBool false)) = true.
Proof.
  unfold JS.or. destruct (truthy v) eqn:E; [|reflexivity].
  destruct v as [| |b|[z| |neg]|s]; try discriminate; reflexivity.
Qed.

Lemma valid_data_built r ts t :
  defined (examName_of r t) = true ->
  defined (Tuple.order t) = true ->
  valid_data (answerData_of r ts t) = true.
Proof.
  intros He Ho. unfold valid_data.
  destruct r as [t0|a|a|req]; cbn [answerData_of examName_of] in *.
  - cbn [individual_answerData Answer.examName Answer.order Answer.answer Answer.skipped].
    rewrite He, Ho, defined_num, defined_or. reflexivity.
  - unfold bulk_answerData. destruct (truthy (Tuple.skipped t));
      cbn [Answer.examName Answer.order Answer.answer Answer.skipped];
      rewrite He, Ho, ?defined_num; reflexivity.
  - cbn [timeout_answerData Answer.examName Answer.order Answer.answer Answer.skipped].
    rewrite He, Ho, defined_num. reflexivity.
  - cbn [completion_answerData Answer.examName Answer.order Answer.answer Answer.skipped].
    rewrite He, Ho, defined_or.
    destruct (truthy (Tuple.skipped t)); rewrite ?defined_num; reflexivity.
Qed.

Lemma valid_data_defined r ts t :
  valid_data (answerData_of r ts t) = true ->
  defined (examName_of r t) = true /\ defined (Tuple.order t) = true.
Proof.
  unfold valid_data. intros H.
  apply andb_prop in H as [H _]. apply andb_prop in H as [H _].
  apply andb_prop in H as [He Ho].
  destruct r as [t0|a|a|req]; cbn [answerData_of examName_of] in *;
    try (split; assumption).
  unfold bulk_answerData in He, Ho.
  destruct (truthy (Tuple.skipped t)); split; assumption.
Qed.

Lemma storable_for_parts r t :
  storable_for r t = true ->
  exists ref, answer_ref r t = Ret ref
              /\ defined (examName_of r t) = true
              /\ defined (Tuple.order t) = true.
Proof.
  unfold storable_for, resolves. intros H.
  apply andb_prop in H as [H Ho]. apply andb_prop in H as [Hr He].
  destruct (answer_ref r t) as [ref|]; [eauto|discriminate].
Qed.

Lemma storable_for_intro r t ref :
  answer_ref r t = Ret ref ->
  defined (examName_of r t) = true ->
  defined (Tuple.order t) = true ->
  storable_for r t = true.
Proof.
  intros Hr He Ho. unfold storable_for, resolves. rewrite Hr, He, Ho. reflexivity.
Qed.

(** The write of a route for a tuple is prepared exactly when the tuple
    is storable, and is then the [set] of the route's record at the
    tuple's document. *)
Lemma write_of_spec env r j t w :
  write_of env r j t = Ret w
  <-> exists ref, answer_ref r t = Ret ref
                  /\ defined (examName_of r t) = true
                  /\ defined (Tuple.order t) = true
                  /\ w = SetAnswer ref (answerData_of r (clock env j) t).
Proof.
  assert (forall ref d, (batch_set ref d = Ret w)
                        <-> valid_data d = true /\ w = SetAnswer ref d) as Hset.
  { intros ref d. unfold batch_set. destruct (valid_data d); split.
    - intros [= <-]. auto.
    - intros [_ ->]. reflexivity.
    - discriminate.
    - intros [? _]. discriminate. }
  assert (forall r' (m : Exn Path),
            (forall ts, answerData_of r' ts t = answerData_of r ts t) ->
            examName_of r' t = examName_of r t ->
            ((ref ← m; batch_set ref (answerData_of r' (clock env j) t)) = Ret w
             <-> exists ref, m = Ret ref
                             /\ defined (examName_of r t) = true
                             /\ defined (Tuple.order t) = true
                             /\ w = SetAnswer ref (answerData_of r (clock env j) t)))
    as Hbind.
  { intros r' m Hd He. destruct m as [ref|e]; cbn [mbind Exn_bind].
    - rewrite Hset, Hd. split.
      + intros [Hv ->]. exists ref.
        destruct (valid_data_defined _ _ _ Hv) as [He' Ho]. auto.
      + intros (ref' & [= <-] & He' & Ho & ->). split; [|reflexivity].
        exact (valid_data_built _ _ _ He' Ho).
    - split; [discriminate|intros (ref' & Hd' & _); discriminate]. }
  unfold answer_ref.
  destruct r as [t0|a|a|req]; cbn [write_of registration_of].
  - exact (Hbind (SaveAnswer t0) _ (fun _ => eq_refl) eq_refl).
  - exact (Hbind (SaveAllAnswers a) _ (fun _ => eq_refl) eq_refl).
  - exact (Hbind (TimeoutSaveAnswers a) _ (fun _ => eq_refl) eq_refl).
  - rewrite <- (Hbind (CompleteExamReq req) _ (fun _ => eq_refl) eq_refl).
    unfold completion_write, answerDocRef. cbn [answerData_of].
    destruct (candidateDocRef (CompleteExam.candidateId req)) as [c|e];
      destruct (formattedQuestionId (Tuple.questionId t)) as [q|e'];
      cbn [mbind Exn_bind]; try reflexivity; split; discriminate.
Qed.

Lemma write_of_storable env r j t :
  storable_for r t = true <-> exists w, write_of env r j t = Ret w.
Proof.
  split.
  - intros H. apply storable_for_parts in H as (ref & Hr & He & Ho).
    eexists. apply write_of_spec. eauto.
  - intros (w & Hw). apply write_of_spec in Hw as (ref & Hr & He & Ho & _).
    exact (storable_for_intro _ _ _ Hr He Ho).
Qed.

Lemma commit_sets env st ws :
  firestore_up env = true -> forallb is_set ws = true ->
  commit env st ws = Ret (fold_left apply_write ws st).
Proof.
  intros Hup Hws. unfold commit. rewrite Hup. simpl.
  replace (forallb (precondition st) ws) with true; [reflexivity|].
  symmetry. apply forallb_forall. intros w Hw.
  rewrite forallb_forall in Hws. specialize (Hws w Hw). destruct w; [discriminate|reflexivity].
Qed.

Lemma forEach_is_set {A} (f : nat -> A -> Exn Write) l i ws :
  (forall j x w, f j x = Ret w -> is_set w = true) ->
  forEach f i l = Ret ws -> forallb is_set ws = true.
Proof.
  intros Hf H. apply forEach_Ret in H.
  induction H as [|x w l ws (j & Hj) _ IH]; [reflexivity|].
  cbn [forallb]. rewrite (Hf _ _ _ Hj). exact IH.
Qed.

(** A tuple with single-segment identifiers addresses the document of its
    formatted question identifier among the answers of its candidate. *)
Lemma answerDocRef_single (reg raw : string) :
  reg <> "" -> has_slash reg = false -> has_slash raw = false ->
  answerDocRef (VStr reg) (VStr raw)
  = Ret ["candidates"; reg; "answers"; formatQuestionId raw].
Proof.
  intros Hne Hr Hq. unfold answerDocRef. cbn [formattedQuestionId mbind Exn_bind].
  rewrite (candidateDocRef_single reg Hne Hr). cbn [mbind Exn_bind].
  rewrite (answerDocRef_of_single ["candidates"; reg] (formatQuestionId raw)).
  - reflexivity.
  - reflexivity.
  - apply formatQuestionId_nonempty.
  - rewrite has_slash_format. exact Hq.
Qed.

Lemma storable_parts t :
  storable t = true ->
  exists reg raw,
    Tuple.registrationNumber t = VStr reg
    /\ Tuple.questionId t = VStr raw
    /\ answerDocRef (Tuple.registrationNumber t) (Tuple.questionId t)
       = Ret ["candidates"; reg; "answers"; formatQuestionId raw]
    /\ defined (Tuple.examName t) = true
    /\ defined (Tuple.order t) = true.
Proof.
  unfold storable. intros H.
  apply andb_prop in H as [H Ho]. apply andb_prop in H as [H He].
  apply andb_prop in H as [Hr Hq].
  apply valid_id_parts in Hr as (reg & Hreg & Hne & Hs).
  destruct (Tuple.questionId t) as [| | | |raw] eqn:Hraw; try discriminate.
  cbn [valid_question_id] in Hq. apply negb_true_iff in Hq.
  exists reg, raw. rewrite Hreg. repeat split; try assumption.
  exact (answerDocRef_single reg raw Hne Hs Hq).
Qed.

Lemma forEach_ext {A B} (f g : nat -> A -> Exn B) i l :
  (forall j x, In x l -> f j x = g j x) -> forEach f i l = forEach g i l.
Proof.
  revert i. induction l as [|x l IH]; intros i H; [reflexivity|].
  cbn [forEach]. rewrite (H i x (or_introl eq_refl)).
  rewrite (IH (S i)) by (intros j y Hy; apply H; right; exact Hy). reflexivity.
Qed.

(** The writes of a batch are prepared exactly when every tuple is
    storable. *)
Lemma forEach_storable env r i l :
  (forall t, In t l -> storable_for r t = true)
  <-> exists ws, forEach (write_of env r) i l = Ret ws.
Proof.
  split.
  - intros H. apply forEach_total. intros j t Ht.
    apply write_of_storable. exact (H t Ht).
  - intros (ws & Hws) t Ht. apply forEach_Ret in Hws.
    destruct (Forall2_In_l _ _ _ _ Hws Ht) as (w & _ & j & Hw).
    apply (write_of_storable env r j t). eauto.
Qed.

Lemma forEach_write_of_is_set env r i l ws :
  forEach (write_of env r) i l = Ret ws -> forallb is_set ws = true.
Proof.
  apply forEach_is_set. intros j t w Hw.
  apply write_of_spec in Hw as (ref & _ & _ & _ & ->). reflexivity.
Qed.

Lemma completion_forEach env req c i l :
  candidateDocRef (CompleteExam.candidateId req) = Ret c ->
  forEach (completion_write env c (CompleteExam.examName req)) i l
  = forEach (write_of env (CompleteExamReq req)) i l.
Proof.
  intros Hc. apply forEach_ext. intros j t _. cbn [write_of]. rewrite Hc. reflexivity.
Qed.

(** ** The timeout route *)

Lemma attempted_spec (t : Tuple.t) :
  attempted t = true
  <-> truthy (Tuple.skipped t) = false
      /\ Tuple.answer t <> VNull /\ Tuple.answer t <> VUndefined.
Proof.
  unfold attempted. split.
  - intros H. apply andb_prop in H as [H H3]. apply andb_prop in H as [H1 H2].
    apply negb_true_iff in H1, H2, H3. split; [exact H1|].
    split; intros Heq; rewrite Heq in *; discriminate.
  - intros (H1 & H2 & H3). rewrite H1.
    destruct (Tuple.answer t) as [| |b|[z| |neg]|s]; try reflexivity; congruence.
Qed.

Lemma timeout_record_built env a t d :
  stored_for env (TimeoutSaveAnswers a) t d -> timeout_record env t d.
Proof.
  intros (He & Ho & Hts & Htag & _ & Hans & Hsk). repeat split; assumption.
Qed.

Lemma timeout_response env st a :
  let attemptedAnswers := List.filter attempted a in
  let out := timeout_save_answers env st (Some a) in
  (attemptedAnswers = []
   /\ out = (st, {| status := 200; body := Success "No attempted answers to save" |}))
  \/ (attemptedAnswers <> []
      /\ ((exists e, out = (st, {| status := 500;
                                   body := FailureDetails "Failed to save answers" e |}))
          \/ (exists st', out = (st', {| status := 200;
                 body := SuccessSaved "Attempted answers saved successfully"
                           (Z.of_nat (length attemptedAnswers)) |})))).
Proof.
  cbn zeta. unfold timeout_save_answers. change (elements (Some a)) with a.
  cbn [isArray negb].
  destruct (List.filter attempted a) as [|t0 l0] eqn:Hf; [left; auto|].
  right. split; [discriminate|]. cbn [length Nat.eqb].
  destruct (forEach (timeout_write env) 0 (t0 :: l0)) as [ws|e]; cbn [mbind Exn_bind].
  - destruct (commit env st ws) as [st1|e]; [right|left]; eauto.
  - left; eauto.
Qed.

Lemma timeout_accepts env st a :
  List.filter attempted a <> [] ->
  (status (timeout_save_answers env st (Some a)).2 = 200
   <-> firestore_up env = true
       /\ forall t, In t (List.filter attempted a) ->
                    storable_for (TimeoutSaveAnswers (Some a)) t = true).
Proof.
  intros Hne. unfold timeout_save_answers. change (elements (Some a)) with a.
  cbn [isArray negb]. cbv zeta.
  destruct (List.filter attempted a) as [|t0 l0] eqn:Hf; [contradiction|].
  cbn [length Nat.eqb].
  change (forEach (timeout_write env) 0 (t0 :: l0))
    with (forEach (write_of env (TimeoutSaveAnswers (Some a))) 0 (t0 :: l0)).
  rewrite (forEach_storable env (TimeoutSaveAnswers (Some a)) 0 (t0 :: l0)).
  destruct (forEach _ 0 (t0 :: l0)) as [ws|e] eqn:Hws; cbn [mbind Exn_bind].
  - pose proof (forEach_write_of_is_set _ _ _ _ _ Hws) as Hset.
    unfold commit. destruct (firestore_up env); cbn [negb].
    + replace (forallb (precondition st) ws) with true.
      * cbn. split; eauto.
      * symmetry. apply forallb_forall. intros w Hw.
        rewrite forallb_forall in Hset. specialize (Hset w Hw).
        destruct w; [discriminate|reflexivity].
    + cbn. split; [discriminate|intros [? _]; discriminate].
  - cbn. split; [discriminate|]. intros [_ (ws & Hws')]. discriminate.
Qed.

(** C3, as the code has it.  Of a batch sent to the timeout route exactly
    the entries whose [skipped] is not true (falsy) and whose [answer] is
    neither [null] nor [undefined] count as attempted.  Every document the
    request changes is the timeout record of an attempted entry, at the
    document that entry addresses: the entry's exam name and order value,
    a reading of the clock, the integer parse of its answer,
    [skipped = false] and the tag [timeout]; a skip record is never
    written.  With no attempted entry the request answers 200 with the
    acknowledgment that nothing was to be saved, which carries no count,
    and leaves the store as it was.  Otherwise it answers 200 exactly when
    the store is up and every attempted entry is storable; its
    [savedCount] is then the number of attempted entries and each of them
    has a timeout record at its document; when it does not answer 200 the
    store is unchanged. *)
Theorem timeout_saves_attempted_only env st (a : list Tuple.t) :
  let attemptedAnswers := List.filter attempted a in
  let st' := (timeout_save_answers env st (Some a)).1 in
  let resp := (timeout_save_answers env st (Some a)).2 in
  (forall t, In t attemptedAnswers
             <-> In t a /\ truthy (Tuple.skipped t) = false
                 /\ Tuple.answer t <> VNull /\ Tuple.answer t <> VUndefined)
  /\ (forall ref,
        changed st st' ref ->
        exists t d,
          In t attemptedAnswers
          /\ answerDocRef (Tuple.registrationNumber t) (Tuple.questionId t) = Ret ref
          /\ documents st' !! ref = Some (answer_doc d)
          /\ timeout_record env t d)
  /\ (attemptedAnswers = [] ->
        st' = st
        /\ resp = {| status := 200; body := Success "No attempted answers to save" |})
  /\ (attemptedAnswers <> [] ->
        (status resp = 200
         <-> firestore_up env = true
             /\ forall t, In t attemptedAnswers ->
                          storable_for (TimeoutSaveAnswers (Some a)) t = true)
        /\ (status resp = 200 ->
              body resp = SuccessSaved "Attempted answers saved successfully"
                            (Z.of_nat (length attemptedAnswers))
              /\ forall t, In t attemptedAnswers ->
                   exists ref t' d,
                     answerDocRef (Tuple.registrationNumber t) (Tuple.questionId t)
                     = Ret ref
                     /\ In t' attemptedAnswers
                     /\ answerDocRef (Tuple.registrationNumber t') (Tuple.questionId t')
                        = Ret ref
                     /\ documents st' !! ref = Some (answer_doc d)
                     /\ timeout_record env t' d))
  /\ (status resp <> 200 -> st' = st).
Proof.
  cbn zeta.
  pose proof (surjective_pairing (timeout_save_answers env st (Some a))) as Hout.
  change (timeout_save_answers env st (Some a))
    with (handle env st (TimeoutSaveAnswers (Some a))) in Hout at 1.
  split.
  { intros t. rewrite filter_In, attempted_spec. tauto. }
  split.
  { intros ref Hch.
    destruct (changed_documents _ _ _ _ _ _ Hout Hch)
      as [(t & d & Ht & Href & Hd & Hst)|(old & new & Hc & _)]; [|discriminate Hc].
    exists t, d. split; [exact Ht|]. split; [exact Href|]. split; [exact Hd|].
    exact (timeout_record_built _ _ _ _ Hst). }
  destruct (timeout_response env st a) as [[Hnil Heq]|[Hne Hcase]].
  - rewrite Heq. cbn [fst snd]. split; [auto|].
    split; [intros H; contradiction|]. intros H. exfalso. apply H. reflexivity.
  - split; [intros H; contradiction|]. split.
    + intros _. split; [exact (timeout_accepts env st a Hne)|].
      intros H200. destruct Hcase as [(e & Heq)|(st1 & Heq)];
        [rewrite Heq in H200; discriminate|].
      split; [rewrite Heq; reflexivity|]. intros t Ht.
      apply handle_documents in Hout as [(Hnot & _)|(_ & ws & Hws & _ & Hdoc)];
        [contradiction|].
      destruct (built_last_set _ _ _ _ Hws Ht) as (ref & d & Href & Hl).
      destruct (last_set_built _ _ _ _ _ Hws Hl) as (t' & j & Ht' & Href' & ->).
      exists ref, t', (answerData_of (TimeoutSaveAnswers (Some a)) (clock env j) t').
      split; [exact Href|]. split; [exact Ht'|]. split; [exact Href'|].
      split; [rewrite Hdoc, Hl; reflexivity|].
      apply (timeout_record_built env (Some a)), stored_for_built; exact Ht'.
    + destruct Hcase as [(e & Heq)|(st1 & Heq)]; rewrite Heq; cbn [fst snd];
        [reflexivity|intros H; exfalso; apply H; reflexivity].
Qed.

Lemma timeout_saves_attempted_only_witness :
  body (timeout_save_answers Sample.env Sample.store0
          (Some [Sample.first_option; Sample.third_skipped; Sample.untouched])).2
  = SuccessSaved "Attempted answers saved successfully" 1.
Proof.
  destruct (timeout_saves_attempted_only Sample.env Sample.store0
              [Sample.first_option; Sample.third_skipped; Sample.untouched])
    as (_ & _ & _ & H & _).
  destruct H as [_ H].
  - vm_compute. discriminate.
  - destruct H as [Hb _]; [vm_compute; reflexivity|exact Hb].
Defined.

(** C3 as worded fails in the empty case: the acknowledgment of a batch
    with no attempted entry carries a message and no count, so it reports
    no saved count of zero. *)
Lemma timeout_saves_attempted_only_counterexample :
  let out := timeout_save_answers Sample.env Sample.store0
               (Some [Sample.third_skipped; Sample.untouched]) in
  List.filter attempted [Sample.third_skipped; Sample.untouched] = []
  /\ out.2 = {| status := 200; body := Success "No attempted answers to save" |}
  /\ forall message, body out.2 <> SuccessSaved message 0.
Proof.
  cbv zeta. split; [reflexivity|]. split; [reflexivity|]. intros message. discriminate.
Qed.

(** ** The individual route *)

Lemma save_answer_status env st t :
  let out := save_answer env st t in
  (save_answer_missing t = true
   /\ out = (st, {| status := 400; body := Failure "Missing required fields" |}))
  \/ (save_answer_missing t = false /\ status out.2 <> 400).
Proof.
  cbn zeta. unfold save_answer. destruct (save_answer_missing t); [left; auto|].
  right. split; [reflexivity|].
  destruct (individual_write env 0 t) as [w|e]; cbn [mbind Exn_bind];
    [destruct (commit env st [w])|]; discriminate.
Qed.

Lemma save_answer_missing_spec t :
  save_answer_missing t = true
  <-> truthy (Tuple.registrationNumber t) = false
      \/ truthy (Tuple.questionId t) = false
      \/ Tuple.answer t = VUndefined
      \/ truthy (Tuple.examName t) = false.
Proof.
  unfold save_answer_missing. rewrite !orb_true_iff, !negb_true_iff.
  assert (Hu : strict_eq (Tuple.answer t) VUndefined = true
               <-> Tuple.answer t = VUndefined).
  { destruct (Tuple.answer t) as [| |b|[z| |neg]|s]; split; intros H;
      try reflexivity; discriminate. }
  rewrite Hu. tauto.
Qed.

Lemma truthy_valid_id (v : Value) : valid_id v = true -> truthy v = true.
Proof.
  destruct v as [| | | |s]; try discriminate. simpl. intros H.
  apply andb_prop in H as [H _]. exact H.
Qed.

(** C6. The individual route answers 400 "Missing required fields",
    before any write, exactly when [registrationNumber], [questionId] or
    [examName] is missing (falsy) or [answer] is [undefined]: [answer] is
    tested for [undefined], not for falsiness.  In particular a tuple with
    [answer = 0] and the other fields in place is answered 200 and its
    record holds the answer 0. *)
Theorem save_answer_missing_field env st t :
  let out := save_answer env st t in
  (status out.2 = 400
   <-> truthy (Tuple.registrationNumber t) = false
       \/ truthy (Tuple.questionId t) = false
       \/ Tuple.answer t = VUndefined
       \/ truthy (Tuple.examName t) = false)
  /\ (status out.2 = 400 ->
        out = (st, {| status := 400; body := Failure "Missing required fields" |}))
  /\ (Tuple.answer t = VNum (Int 0) ->
        storable t = true ->
        truthy (Tuple.questionId t) = true ->
        truthy (Tuple.examName t) = true ->
        firestore_up env = true ->
        status out.2 = 200
        /\ exists reg raw d,
             Tuple.registrationNumber t = VStr reg
             /\ Tuple.questionId t = VStr raw
             /\ answers out.1 !! (reg, formatQuestionId raw) = Some d
             /\ Answer.answer d = VNum (Int 0)
             /\ Answer.submittedVia d = Some individual).
Proof.
  cbn zeta. rewrite <- save_answer_missing_spec.
  destruct (save_answer_status env st t) as [(Hm & Heq)|(Hm & Hne)].
  - rewrite Heq. cbn [fst snd status]. split; [tauto|]. split; [reflexivity|].
    intros Ha Hst Hq He _. exfalso.
    apply save_answer_missing_spec in Hm as [H|[H|[H|H]]]; try congruence.
    unfold storable in Hst. apply andb_prop in Hst as [Hst _].
    apply andb_prop in Hst as [Hst _]. apply andb_prop in Hst as [Hr _].
    apply truthy_valid_id in Hr. congruence.
  - split; [split; [contradiction|congruence]|]. split; [contradiction|].
    intros Ha Hst _ _ Hup.
    apply storable_parts in Hst as (reg & raw & Hreg & Hraw & Href & He & Ho).
    assert (individual_write env 0 t
            = Ret (SetAnswer ["candidates"; reg; "answers"; formatQuestionId raw]
                     (individual_answerData (clock env 0) t))) as Hw.
    { apply (write_of_spec env (SaveAnswer t) 0 t). eexists. eauto. }
    assert (save_answer env st t
            = (apply_write st
                 (SetAnswer ["candidates"; reg; "answers"; formatQuestionId raw]
                    (individual_answerData (clock env 0) t)),
               {| status := 200; body := Success "Answer saved successfully" |}))
      as Hout.
    { unfold save_answer. rewrite Hm, Hw. cbn [mbind Exn_bind].
      rewrite commit_sets; [reflexivity|exact Hup|reflexivity]. }
    rewrite Hout. cbn [fst snd status]. split; [reflexivity|].
    exists reg, raw, (individual_answerData (clock env 0) t).
    split; [exact Hreg|]. split; [exact Hraw|]. split.
    + rewrite answers_lookup, lookup_set, decide_True by reflexivity. reflexivity.
    + cbn [individual_answerData Answer.answer Answer.submittedVia]. rewrite Ha.
      split; reflexivity.
Qed.

Lemma save_answer_missing_field_witness :
  status (save_answer Sample.env Sample.store0 Sample.first_option).2 = 200
  /\ exists reg raw d,
       Tuple.registrationNumber Sample.first_option = VStr reg
       /\ Tuple.questionId Sample.first_option = VStr raw
       /\ answers (save_answer Sample.env Sample.store0 Sample.first_option).1
            !! (reg, formatQuestionId raw) = Some d
       /\ Answer.answer d = VNum (Int 0)
       /\ Answer.submittedVia d = Some individual.
Proof.
  destruct (save_answer_missing_field Sample.env Sample.store0 Sample.first_option)
    as (_ & _ & H).
  apply H; reflexivity.
Defined.

(** ** The completion route *)

Lemma candidateDocRef_length id c : candidateDocRef id = Ret c -> (2 <= length c)%nat.
Proof.
  intros H. apply Firestore_doc_Ret in H as (s & _ & _ & -> & Hev).
  rewrite length_app in *. cbn [length] in *.
  destruct (length (Firestore.segments s)); [discriminate Hev|lia].
Qed.

Lemma complete_exam_200 env st req :
  status (complete_exam env st req).2 = 200 ->
  exists c, candidate_ref (CompleteExamReq req) = Some c.
Proof.
  unfold complete_exam, candidate_ref. destruct (complete_exam_invalid req).
  { discriminate. }
  cbn zeta. destruct (candidateDocRef (CompleteExam.candidateId req)) as [c|e];
    cbn [mbind Exn_bind]; [eauto|discriminate].
Qed.

(** The documents of the collection [candidates] are no document of a
    tuple. *)
Lemma candidates_kept env st r st' resp c :
  handle env st r = (st', resp) ->
  candidate_ref r <> Some ["candidates"; c] ->
  documents st' !! ["candidates"; c] = documents st !! ["candidates"; c].
Proof.
  intros H Hc.
  apply handle_documents in H as [(_ & ->)|(_ & ws & Hws & _ & Hdoc)]; [reflexivity|].
  rewrite Hdoc. destruct (last_set ws ["candidates"; c]) as [d|] eqn:Hl.
  - destruct (last_set_built _ _ _ _ _ Hws Hl) as (t & j & _ & Href & _).
    apply answer_ref_Ret in Href as (raw & c' & _ & Hc' & _ & Hlt).
    apply candidateDocRef_length in Hc'. cbn [length] in Hlt. lia.
  - rewrite decide_False by exact Hc. reflexivity.
Qed.

(** Only the completion route touches the candidate documents. *)
Lemma handle_candidates env st r st' resp :
  handle env st r = (st', resp) ->
  candidates st' <> candidates st ->
  exists req, r = CompleteExamReq req.
Proof.
  intros H Hne. destruct r as [t|a|a|req]; [exfalso; apply Hne..|eauto];
    apply map_eq; intros c; rewrite !candidates_lookup;
    rewrite (candidates_kept _ _ _ _ _ c H); try reflexivity; discriminate.
Qed.

(** C4. Of the four submission routes only the completion route changes
    a document of the collection of candidates.  A completion request
    either is answered 200, and then the document its candidate identifier
    names has [submitted = true] and the completion timestamp, its other
    fields as before, and every answer of the batch has a completion
    record at its document; or it is not, and then the store is as it
    was: no state with the flag set and answers missing, or answers written
    and the flag not set.  For a candidate identifier of one segment the
    document is the candidate's. *)
Theorem completion_atomic env st :
  (forall r st' resp,
      handle env st r = (st', resp) ->
      candidates st' <> candidates st ->
      exists req, r = CompleteExamReq req)
  /\ (forall req st' resp,
        complete_exam env st req = (st', resp) ->
        (status resp <> 200 /\ st' = st)
        \/ (status resp = 200
            /\ (exists ref old new,
                   candidateDocRef (CompleteExam.candidateId req) = Ret ref
                   /\ documents st !! ref = Some old
                   /\ documents st' !! ref = Some new
                   /\ completed_from (VStr (clock env 0)) old new)
            /\ (forall c,
                  CompleteExam.candidateId req = VStr c ->
                  c <> "" -> has_slash c = false ->
                  exists old new,
                    candidates st !! c = Some old
                    /\ candidates st' !! c = Some new
                    /\ Candidate.submitted new = VBool true
                    /\ Candidate.examCompletedAt new = VStr (clock env 0)
                    /\ Candidate.candidateName new = Candidate.candidateName old
                    /\ Candidate.phone new = Candidate.phone old
                    /\ Candidate.exam new = Candidate.exam old
                    /\ Candidate.used new = Candidate.used old)
            /\ (forall t, In t (elements (CompleteExam.answers req)) ->
                  exists ref t' d,
                    answer_ref (CompleteExamReq req) t = Ret ref
                    /\ In t' (elements (CompleteExam.answers req))
                    /\ answer_ref (CompleteExamReq req) t' = Ret ref
                    /\ documents st' !! ref = Some (answer_doc d)
                    /\ Answer.examName d = CompleteExam.examName req
                    /\ Answer.order d = Tuple.order t'
                    /\ (exists j, Answer.timestamp d = clock env j)
                    /\ route_rule (CompleteExamReq req) t' d))).
Proof.
  split; [intros r st' resp; apply handle_candidates|].
  intros req st' resp H.
  change (complete_exam env st req) with (handle env st (CompleteExamReq req)) in H.
  pose proof H as Hd.
  apply handle_documents in Hd as [Hd|(H200 & ws & Hws & Hex & Hdoc)];
    [left; exact Hd|right].
  split; [exact H200|].
  destruct (complete_exam_200 env st req) as (ref & Href).
  { change (complete_exam env st req) with (handle env st (CompleteExamReq req)).
    rewrite H. exact H200. }
  destruct (Hex ref Href) as (old & Hold).
  assert (documents st' !! ref = Some (mark (VBool true) (VStr (clock env 0)) old))
    as Hnew.
  { rewrite Hdoc, (last_set_candidate _ _ _ _ Hws Href), decide_True by exact Href.
    rewrite Hold. reflexivity. }
  apply candidate_ref_Some in Href as (req' & [= <-] & Href).
  split; [|split].
  - exists ref, old, (mark (VBool true) (VStr (clock env 0)) old).
    repeat split; assumption.
  - intros c Hc Hne Hs. rewrite Hc, (candidateDocRef_single c Hne Hs) in Href.
    injection Href as <-.
    exists (Document.candidate old),
           (Document.candidate (mark (VBool true) (VStr (clock env 0)) old)).
    rewrite !candidates_lookup, Hold, Hnew. repeat split.
  - intros t Ht.
    destruct (built_last_set _ _ _ _ Hws Ht) as (p & d & Hp & Hl).
    destruct (last_set_built _ _ _ _ _ Hws Hl) as (t' & j & Ht' & Hp' & ->).
    exists p, t', (answerData_of (CompleteExamReq req) (clock env j) t').
    split; [exact Hp|]. split; [exact Ht'|]. split; [exact Hp'|].
    split; [rewrite Hdoc, Hl; reflexivity|].
    exact (stored_for_built env (CompleteExamReq req) j t' Ht').
Qed.

Lemma completion_atomic_witness :
  exists ref t' d,
    answer_ref
      (CompleteExamReq
         (CompleteExam.mk (VStr "REG1") (VStr "Math101")
            (Some [Sample.second; Sample.third_skipped]) (VBool true)))
      Sample.third_skipped = Ret ref
    /\ In t' [Sample.second; Sample.third_skipped]
    /\ answer_ref
         (CompleteExamReq
            (CompleteExam.mk (VStr "REG1") (VStr "Math101")
               (Some [Sample.second; Sample.third_skipped]) (VBool true)))
         t' = Ret ref
    /\ documents (complete_exam Sample.env Sample.store0
                    (CompleteExam.mk (VStr "REG1") (VStr "Math101")
                       (Some [Sample.second; Sample.third_skipped]) (VBool true))).1
         !! ref = Some (answer_doc d)
    /\ Answer.examName d = VStr "Math101"
    /\ Answer.order d = Tuple.order t'
    /\ (exists j, Answer.timestamp d = clock Sample.env j)
    /\ route_rule
         (CompleteExamReq
            (CompleteExam.mk (VStr "REG1") (VStr "Math101")
               (Some [Sample.second; Sample.third_skipped]) (VBool true))) t' d.
Proof.
  destruct (completion_atomic Sample.env Sample.store0) as (_ & H).
  destruct (H (CompleteExam.mk (VStr "REG1") (VStr "Math101")
                 (Some [Sample.second; Sample.third_skipped]) (VBool true))
              _ _ (surjective_pairing _)) as [(Hne & _)|(_ & _ & _ & Hall)].
  - exfalso. apply Hne. vm_compute. reflexivity.
  - apply Hall. right. left. reflexivity.
Defined.

Lemma answers_marked st st' ref :
  (forall p, p <> ref -> documents st' !! p = documents st !! p) ->
  Document.answer <$> documents st' !! ref = Document.answer <$> documents st !! ref ->
  answers st' = answers st.
Proof.
  intros Hother Href. apply map_eq. intros [c q]. rewrite !answers_lookup.
  destruct (decide (["candidates"; c; "answers"; q] = ref)) as [<-|Hne];
    [exact Href|]. rewrite (Hother _ Hne). reflexivity.
Qed.

(** C10, as the code has it.  The validation of the completion route
    asks for a candidate id, an exam name (both truthy) and an array, which
    may be empty.  A request with [answers = []] is answered 200 exactly
    when the store is up and the candidate id names a stored document;
    that document then gets [submitted = true] and the completion
    timestamp and keeps its other fields, every other document and so
    every answer record stays as it was, and the response counts zero
    answers.  Otherwise the request is answered 500 and nothing is set.
    The bulk route refuses the empty array with 400 and leaves the store
    as it was. *)
Theorem complete_exam_accepts_empty env st (candidateId examName submitted : Value) :
  truthy candidateId = true ->
  truthy examName = true ->
  let req := CompleteExam.mk candidateId examName (Some []) submitted in
  let out := complete_exam env st req in
  complete_exam_invalid req = false
  /\ (status out.2 = 200
      <-> firestore_up env = true
          /\ exists ref, candidateDocRef candidateId = Ret ref
                         /\ is_Some (documents st !! ref))
  /\ (status out.2 = 200 ->
        out.2 = {| status := 200;
                   body := SuccessCompleted
                             "Exam completed and answers submitted successfully"
                             candidateId examName (clock env 1) 0 0 |}
        /\ exists ref old new,
             candidateDocRef candidateId = Ret ref
             /\ documents st !! ref = Some old
             /\ documents out.1 !! ref = Some new
             /\ completed_from (VStr (clock env 0)) old new
             /\ forall p, p <> ref -> documents out.1 !! p = documents st !! p)
  /\ (status out.2 <> 200 -> status out.2 = 500 /\ out.1 = st)
  /\ answers out.1 = answers st
  /\ (forall env' st',
        save_all_answers env' st' (Some [])
        = (st', {| status := 400;
                   body := Failure "Invalid answers format. Expected non-empty array." |})).
Proof.
  intros Hc He. cbn zeta.
  assert (Hinv : complete_exam_invalid
                   (CompleteExam.mk candidateId examName (Some []) submitted) = false).
  { unfold complete_exam_invalid. cbn [CompleteExam.candidateId CompleteExam.examName
      CompleteExam.answers isArray]. rewrite Hc, He. reflexivity. }
  split; [exact Hinv|].
  unfold complete_exam. rewrite Hinv. cbn zeta.
  cbn [CompleteExam.candidateId CompleteExam.examName CompleteExam.answers].
  change (elements (Some [])) with (@nil Tuple.t).
  assert (forall e, status (respond st 500 (FailureDetails "Failed to complete exam" e)).2
                    <> 200) as H500 by discriminate.
  destruct (candidateDocRef candidateId) as [ref|e] eqn:Href; cbn [mbind Exn_bind forEach].
  2:{ cbn [respond fst snd status].
      split; [split; [discriminate|intros (_ & ref & Hr & _); discriminate]|].
      split; [discriminate|]. split; [auto|]. split; reflexivity. }
  unfold commit. destruct (firestore_up env); cbn [negb].
  2:{ cbn [respond fst snd status].
      split; [split; [discriminate|intros (? & _); discriminate]|].
      split; [discriminate|]. split; [auto|]. split; reflexivity. }
  cbn [forallb precondition andb]. rewrite andb_true_r.
  destruct (documents st !! ref) as [old|] eqn:Hold.
  - rewrite bool_decide_eq_true_2 by eauto.
    cbn [fold_left respond fst snd status List.filter length].
    assert (documents (apply_write st (UpdateCandidate ref (VBool true)
                                         (VStr (clock env 0)))) !! ref
            = Some (mark (VBool true) (VStr (clock env 0)) old)) as Hnew.
    { rewrite lookup_update, decide_True by reflexivity. rewrite Hold. reflexivity. }
    assert (forall p, p <> ref ->
              documents (apply_write st (UpdateCandidate ref (VBool true)
                                           (VStr (clock env 0)))) !! p
              = documents st !! p) as Hother.
    { intros p Hp. rewrite lookup_update, decide_False by congruence. reflexivity. }
    split; [split; [intros _; split; [reflexivity|eauto]|reflexivity]|].
    split.
    { intros _. split; [reflexivity|].
      exists ref, old, (mark (VBool true) (VStr (clock env 0)) old).
      split; [reflexivity|]. split; [exact Hold|]. split; [exact Hnew|].
      split; [apply mark_completed|exact Hother]. }
    split; [intros H; exfalso; apply H; reflexivity|].
    split; [|reflexivity].
    apply (answers_marked _ _ ref Hother). rewrite Hnew, Hold. reflexivity.
  - rewrite bool_decide_eq_false_2 by (intros [? ?]; discriminate).
    cbn [respond fst snd status].
    split.
    { split; [discriminate|]. intros (_ & ref' & [= <-] & [? Hs]). congruence. }
    split; [discriminate|]. split; [auto|]. split; reflexivity.
Qed.

Lemma complete_exam_accepts_empty_witness :
  (complete_exam Sample.env Sample.store0
     (CompleteExam.mk (VStr "REG2") (VStr "Math101") (Some []) VUndefined)).2
  = {| status := 200;
       body := SuccessCompleted "Exam completed and answers submitted successfully"
                 (VStr "REG2") (VStr "Math101") (clock Sample.env 1) 0 0 |}.
Proof.
  destruct (complete_exam_accepts_empty Sample.env Sample.store0 (VStr "REG2")
              (VStr "Math101") VUndefined) as (_ & _ & H & _);
    [reflexivity|reflexivity|].
  destruct H as [H _]; [vm_compute; reflexivity|exact H].
Defined.

(** C10 as worded fails for a candidate id that names no stored document:
    the validation passes, the request is answered 500 and no document
    gets the flag. *)
Lemma complete_exam_accepts_empty_counterexample :
  let req := CompleteExam.mk (VStr "REG404") (VStr "Math101") (Some []) VUndefined in
  let out := complete_exam Sample.env Sample.store0 req in
  complete_exam_invalid req = false
  /\ status out.2 = 500
  /\ out.1 = Sample.store0
  /\ candidates out.1 !! "REG404" = None.
Proof.
  cbv zeta. split; [reflexivity|]. split; [vm_compute; reflexivity|].
  split; [vm_compute; reflexivity|]. vm_compute. reflexivity.
Qed.

(** ** Today's exam *)

Lemma strict_eq_str (v : Value) (s : string) :
  strict_eq v (VStr s) = true <-> v = VStr s.
Proof.
  destruct v as [| |b|[z| |neg]|s0]; simpl; split; try discriminate.
  - intros H. apply String.eqb_eq in H. congruence.
  - intros [= ->]. apply String.eqb_refl.
Qed.

Lemma strict_eq_str_l (v : Value) (s : string) :
  strict_eq (VStr s) v = true <-> v = VStr s.
Proof.
  destruct v as [| |b|[z| |neg]|s0]; simpl; split; try discriminate.
  - intros H. apply String.eqb_eq in H. congruence.
  - intros [= ->]. apply String.eqb_refl.
Qed.

Lemma find_today_None renv examDocs :
  (forall doc dt, In doc examDocs -> Exam.dateTime doc = Some dt ->
                  DateTime.date dt <> VStr (today renv)) ->
  find_today renv examDocs = None.
Proof.
  induction examDocs as [|doc rest IH]; intros H; [reflexivity|].
  simpl. destruct (Exam.dateTime doc) as [dt|] eqn:Hdt.
  - destruct (strict_eq (DateTime.date dt) (VStr (today renv))) eqn:Heq.
    + apply strict_eq_str in Heq. exfalso.
      exact (H doc dt (or_introl eq_refl) Hdt Heq).
    + apply IH. intros d' dt' Hin. apply H. right; exact Hin.
  - apply IH. intros d' dt' Hin. apply H. right; exact Hin.
Qed.

Lemma find_today_Some renv examDocs doc dt :
  find_today renv examDocs = Some (doc, dt) ->
  In doc examDocs /\ Exam.dateTime doc = Some dt
  /\ DateTime.date dt = VStr (today renv).
Proof.
  induction examDocs as [|d rest IH]; [discriminate|].
  simpl. destruct (Exam.dateTime d) as [dt0|] eqn:Hdt.
  - destruct (strict_eq (DateTime.date dt0) (VStr (today renv))) eqn:Heq.
    + intros [= <- <-]. apply strict_eq_str in Heq. auto.
    + intros H. destruct (IH H) as (Hin & Hrest). auto.
  - intros H. destruct (IH H) as (Hin & Hrest). auto.
Qed.

Lemma In_docs {V} (m : gmap string V) (k : string) (v : V) :
  In (k, v) (docs m) <-> m !! k = Some v.
Proof.
  unfold docs. rewrite <- list_elem_of_In, merge_sort_Permutation.
  apply elem_of_map_to_list.
Qed.

Lemma score_candidates_spec renv examId qs st cands :
  forall i db results db' out,
    score_candidates renv examId qs st i cands db results = (db', out) ->
    (forall key v,
        db' !! key = Some v ->
        db !! key = Some v
        \/ exists c, In c cands /\ key = (examId, c.1) /\ v.1 = score_of st qs c)
    /\ (forall rs, out = Ret rs -> rs = (results ++ List.map (score_of st qs) cands)%list).
Proof.
  induction cands as [|[cid cdata] rest IH]; intros i db results db' out H.
  - injection H as <- <-. split; [auto|].
    intros rs [= <-]. rewrite app_nil_r. reflexivity.
  - cbn [score_candidates] in H. destruct (realtime_accepts renv examId cid).
    + apply IH in H as (Hdb & Hrs). split.
      * intros key v Hv. destruct (Hdb key v Hv) as [Hold|(c & Hc & Hkey & Hval)].
        -- destruct (decide ((examId, cid) = key)) as [<-|Hne].
           ++ rewrite lookup_insert_eq in Hold. injection Hold as <-.
              right. exists (cid, cdata). split; [left; reflexivity|]. auto.
           ++ rewrite lookup_insert_ne in Hold by exact Hne. left; exact Hold.
        -- right. exists c. split; [right; exact Hc|]. auto.
      * intros rs Heq. rewrite (Hrs rs Heq), <- app_assoc. reflexivity.
    + injection H as <- <-. split; [auto|]. discriminate.
Qed.

Lemma registered_candidate (b : Backend) (examId : string) (c : string * Candidate.t) :
  In c (List.filter (registered_to examId) (docs (candidates (store b)))) ->
  candidates (store b) !! c.1 = Some c.2 /\ Candidate.exam c.2 = VStr examId.
Proof.
  intros H. apply filter_In in H as [Hin Hreg]. destruct c as [cid cdata].
  apply In_docs in Hin. apply strict_eq_str in Hreg. auto.
Qed.

(** C7. When no exam's scheduled date equals the current date, the
    results request materializes nothing and scores nobody: the backend
    is unchanged, the response carries no results and, the store being up,
    is 404 "No exam found for today".  When the lookup finds an exam, it is
    an exam dated today, every result materialized by the request is
    filed under that exam for a candidate registered to it, and the
    results of a 200 response are those of the candidates registered to
    it. *)
Theorem today_exam_selection renv b :
  let out := today_exam_results renv b in
  ((forall doc dt, In doc (Exams b) -> Exam.dateTime doc = Some dt ->
                   DateTime.date dt <> VStr (today renv)) ->
     out.1 = b
     /\ (forall n d s e m rs, results_body out.2 <> ExamResults n d s e m rs)
     /\ (firestore_up (base_env renv) = true ->
           out.2 = {| results_status := 404;
                      results_body := NoExamToday "No exam found for today" |}))
  /\ (forall doc dt,
        find_today renv (Exams b) = Some (doc, dt) ->
        (In doc (Exams b) /\ Exam.dateTime doc = Some dt
         /\ DateTime.date dt = VStr (today renv))
        /\ (forall key v,
              Results out.1 !! key = Some v ->
              Results b !! key = Some v
              \/ (key.1 = Exam.id doc
                  /\ exists cdata,
                       candidates (store b) !! key.2 = Some cdata
                       /\ Candidate.exam cdata = VStr (Exam.id doc)
                       /\ v.1 = score_of (store b) (Exam.Questions doc) (key.2, cdata)))
        /\ (forall n d s e m rs,
              results_body out.2 = ExamResults n d s e m rs ->
              n = Exam.id doc
              /\ rs = List.map (score_of (store b) (Exam.Questions doc))
                        (List.filter (registered_to (Exam.id doc))
                           (docs (candidates (store b))))
              /\ forall r, In r rs ->
                   exists cdata,
                     candidates (store b) !! Result.registrationNumber r = Some cdata
                     /\ Candidate.exam cdata = VStr (Exam.id doc))).
Proof.
  cbn zeta. unfold today_exam_results. split.
  - intros Hnone. rewrite (find_today_None _ _ Hnone).
    destruct (firestore_up (base_env renv)); cbn [negb fst snd results_body].
    + split; [reflexivity|]. split; [discriminate|reflexivity].
    + split; [reflexivity|]. split; [discriminate|discriminate].
  - intros doc dt Hfind. split; [exact (find_today_Some _ _ _ _ Hfind)|].
    rewrite Hfind. destruct (firestore_up (base_env renv)); cbn [negb fst snd results_body].
    2:{ split; [auto|]. discriminate. }
    destruct (score_candidates renv (Exam.id doc) (Exam.Questions doc) (store b) 0
                (List.filter (registered_to (Exam.id doc)) (docs (candidates (store b))))
                (Results b) []) as [db out] eqn:Hloop.
    apply score_candidates_spec in Hloop as (Hdb & Hrs).
    assert (Hkeys : forall key v,
               db !! key = Some v ->
               Results b !! key = Some v
               \/ (key.1 = Exam.id doc
                   /\ exists cdata,
                        candidates (store b) !! key.2 = Some cdata
                        /\ Candidate.exam cdata = VStr (Exam.id doc)
                        /\ v.1 = score_of (store b) (Exam.Questions doc) (key.2, cdata))).
    { intros key v Hv. destruct (Hdb key v Hv) as [Hold|(c & Hc & -> & Hval)];
        [left; exact Hold|right].
      apply registered_candidate in Hc as (Hc1 & Hc2). split; [reflexivity|].
      exists c.2. destruct c as [cid cdata]. auto. }
    destruct out as [results|e]; cbn [fst snd Results results_body].
    + split; [exact Hkeys|]. intros n d s e m rs [= <- _ _ _ _ <-].
      split; [reflexivity|]. rewrite (Hrs results eq_refl). cbn [app].
      split; [reflexivity|]. intros r Hr. apply in_map_iff in Hr as (c & <- & Hc).
      apply registered_candidate in Hc as (Hc1 & Hc2).
      exists c.2. unfold score_of, resultData.
      destruct (tally _ _). cbn [Result.registrationNumber]. auto.
    + split; [exact Hkeys|]. discriminate.
Qed.

Lemma today_exam_selection_witness :
  (today_exam_results (Sample.results_env "2025-03-02") Sample.backend).2
  = {| results_status := 404;
       results_body := NoExamToday "No exam found for today" |}.
Proof.
  destruct (today_exam_selection (Sample.results_env "2025-03-02") Sample.backend)
    as (H & _).
  destruct H as (_ & _ & H404).
  - intros doc dt [<-|[]] [= <-]. discriminate.
  - apply H404. reflexivity.
Defined.

(** ** Payment verification *)

(** C9. The payment endpoint recomputes the HMAC-SHA256 digest of
    [orderId + "|" + paymentId] under the configured secret and compares
    it with the signature of the request.  Whenever the two differ the
    request is answered 400 and the gateway is not called; with the three
    parameters present the answer is "Invalid payment signature".  The
    gateway is called, and a payment reported verified, only when the
    signature equals the recomputed digest. *)
Theorem payment_signature_checked g req :
  let out := verify_payment g req in
  let text := JS.to_string (VerifyPayment.orderId req) ++ "|"
              ++ JS.to_string (VerifyPayment.paymentId req) in
  (forall secret,
      RAZORPAY_KEY_SECRET g = Some secret ->
      VerifyPayment.signature req <> VStr (hmac_sha256_hex g secret text) ->
      payment_status out.1 = 400
      /\ out.2 = []
      /\ (truthy (VerifyPayment.orderId req) = true ->
          truthy (VerifyPayment.paymentId req) = true ->
          truthy (VerifyPayment.signature req) = true ->
          out.1 = {| payment_status := 400;
                     payment_body := PaymentFailure "Invalid payment signature" |}))
  /\ (out.2 <> [] ->
        exists secret,
          RAZORPAY_KEY_SECRET g = Some secret
          /\ VerifyPayment.signature req = VStr (hmac_sha256_hex g secret text))
  /\ (forall o p payment,
        payment_body out.1 = Verified o p payment ->
        exists secret,
          RAZORPAY_KEY_SECRET g = Some secret
          /\ VerifyPayment.signature req = VStr (hmac_sha256_hex g secret text)).
Proof.
  cbn zeta. unfold verify_payment, generated_signature. cbn zeta.
  destruct (negb (truthy (VerifyPayment.orderId req))
            || negb (truthy (VerifyPayment.paymentId req))
            || negb (truthy (VerifyPayment.signature req))) eqn:Hmiss.
  { cbn [fst snd payment_status payment_body]. split.
    - intros secret _ _. split; [reflexivity|]. split; [reflexivity|].
      intros H1 H2 H3. rewrite H1, H2, H3 in Hmiss. discriminate.
    - split; [intros H; contradiction|discriminate]. }
  destruct (RAZORPAY_KEY_SECRET g) as [secret|].
  2:{ cbn [fst snd payment_status payment_body]. split; [discriminate|].
      split; [intros H; contradiction|discriminate]. }
  destruct (strict_eq (VStr (hmac_sha256_hex g secret _)) (VerifyPayment.signature req))
    eqn:Heq; cbn [negb fst snd payment_status payment_body].
  - apply strict_eq_str_l in Heq. split.
    + intros secret' [= <-] Hne. contradiction.
    + split; eauto.
  - split.
    + intros secret' [= <-] _. auto.
    + split; [intros H; contradiction|discriminate].
Qed.

Lemma payment_signature_checked_witness :
  (verify_payment Sample.gateway Sample.forged).1
  = {| payment_status := 400;
       payment_body := PaymentFailure "Invalid payment signature" |}.
Proof.
  destruct (payment_signature_checked Sample.gateway Sample.forged) as (H & _).
  destruct (H "secret") as (_ & _ & Hresp).
  - reflexivity.
  - discriminate.
  - apply Hresp; reflexivity.
Defined.

(** ** The scenarios of the specification *)

Lemma stale_answers_ignored_witness :
  resultData "REG1" (Sample.candidate "Asha") Sample.questions
    [Sample.stored 1 1; Sample.stale; Sample.stored 2 2; Sample.stored_skip 3]
  = resultData "REG1" (Sample.candidate "Asha") Sample.questions Sample.reg1_answers.
Proof.
  apply (stale_answers_ignored "REG1" (Sample.candidate "Asha") Sample.questions
           Sample.reg1_answers [Sample.stale]).
  - reflexivity.
  - apply Interleave_left, Interleave_right, Interleave_left, Interleave_left,
      Interleave_nil.
Defined.

Example parseInt_digit : parseInt (VStr "2") = Int 2.
Proof. reflexivity. Qed.

Example parseInt_zero : parseInt (VNum (Int 0)) = Int 0.
Proof. vm_compute. reflexivity. Qed.

Example parseInt_null : parseInt VNull = NaN.
Proof. reflexivity. Qed.

Example parseInt_prefix : parseInt (VStr "  -12px") = Int (-12).
Proof. reflexivity. Qed.

Example parseInt_hex : parseInt (VStr "0x1f") = Int 31.
Proof. reflexivity. Qed.

(** Above 2^53 the value read is rounded to the nearest double, ties to
    even. *)
Example parseInt_rounds_down : parseInt (VStr "9007199254740993") = Int 9007199254740992.
Proof. vm_compute. reflexivity. Qed.

Example parseInt_rounds_up : parseInt (VStr "9007199254740995") = Int 9007199254740996.
Proof. vm_compute. reflexivity. Qed.

Example parseInt_largest :
  parseInt (VStr (pretty (2 ^ 1024 - 2 ^ 970 - 1))) = Int (2 ^ 1024 - 2 ^ 971).
Proof. vm_compute. reflexivity. Qed.

Example parseInt_overflows :
  parseInt (VStr (pretty (2 ^ 1024 - 2 ^ 970))) = Infinity false.
Proof. vm_compute. reflexivity. Qed.

(** A no-break space (U+00A0, the bytes 194 160) and a line separator
    (U+2028, the bytes 226 128 168) are skipped as the space is. *)
Example parseInt_no_break_space :
  parseInt (VStr (String (ascii_of_nat 194) (String (ascii_of_nat 160) "7"))) = Int 7.
Proof. vm_compute. reflexivity. Qed.

Example parseInt_line_separator :
  parseInt (VStr (String (ascii_of_nat 226) (String (ascii_of_nat 128)
                    (String (ascii_of_nat 168) " -7")))) = Int (-7).
Proof. vm_compute. reflexivity. Qed.

(** Math101: one correct, one wrong, one skipped. *)
Example math101_reg1 :
  resultData "REG1" (Sample.candidate "Asha") Sample.questions Sample.reg1_answers
  = {| Result.registrationNumber := "REG1";
       Result.candidateName := VStr "Asha";
       Result.phone := VStr "9000000000";
       Result.totalQuestions := 3;
       Result.correctAnswers := 1;
       Result.skippedQuestions := 1;
       Result.wrongAnswers := 1 |}.
Proof. reflexivity. Qed.

(** No answer at all on five questions. *)
Example five_questions_no_answers :
  resultData "REG2" (Sample.candidate "Ravi") Sample.five_questions []
  = {| Result.registrationNumber := "REG2";
       Result.candidateName := VStr "Ravi";
       Result.phone := VStr "9000000000";
       Result.totalQuestions := 5;
       Result.correctAnswers := 0;
       Result.skippedQuestions := 5;
       Result.wrongAnswers := 0 |}.
Proof. vm_compute. reflexivity. Qed.

(** On the day of Math101 the two candidates registered to it are scored,
    in document order, and the candidate of another exam is not. *)
Example math101_results :
  let out := today_exam_results (Sample.results_env "2025-03-01") Sample.backend in
  results_status out.2 = 200
  /\ (exists n d s e m r1 r2,
         results_body out.2 = ExamResults n d s e m [r1; r2]
         /\ Result.registrationNumber r1 = "REG1"
         /\ (Result.correctAnswers r1, Result.skippedQuestions r1, Result.wrongAnswers r1)
            = (1, 1, 1)
         /\ Result.registrationNumber r2 = "REG2"
         /\ (Result.correctAnswers r2, Result.skippedQuestions r2, Result.wrongAnswers r2)
            = (0, 3, 0))
  /\ is_Some (Results out.1 !! ("Math101", "REG1"))
  /\ Results out.1 !! ("Math101", "REG9") = None.
Proof.
  vm_compute. split; [reflexivity|]. split; [|split; [eauto|reflexivity]].
  do 7 eexists. split; [reflexivity|]. repeat split.
Qed.

(** The same tuple through the bulk route is stored with a [null] answer. *)
Example bulk_skipped_is_null :
  answers (save_all_answers Sample.env Sample.store0 (Some [Sample.third_skipped])).1
    !! ("REG1", "Q3")
  = Some {| Answer.examName := VStr "Math101";
            Answer.timestamp := clock Sample.env 0;
            Answer.order := VNum (Int 3);
            Answer.answer := VNull;
            Answer.skipped := VBool true;
            Answer.submittedVia := None |}.
Proof. vm_compute. reflexivity. Qed.

(** A question identifier that is not a string makes the completion
    request fail as a whole: the candidate is not marked submitted. *)
Example completion_all_or_nothing :
  complete_exam Sample.env Sample.store0
    (CompleteExam.mk (VStr "REG1") (VStr "Math101")
       (Some [Sample.second;
              Tuple.mk (VStr "REG1") (VNum (Int 3)) (VNum (Int 1)) (VStr "Math101")
                (VNum (Int 3)) (VBool false)])
       (VBool true))
  = (Sample.store0,
     {| status := 500; body := FailureDetails "Failed to complete exam" TypeError |}).
Proof. vm_compute. reflexivity. Qed.


(** * Further properties of the handlers *)

(** ** Plans *)

Lemma handle_plan env st r : handle env st r = execute env st (plan env r).
Proof.
  destruct r as [t|a|a|req]; simpl.
  - unfold save_answer. destruct (save_answer_missing t); [reflexivity|].
    simpl. destruct (individual_write env 0 t); reflexivity.
  - unfold save_all_answers.
    destruct (negb (isArray a) || (length (elements a) =? 0)%nat); reflexivity.
  - unfold timeout_save_answers. destruct (negb (isArray a)); [reflexivity|].
    cbn zeta. destruct (length (List.filter attempted (elements a)) =? 0)%nat;
      reflexivity.
  - unfold complete_exam. destruct (complete_exam_invalid req); [reflexivity|].
    cbn zeta. simpl.
    destruct (candidateDocRef (CompleteExam.candidateId req)); [|reflexivity]. simpl.
    destruct (forEach _ 1 _); reflexivity.
Qed.

Lemma plan_batch env r b done failed :
  plan env r = Commit (Ret b) done failed ->
  status done = 200
  /\ (forall e, status (failed e) = 500)
  /\ exists ws, b = (candidate_update env r ++ ws)%list
                /\ Forall2 (built_for env r) (batch_of r) ws.
Proof.
  destruct r as [t|a|a|req]; simpl.
  - destruct (save_answer_missing t); [discriminate|].
    destruct (individual_write env 0 t) as [w|e] eqn:Hw; [|discriminate].
    intros [= <- <- <-]. split; [reflexivity|]. split; [reflexivity|].
    exists [w]. split; [reflexivity|].
    constructor; [|constructor]. exact (individual_write_built _ _ _ _ Hw).
  - destruct (negb (isArray a) || (length (elements a) =? 0)%nat); [discriminate|].
    intros [= Hws <- <-]. split; [reflexivity|]. split; [reflexivity|].
    exists b. split; [reflexivity|].
    apply forEach_Ret in Hws. revert Hws. apply Forall2_impl_ex.
    intros j x w. apply bulk_write_built.
  - destruct (negb (isArray a)); [discriminate|].
    destruct (length (List.filter attempted (elements a)) =? 0)%nat; [discriminate|].
    intros [= Hws <- <-]. split; [reflexivity|]. split; [reflexivity|].
    exists b. split; [reflexivity|].
    apply forEach_Ret in Hws. revert Hws. apply Forall2_impl_ex.
    intros j x w. apply timeout_write_built.
  - destruct (complete_exam_invalid req); [discriminate|]. cbn zeta.
    destruct (candidateDocRef (CompleteExam.candidateId req)) as [c|e] eqn:Hdoc;
      [|discriminate].
    simpl. destruct (forEach _ 1 _) as [ws|e] eqn:Hws; [|discriminate].
    intros [= <- <- <-]. split; [reflexivity|]. split; [reflexivity|].
    exists ws. unfold candidate_update, candidate_ref. rewrite Hdoc.
    split; [reflexivity|].
    apply forEach_Ret in Hws. revert Hws. apply Forall2_impl_ex.
    intros j x w. apply completion_write_built. exact Hdoc.
Qed.

Lemma plan_failed_status env r batch done failed e :
  plan env r = Commit batch done failed -> status (failed e) = 500.
Proof.
  destruct r as [t|a|a|req]; simpl.
  - destruct (save_answer_missing t); [discriminate|]. intros [= _ _ <-]. reflexivity.
  - destruct (negb (isArray a) || (length (elements a) =? 0)%nat); [discriminate|].
    intros [= _ _ <-]. reflexivity.
  - destruct (negb (isArray a)); [discriminate|].
    destruct (length (List.filter attempted (elements a)) =? 0)%nat; [discriminate|].
    intros [= _ _ <-]. reflexivity.
  - destruct (complete_exam_invalid req); [discriminate|].
    intros [= _ _ <-]. reflexivity.
Qed.


Lemma plan_answer_now env env' r resp :
  plan env r = Answer_now resp -> plan env' r = Answer_now resp.
Proof.
  destruct r as [t|a|a|req]; simpl.
  - destruct (save_answer_missing t); [auto|discriminate].
  - destruct (negb (isArray a) || (length (elements a) =? 0)%nat); [auto|discriminate].
  - destruct (negb (isArray a)); [auto|].
    destruct (length (List.filter attempted (elements a)) =? 0)%nat; [auto|discriminate].
  - destruct (complete_exam_invalid req); [auto|discriminate].
Qed.

(** ** What a batch leaves in the store *)

(** After the batch of a request a document is the last record the batch
    sets there; or it is the document of the candidate, marked; or it is
    what it was. *)
Lemma batch_lookup env r ws st p :
  Forall2 (built_for env r) (batch_of r) ws ->
  documents (fold_left apply_write (candidate_update env r ++ ws) st) !! p
  = match last_set ws p with
    | Some d => Some (answer_doc d)
    | None =>
        if decide (candidate_ref r = Some p)
        then mark (VBool true) (VStr (clock env 0)) <$> documents st !! p
        else documents st !! p
    end.
Proof.
  intros Hws. rewrite fold_left_app.
  rewrite (fold_sets_lookup ws _ p (built_for_is_set _ _ _ _ Hws)).
  rewrite lookup_candidate_update. reflexivity.
Qed.

(** The batches of one request set the same documents at any clock. *)
Lemma last_set_same_refs env1 env2 r ws1 ws2 p :
  Forall2 (built_for env1 r) (batch_of r) ws1 ->
  Forall2 (built_for env2 r) (batch_of r) ws2 ->
  last_set ws2 p = None -> last_set ws1 p = None.
Proof.
  intros H1 H2 Hnone. destruct (last_set ws1 p) as [d|] eqn:Hl; [|reflexivity].
  destruct (last_set_built _ _ _ _ _ H1 Hl) as (t & j & Ht & Href & _).
  destruct (Forall2_In_l _ _ _ _ H2 Ht) as (w & Hw & j' & ref & Href' & ->).
  rewrite Href in Href'. injection Href' as <-.
  destruct (last_set_In _ _ _ Hw) as (d' & Hd'). congruence.
Qed.

Lemma mark_twice s t1 t2 d : mark s t2 (mark s t1 d) = mark s t2 d.
Proof. reflexivity. Qed.

Lemma precondition_after env r ws st batch :
  Forall2 (built_for env r) (batch_of r) ws ->
  (forall w, In w batch -> is_set w = true
                           \/ exists s t c, w = UpdateCandidate c s t
                                            /\ candidate_ref r = Some c) ->
  forallb (precondition (fold_left apply_write (candidate_update env r ++ ws) st)) batch
  = forallb (precondition st) batch.
Proof.
  intros Hws Hb. induction batch as [|w batch IH]; [reflexivity|]. cbn [forallb].
  rewrite IH by (intros w' Hw'; apply Hb; right; exact Hw'). f_equal.
  destruct (Hb w (or_introl eq_refl)) as [Hset|(s & t & c & -> & Hc)].
  - destruct w; [discriminate|reflexivity].
  - cbn [precondition]. apply bool_decide_ext.
    rewrite (batch_lookup env r ws st c Hws), (last_set_candidate _ _ _ _ Hws Hc).
    rewrite decide_True by exact Hc. rewrite !is_Some_alt.
    destruct (documents st !! c); reflexivity.
Qed.

Lemma batch_writes env r ws w :
  Forall2 (built_for env r) (batch_of r) ws ->
  In w (candidate_update env r ++ ws) ->
  is_set w = true
  \/ exists s t c, w = UpdateCandidate c s t /\ candidate_ref r = Some c.
Proof.
  intros Hws Hin. apply in_app_or in Hin as [Hin|Hin].
  - right. unfold candidate_update in Hin.
    destruct (candidate_ref r) as [c|]; [|destruct Hin].
    destruct Hin as [<-|[]]. eauto.
  - left. pose proof (built_for_is_set _ _ _ _ Hws) as H.
    rewrite forallb_forall in H. exact (H w Hin).
Qed.

(** Running a request again, on the store its first run left, answers as
    running it on the original store does and, when that is 200, ends in
    the same store. *)
Lemma rerun env1 env2 st r :
  (handle env2 (handle env1 st r).1 r).2 = (handle env2 st r).2
  /\ (status (handle env2 st r).2 = 200 ->
      (handle env2 (handle env1 st r).1 r).1 = (handle env2 st r).1).
Proof.
  rewrite (handle_plan env1).
  destruct (plan env1 r) as [resp1|batch1 done1 failed1] eqn:Hp1; [simpl; auto|].
  destruct batch1 as [b1|e1]; [|simpl; auto].
  cbn [execute mbind Exn_bind].
  destruct (commit env1 st b1) as [st1|e1] eqn:Hc1; [|simpl; auto].
  cbn [fst]. apply commit_Ret in Hc1 as (_ & _ & ->).
  rewrite !(handle_plan env2).
  destruct (plan env2 r) as [resp2|batch2 done2 failed2] eqn:Hp2.
  { apply (plan_answer_now env2 env1) in Hp2. congruence. }
  apply plan_batch in Hp1 as (_ & _ & ws1 & -> & Hws1).
  destruct batch2 as [b2|e2].
  2:{ simpl. split; [reflexivity|].
      rewrite (plan_failed_status _ _ _ _ _ e2 Hp2). discriminate. }
  pose proof (plan_failed_status _ _ _ _ _ Unavailable Hp2) as Hf1.
  pose proof (plan_failed_status _ _ _ _ _ NotFound Hp2) as Hf2.
  apply plan_batch in Hp2 as (_ & _ & ws2 & -> & Hws2).
  cbn [execute mbind Exn_bind]. unfold commit.
  rewrite (precondition_after env1 r ws1 st _ Hws1)
    by (intros w Hw; exact (batch_writes env2 r ws2 w Hws2 Hw)).
  destruct (firestore_up env2); cbn [negb].
  2:{ split; [reflexivity|]. cbn [snd]. rewrite Hf1. discriminate. }
  destruct (forallb (precondition st) (candidate_update env2 r ++ ws2)).
  2:{ split; [reflexivity|]. cbn [snd]. rewrite Hf2. discriminate. }
  cbn [fst snd]. split; [reflexivity|]. intros _. apply Store_eq.
  apply map_eq. intros p.
  rewrite !(batch_lookup env2 r ws2 _ p Hws2).
  destruct (last_set ws2 p) as [d|] eqn:H2; [reflexivity|].
  rewrite (batch_lookup env1 r ws1 st p Hws1).
  rewrite (last_set_same_refs _ _ _ _ _ _ Hws1 Hws2 H2).
  destruct (decide (candidate_ref r = Some p)); [|reflexivity].
  destruct (documents st !! p); reflexivity.
Qed.

(** X1. A request changes no document other than the documents its
    tuples address and, on the completion route, the document its candidate
    identifier names: any other document, or absence of a document, is as
    before. *)
Theorem other_slots_untouched env st r ref :
  candidate_ref r <> Some ref ->
  (forall t, In t (batch_of r) -> answer_ref r t <> Ret ref) ->
  documents (handle env st r).1 !! ref = documents st !! ref.
Proof.
  intros Hc Href.
  destruct (handle_documents env st r _ _ (surjective_pairing _))
    as [(_ & ->)|(_ & ws & Hws & _ & Hdoc)]; [reflexivity|].
  rewrite Hdoc. destruct (last_set ws ref) as [d|] eqn:Hl.
  - destruct (last_set_built _ _ _ _ _ Hws Hl) as (t & j & Ht & Ht' & _).
    destruct (Href t Ht Ht').
  - rewrite decide_False by exact Hc. reflexivity.
Qed.

Lemma other_slots_untouched_witness :
  documents
    (handle Sample.env (store Sample.backend)
       (CompleteExamReq
          (CompleteExam.mk (VStr "REG1/answers/Q1") (VStr "Math101")
             (Some [Sample.second]) VUndefined))).1
    !! ["candidates"; "REG1"; "answers"; "Q2"]
  = documents (store Sample.backend) !! ["candidates"; "REG1"; "answers"; "Q2"].
Proof.
  apply other_slots_untouched.
  - vm_compute. discriminate.
  - intros t [<-|[]]. vm_compute. discriminate.
Defined.

(** X2. Last write wins, whole record: when a request is repeated (with
    other timestamps, or after any outcome of its first run), the second
    run answers as if the first had not happened and, answered 200, leaves
    the store exactly as a single run would: nothing of the first run's
    records survives, nothing accumulates. *)
Theorem repeated_request_supersedes env1 env2 st r :
  (handle env2 (handle env1 st r).1 r).2 = (handle env2 st r).2
  /\ (status (handle env2 st r).2 = 200 ->
      (handle env2 (handle env1 st r).1 r).1 = (handle env2 st r).1).
Proof. apply rerun. Qed.

Lemma repeated_request_supersedes_witness :
  (handle Sample.env
     (handle {| clock := fun _ => "2025-03-01T08:00:00Z"; firestore_up := true |}
        Sample.store0 (SaveAnswer Sample.second)).1
     (SaveAnswer Sample.second)).1
  = (handle Sample.env Sample.store0 (SaveAnswer Sample.second)).1.
Proof.
  apply (repeated_request_supersedes
           {| clock := fun _ => "2025-03-01T08:00:00Z"; firestore_up := true |}
           Sample.env Sample.store0 (SaveAnswer Sample.second)).
  vm_compute. reflexivity.
Defined.

(** X3. Submitting is idempotent: running the same request again under
    the same clock readings gives the same answer and leaves the store
    unchanged. *)
Theorem handle_idempotent env st r :
  handle env (handle env st r).1 r = handle env st r.
Proof.
  destruct (rerun env env st r) as (Hresp & Hstore).
  rewrite (surjective_pairing (handle env (handle env st r).1 r)), Hresp.
  rewrite (surjective_pairing (handle env st r)) at 3. f_equal.
  destruct (handle_cases env st r _ _ (surjective_pairing _))
    as [(_ & Heq)|(H200 & _)].
  - rewrite Heq. exact Heq.
  - rewrite (Hstore H200). reflexivity.
Qed.

(** ** No partial batch *)

(** A request is answered 200 only if the write of every tuple could be
    prepared. *)
Lemma handle_200_storable env st r t :
  status (handle env st r).2 = 200 ->
  In t (batch_of r) ->
  storable_for r t = true.
Proof.
  destruct r as [t0|a|a|req]; cbn [handle batch_of].
  - unfold save_answer. destruct (save_answer_missing t0); [discriminate|].
    intros H [<-|[]].
    change (individual_write env 0 t0) with (write_of env (SaveAnswer t0) 0 t0) in H.
    apply (write_of_storable env (SaveAnswer t0) 0 t0).
    destruct (write_of env (SaveAnswer t0) 0 t0) as [w|e]; [eauto|discriminate H].
  - unfold save_all_answers. destruct (negb (isArray a) || _); [discriminate|].
    change (forEach (bulk_write env) 0 (elements a))
      with (forEach (write_of env (SaveAllAnswers a)) 0 (elements a)).
    intros H. apply (forEach_storable env (SaveAllAnswers a) 0 (elements a)).
    destruct (forEach _ 0 (elements a)) as [ws|e]; [eauto|discriminate H].
  - unfold timeout_save_answers. destruct (negb (isArray a)); [discriminate|].
    cbv zeta. destruct (length (List.filter attempted (elements a)) =? 0)%nat eqn:Hlen.
    { intros _ Ht. apply Nat.eqb_eq in Hlen.
      destruct (List.filter attempted (elements a)); [destruct Ht|discriminate]. }
    change (forEach (timeout_write env) 0 (List.filter attempted (elements a)))
      with (forEach (write_of env (TimeoutSaveAnswers a)) 0
              (List.filter attempted (elements a))).
    intros H. apply (forEach_storable env (TimeoutSaveAnswers a) 0).
    destruct (forEach _ 0 _) as [ws|e]; [eauto|discriminate H].
  - unfold complete_exam. destruct (complete_exam_invalid req); [discriminate|].
    cbv zeta.
    destruct (candidateDocRef (CompleteExam.candidateId req)) as [c|e] eqn:Hc;
      cbn [mbind Exn_bind]; [|discriminate].
    rewrite (completion_forEach env req c 1 _ Hc).
    intros H. apply (forEach_storable env (CompleteExamReq req) 1).
    destruct (forEach _ 1 _) as [ws|e]; [eauto|discriminate H].
Qed.

(** X4. No partial batch.  A request of any route is answered 200 only
    if every one of its tuples is storable: its candidate and question
    identifiers name a document (strings, the candidate's non-empty, no
    empty path segment inside, an even number of path segments in all),
    and neither the exam name nor [order] is [undefined].  One tuple that
    fails this makes the whole request fail and leaves the store as it was,
    also for the tuples that are fine. *)
Theorem one_bad_tuple_fails_the_batch env st r t :
  In t (batch_of r) ->
  storable_for r t = false ->
  status (handle env st r).2 <> 200 /\ (handle env st r).1 = st.
Proof.
  intros Ht Hbad.
  assert (Hne : status (handle env st r).2 <> 200).
  { intros H200. rewrite (handle_200_storable env st r t H200 Ht) in Hbad.
    discriminate. }
  split; [exact Hne|].
  destruct (handle_cases env st r _ _ (surjective_pairing _))
    as [(_ & Heq)|(H200 & _)]; [exact Heq|contradiction].
Qed.

Lemma one_bad_tuple_fails_the_batch_witness :
  (handle Sample.env Sample.store0
     (SaveAllAnswers
        (Some [Sample.first_option;
               Sample.tuple "REG1" "Q2/x" (VNum (Int 1)) 2 (VBool false)]))).1
  = Sample.store0.
Proof.
  apply (one_bad_tuple_fails_the_batch Sample.env Sample.store0 _
           (Sample.tuple "REG1" "Q2/x" (VNum (Int 1)) 2 (VBool false))).
  - right. left. reflexivity.
  - reflexivity.
Defined.

Example nested_question_id_is_stored :
  status (handle Sample.env Sample.store0
            (SaveAnswer (Sample.tuple "REG1" "Q1/x/y" (VNum (Int 1)) 1 (VBool false)))).2
  = 200.
Proof. reflexivity. Qed.

Example completion_of_an_answer_path :
  let out := handle Sample.env (store Sample.backend)
               (CompleteExamReq
                  (CompleteExam.mk (VStr "REG1/answers/Q1") (VStr "Math101")
                     (Some []) VUndefined)) in
  status out.2 = 200
  /\ Candidate.submitted
       <$> (Document.candidate
              <$> documents out.1 !! ["candidates"; "REG1"; "answers"; "Q1"])
     = Some (VBool true)
  /\ candidates out.1 = candidates (store Sample.backend)
  /\ answers out.1 = answers (store Sample.backend).
Proof. cbv zeta. repeat split; vm_compute; reflexivity. Qed.

(** ** Scoring does not depend on the order of its inputs *)

Lemma count_Permutation {A} (p : A -> bool) (l l' : list A) :
  Permutation l l' -> count p l = count p l'.
Proof.
  unfold count. induction 1 as [|x l l' _ IH|x y l|l l' l'' _ IH1 _ IH2].
  - reflexivity.
  - simpl. destruct (p x); simpl; lia.
  - simpl. destruct (p x), (p y); reflexivity.
  - lia.
Qed.

(** X5. The result of a candidate does not depend on the order in which
    the questions are read: any permutation of the question list gives the
    same record. *)
Theorem question_order_irrelevant (candidateId : string) (candidateData : Candidate.t)
    (examQuestions examQuestions' : list Question.t) (answers : list Answer.t) :
  Permutation examQuestions examQuestions' ->
  resultData candidateId candidateData examQuestions' answers
  = resultData candidateId candidateData examQuestions answers.
Proof.
  intros Hp. unfold resultData. rewrite !tally_counts.
  rewrite <- !(count_Permutation _ _ _ Hp), (Permutation_length Hp). reflexivity.
Qed.

Lemma question_order_irrelevant_witness :
  resultData "REG1" (Sample.candidate "Asha") (rev Sample.questions) Sample.reg1_answers
  = resultData "REG1" (Sample.candidate "Asha") Sample.questions Sample.reg1_answers.
Proof.
  apply question_order_irrelevant. apply Permutation_rev.
Defined.

Lemma strict_eq_true (a b : Value) : strict_eq a b = true -> a = b.
Proof.
  destruct a as [| |x|[x| |x]|x], b as [| |y|[y| |y]|y]; simpl; try discriminate;
    try reflexivity.
  - intros H. apply Bool.eqb_prop in H. congruence.
  - intros H. apply Z.eqb_eq in H. congruence.
  - intros H. apply Bool.eqb_prop in H. congruence.
  - intros H. apply String.eqb_eq in H. congruence.
Qed.

Lemma filter_Permutation_list {A} (p : A -> bool) (l l' : list A) :
  Permutation l l' -> Permutation (List.filter p l) (List.filter p l').
Proof.
  induction 1 as [|x l l' _ IH|x y l|l l' l'' _ IH1 _ IH2].
  - constructor.
  - simpl. destruct (p x); [constructor|]; exact IH.
  - simpl. destruct (p x), (p y); try reflexivity. constructor.
  - etransitivity; eassumption.
Qed.

Lemma filter_none {A} (p : A -> bool) (l : list A) :
  (forall x, In x l -> p x = false) -> List.filter p l = [].
Proof.
  induction l as [|x l IH]; intros H; [reflexivity|]. simpl.
  rewrite (H x (or_introl eq_refl)). apply IH. intros y Hy. apply H. right. exact Hy.
Qed.

Lemma distinct_orders_filter (answers : list Answer.t) (q : Question.t) :
  distinct_orders answers = true ->
  (length (List.filter (same_order q) answers) <= 1)%nat.
Proof.
  induction answers as [|a rest IH]; [simpl; lia|].
  cbn [distinct_orders]. intros H. apply andb_prop in H as [Ha Hrest].
  specialize (IH Hrest). cbn [List.filter].
  destruct (same_order q a) eqn:Hq; [|exact IH].
  replace (List.filter (same_order q) rest) with (@nil Answer.t); [simpl; lia|].
  symmetry. apply filter_none. intros b Hb.
  destruct (same_order q b) eqn:Hqb; [|reflexivity]. exfalso.
  rewrite forallb_forall in Ha. specialize (Ha b Hb).
  unfold same_order in Hq, Hqb.
  pose proof (strict_eq_true _ _ Hq) as E1. pose proof (strict_eq_true _ _ Hqb) as E2.
  rewrite E1, E2 in Ha. rewrite E2 in Hqb. rewrite Hqb in Ha. discriminate.
Qed.

Lemma Permutation_short {A} (l l' : list A) :
  Permutation l l' -> (length l <= 1)%nat -> l = l'.
Proof.
  intros Hp Hlen. destruct l as [|x [|y l]]; [| |simpl in Hlen; lia].
  - apply Permutation_nil in Hp. congruence.
  - apply Permutation_length_1_inv in Hp. congruence.
Qed.

(** X6. When no two stored answers of a candidate carry the same order
    value, the result does not depend on the order in which the store
    returns the answers. *)
Theorem answer_order_irrelevant (candidateId : string) (candidateData : Candidate.t)
    (examQuestions : list Question.t) (answers answers' : list Answer.t) :
  distinct_orders answers = true ->
  Permutation answers answers' ->
  resultData candidateId candidateData examQuestions answers'
  = resultData candidateId candidateData examQuestions answers.
Proof.
  intros Hd Hp. unfold resultData, tally.
  rewrite (fold_left_ext_in (score_question answers') (score_question answers));
    [reflexivity|].
  intros acc q _. rewrite !score_question_counts.
  unfold counts_as_correct, counts_as_skipped.
  rewrite <- (Permutation_short _ _ (filter_Permutation_list (same_order q) _ _ Hp)
                (distinct_orders_filter _ q Hd)).
  reflexivity.
Qed.

Lemma answer_order_irrelevant_witness :
  resultData "REG1" (Sample.candidate "Asha") Sample.questions (rev Sample.reg1_answers)
  = resultData "REG1" (Sample.candidate "Asha") Sample.questions Sample.reg1_answers.
Proof.
  apply answer_order_irrelevant; [reflexivity|apply Permutation_rev].
Defined.

(** ** Materialization of results *)

Lemma score_candidates_frame renv e qs st cands :
  forall i db results key,
    (score_candidates renv e qs st i cands db results).1 !! key = db !! key
    \/ In key (result_keys e (accepted_prefix renv e cands)).
Proof.
  induction cands as [|[cid cdata] rest IH]; intros i db results key; [left; reflexivity|].
  cbn [score_candidates accepted_prefix fst].
  destruct (realtime_accepts renv e cid); [|left; reflexivity].
  destruct (IH (S i) (<[(e, cid) := (resultData cid cdata qs (stored_answers st cid),
                                     clock (base_env renv) i)]> db)
              (results ++ [resultData cid cdata qs (stored_answers st cid)])%list key)
    as [Heq|Hin].
  - destruct (decide ((e, cid) = key)) as [<-|Hne].
    + right. left. reflexivity.
    + left. rewrite Heq. apply lookup_insert_ne. exact Hne.
  - right. right. exact Hin.
Qed.

Lemma score_candidates_agree renv e qs st cands :
  forall i dbA dbB results,
    (forall key, dbA !! key = dbB !! key
                 \/ In key (result_keys e (accepted_prefix renv e cands))) ->
    score_candidates renv e qs st i cands dbA results
    = score_candidates renv e qs st i cands dbB results.
Proof.
  induction cands as [|[cid cdata] rest IH]; intros i dbA dbB results H.
  - simpl. f_equal. apply map_eq. intros key. destruct (H key) as [Hk|[]]. exact Hk.
  - cbn [score_candidates]. cbn [accepted_prefix fst] in H.
    destruct (realtime_accepts renv e cid).
    + apply IH. intros key. destruct (decide ((e, cid) = key)) as [<-|Hne].
      * left. rewrite !lookup_insert_eq. reflexivity.
      * rewrite !lookup_insert_ne by exact Hne.
        destruct (H key) as [Hk|[Hk|Hk]]; [left; exact Hk|contradiction|right; exact Hk].
    + f_equal. apply map_eq. intros key. destruct (H key) as [Hk|[]]. exact Hk.
Qed.

Lemma accepted_prefix_ext renv1 renv2 e cands :
  (forall c, realtime_accepts renv1 e c = realtime_accepts renv2 e c) ->
  accepted_prefix renv1 e cands = accepted_prefix renv2 e cands.
Proof.
  intros H. induction cands as [|c rest IH]; [reflexivity|].
  simpl. rewrite H, IH. reflexivity.
Qed.

Lemma find_today_ext renv1 renv2 l :
  today renv1 = today renv2 -> find_today renv1 l = find_today renv2 l.
Proof.
  intros H. induction l as [|d rest IH]; [reflexivity|].
  simpl. rewrite H, IH. reflexivity.
Qed.

(** X7. Recomputing overwrites.  When the results of the day are computed
    again (at other clock readings, the date and the Realtime Database
    behaving the same), the second run answers and ends exactly as a
    single run would: the earlier snapshot is replaced, nothing
    accumulates. *)
Theorem recomputed_results_supersede renv1 renv2 b :
  today renv1 = today renv2 ->
  (forall e c, realtime_accepts renv1 e c = realtime_accepts renv2 e c) ->
  firestore_up (base_env renv2) = true ->
  today_exam_results renv2 (today_exam_results renv1 b).1
  = today_exam_results renv2 b.
Proof.
  intros Htoday Hacc Hup.
  assert (Hb1 : exists db,
             (today_exam_results renv1 b).1
             = {| Exams := Exams b; store := store b; Results := db |}
             /\ (find_today renv2 (Exams b) = None -> db = Results b)
             /\ forall doc dt key,
                  find_today renv2 (Exams b) = Some (doc, dt) ->
                  db !! key = Results b !! key
                  \/ In key (result_keys (Exam.id doc)
                               (accepted_prefix renv2 (Exam.id doc)
                                  (List.filter (registered_to (Exam.id doc))
                                     (docs (candidates (store b))))))).
  { unfold today_exam_results.
    destruct (negb (firestore_up (base_env renv1))).
    { exists (Results b). split; [destruct b; reflexivity|].
      split; [reflexivity|]. intros; left; reflexivity. }
    rewrite (find_today_ext renv1 renv2 _ Htoday).
    destruct (find_today renv2 (Exams b)) as [[doc dt]|] eqn:Hfind.
    2:{ exists (Results b). split; [destruct b; reflexivity|].
        split; [reflexivity|discriminate]. }
    pose proof (score_candidates_frame renv1 (Exam.id doc) (Exam.Questions doc) (store b)
                  (List.filter (registered_to (Exam.id doc)) (docs (candidates (store b))))
                  0 (Results b) []) as Hframe.
    destruct (score_candidates renv1 _ _ _ 0 _ (Results b) []) as [db out].
    exists db. split; [destruct out; reflexivity|]. split; [discriminate|].
    intros doc' dt' key [= <- <-].
    rewrite <- (accepted_prefix_ext renv1 renv2 _ _ (Hacc (Exam.id doc))).
    exact (Hframe key). }
  destruct Hb1 as (db1 & -> & Hnone & Hkeys).
  unfold today_exam_results. cbn [Exams store Results]. rewrite Hup. cbn [negb].
  destruct (find_today renv2 (Exams b)) as [[doc dt]|] eqn:Hfind.
  - rewrite (score_candidates_agree renv2 _ _ _ _ 0 db1 (Results b) []
               (fun key => Hkeys doc dt key eq_refl)).
    reflexivity.
  - rewrite (Hnone eq_refl). destruct b; reflexivity.
Qed.

Lemma recomputed_results_supersede_witness :
  today_exam_results (Sample.results_env "2025-03-01")
    (today_exam_results
       {| base_env := {| clock := fun _ => "2025-03-01T18:00:00Z"; firestore_up := true |};
          today := "2025-03-01";
          realtime_accepts := fun _ _ => true |}
       Sample.backend).1
  = today_exam_results (Sample.results_env "2025-03-01") Sample.backend.
Proof.
  apply recomputed_results_supersede; reflexivity.
Defined.

Lemma NoDup_filter_fst {A B} (p : A * B -> bool) (l : list (A * B)) :
  NoDup l.*1 -> NoDup (List.filter p l).*1.
Proof.
  induction l as [|x l IH]; [intros; constructor|]. cbn [List.filter].
  rewrite fmap_cons, NoDup_cons. intros [Hx Hl]. destruct (p x); [|exact (IH Hl)].
  rewrite fmap_cons, NoDup_cons. split; [|exact (IH Hl)].
  intros Hin. apply Hx. apply list_elem_of_fmap in Hin as (y & Hy & Hin).
  apply list_elem_of_fmap. exists y. split; [exact Hy|].
  apply list_elem_of_In. apply list_elem_of_In, filter_In in Hin as [Hin _]. exact Hin.
Qed.

Lemma NoDup_docs {V} (m : gmap string V) : NoDup (docs m).*1.
Proof. unfold docs. rewrite merge_sort_Permutation. apply NoDup_fst_map_to_list. Qed.

Lemma accepted_prefix_app renv e pre c post :
  (forall x, In x pre -> realtime_accepts renv e x.1 = true) ->
  realtime_accepts renv e c.1 = false ->
  accepted_prefix renv e (pre ++ c :: post) = pre.
Proof.
  intros Hpre Hc. induction pre as [|x pre IH]; simpl.
  - rewrite Hc. reflexivity.
  - rewrite (Hpre x (or_introl eq_refl)). f_equal. apply IH.
    intros y Hy. apply Hpre. right. exact Hy.
Qed.

Lemma score_candidates_refused renv e qs st pre c post :
  (forall x, In x pre -> realtime_accepts renv e x.1 = true) ->
  realtime_accepts renv e c.1 = false ->
  forall i db results,
    (score_candidates renv e qs st i (pre ++ c :: post) db results).2
    = Throw Unavailable.
Proof.
  intros Hpre Hc. induction pre as [|[xid xd] pre IH]; intros i db results.
  - destruct c as [cid cdata]. simpl in Hc |- *. rewrite Hc. reflexivity.
  - cbn [app score_candidates].
    pose proof (Hpre (xid, xd) (or_introl eq_refl)) as Hx. cbn [fst] in Hx. rewrite Hx.
    apply IH. intros y Hy. apply Hpre. right. exact Hy.
Qed.

Lemma score_candidates_written renv e qs st cands :
  NoDup cands.*1 ->
  forall i db results x,
    In x (accepted_prefix renv e cands) ->
    exists ts,
      (score_candidates renv e qs st i cands db results).1 !! (e, x.1)
      = Some (score_of st qs x, ts).
Proof.
  induction cands as [|[cid cdata] rest IH]; intros Hnd i db results x Hx; [destruct Hx|].
  rewrite fmap_cons, NoDup_cons in Hnd. destruct Hnd as [Hcid Hnd].
  cbn [accepted_prefix fst] in Hx. cbn [score_candidates].
  destruct (realtime_accepts renv e cid) eqn:Hacc; [|destruct Hx].
  destruct Hx as [<-|Hx]; [|exact (IH Hnd _ _ _ x Hx)].
  exists (clock (base_env renv) i).
  destruct (score_candidates_frame renv e qs st rest (S i)
              (<[(e, cid) := (resultData cid cdata qs (stored_answers st cid),
                               clock (base_env renv) i)]> db)
              (results ++ [resultData cid cdata qs (stored_answers st cid)])%list
              (e, cid)) as [Heq|Hin].
  - cbn [fst]. rewrite Heq. apply lookup_insert_eq.
  - exfalso. apply Hcid. unfold result_keys in Hin.
    apply in_map_iff in Hin as (y & [= Hy] & Hin). apply list_elem_of_fmap. exists y.
    split; [symmetry; exact Hy|]. apply list_elem_of_In.
    clear -Hin. induction rest as [|z rest IH]; [destruct Hin|].
    simpl in Hin. destruct (realtime_accepts renv e z.1); [|destruct Hin].
    destruct Hin as [<-|Hin]; [left; reflexivity|right; exact (IH Hin)].
Qed.

(** X8. A refused write stops the results request without rolling back.
    When the Realtime Database refuses the result of a candidate, the
    request is answered 500; the candidates before it in document order
    have their results materialized all the same, and the refused one and
    those after it are left as they were. *)
Theorem refused_write_keeps_earlier_results renv b doc dt pre c post :
  firestore_up (base_env renv) = true ->
  find_today renv (Exams b) = Some (doc, dt) ->
  List.filter (registered_to (Exam.id doc)) (docs (candidates (store b)))
  = (pre ++ c :: post)%list ->
  (forall x, In x pre -> realtime_accepts renv (Exam.id doc) x.1 = true) ->
  realtime_accepts renv (Exam.id doc) c.1 = false ->
  let out := today_exam_results renv b in
  out.2 = {| results_status := 500;
             results_body := ResultsFailure "Failed to fetch exam results" Unavailable |}
  /\ (forall x, In x pre ->
        exists ts, Results out.1 !! (Exam.id doc, x.1)
                   = Some (score_of (store b) (Exam.Questions doc) x, ts))
  /\ (forall x, In x (c :: post) ->
        Results out.1 !! (Exam.id doc, x.1) = Results b !! (Exam.id doc, x.1)).
Proof.
  intros Hup Hfind Hcands Hpre Hc. cbn zeta. unfold today_exam_results.
  rewrite Hup, Hfind. cbn [negb]. rewrite Hcands.
  pose proof (score_candidates_refused renv (Exam.id doc) (Exam.Questions doc) (store b)
                pre c post Hpre Hc 0 (Results b) []) as Hout.
  assert (Hnd : NoDup ((pre ++ c :: post)%list).*1).
  { rewrite <- Hcands. apply NoDup_filter_fst, NoDup_docs. }
  pose proof (score_candidates_written renv (Exam.id doc) (Exam.Questions doc) (store b)
                _ Hnd 0 (Results b) []) as Hwritten.
  pose proof (score_candidates_frame renv (Exam.id doc) (Exam.Questions doc) (store b)
                (pre ++ c :: post) 0 (Results b) []) as Hframe.
  rewrite (accepted_prefix_app _ _ _ _ _ Hpre Hc) in Hwritten, Hframe.
  destruct (score_candidates renv _ _ _ 0 (pre ++ c :: post) (Results b) [])
    as [db out].
  cbn [fst snd] in Hout, Hwritten, Hframe. subst out. cbn [fst snd Results].
  split; [reflexivity|]. split; [exact Hwritten|].
  intros x Hx. destruct (Hframe (Exam.id doc, x.1)) as [Heq|Hin]; [exact Heq|].
  exfalso. unfold result_keys in Hin. apply in_map_iff in Hin as (y & [= Hy] & Hin).
  rewrite fmap_app in Hnd. apply NoDup_app in Hnd as (_ & Hdisj & _).
  apply (Hdisj y.1).
  - apply list_elem_of_fmap. exists y. split; [reflexivity|]. apply list_elem_of_In, Hin.
  - apply list_elem_of_fmap. exists x. split; [congruence|]. apply list_elem_of_In, Hx.
Qed.

Lemma refused_write_keeps_earlier_results_witness :
  exists ts,
    Results (today_exam_results
               {| base_env := Sample.env; today := "2025-03-01";
                  realtime_accepts := fun _ c => negb (String.eqb c "REG2") |}
               Sample.backend).1 !! ("Math101", "REG1")
    = Some (score_of (store Sample.backend) Sample.questions
              ("REG1", Sample.candidate "Asha"), ts).
Proof.
  destruct (refused_write_keeps_earlier_results
              {| base_env := Sample.env; today := "2025-03-01";
                 realtime_accepts := fun _ c => negb (String.eqb c "REG2") |}
              Sample.backend Sample.math101
              (DateTime.mk (VStr "2025-03-01") (VStr "09:00 AM") (VStr "10:00 AM")
                 (VNum (Int 3)))
              [("REG1", Sample.candidate "Asha")] ("REG2", Sample.candidate "Ravi") [])
    as (_ & H & _).
  - reflexivity.
  - reflexivity.
  - vm_compute. reflexivity.
  - intros x [<-|[]]. reflexivity.
  - reflexivity.
  - apply (H ("REG1", Sample.candidate "Asha")). left. reflexivity.
Defined.

(** X9. Of several exams dated today the first in store order is the one
    scored, whatever follows it; the results filed under the other exams,
    also under those dated today, are left as they were. *)
Theorem first_exam_dated_today_wins renv b before doc dt after :
  Exams b = (before ++ doc :: after)%list ->
  Exam.dateTime doc = Some dt ->
  DateTime.date dt = VStr (today renv) ->
  (forall e dt', In e before -> Exam.dateTime e = Some dt' ->
                 DateTime.date dt' <> VStr (today renv)) ->
  find_today renv (Exams b) = Some (doc, dt)
  /\ forall examId candidateId,
       examId <> Exam.id doc ->
       Results (today_exam_results renv b).1 !! (examId, candidateId)
       = Results b !! (examId, candidateId).
Proof.
  intros Hex Hdt Hdate Hbefore.
  assert (Hfind : find_today renv (Exams b) = Some (doc, dt)).
  { rewrite Hex. clear Hex. induction before as [|e before IH]; simpl.
    - rewrite Hdt, Hdate. destruct (strict_eq_str (VStr (today renv)) (today renv)) as [_ H].
      rewrite (H eq_refl). reflexivity.
    - destruct (Exam.dateTime e) as [dt'|] eqn:He.
      + destruct (strict_eq (DateTime.date dt') (VStr (today renv))) eqn:Heq.
        * apply strict_eq_str in Heq. exfalso.
          exact (Hbefore e dt' (or_introl eq_refl) He Heq).
        * apply IH. intros e' d' Hin. apply Hbefore. right. exact Hin.
      + apply IH. intros e' d' Hin. apply Hbefore. right. exact Hin. }
  split; [exact Hfind|]. intros examId candidateId Hne.
  unfold today_exam_results. destruct (negb (firestore_up (base_env renv))); [reflexivity|].
  rewrite Hfind.
  pose proof (score_candidates_frame renv (Exam.id doc) (Exam.Questions doc) (store b)
                (List.filter (registered_to (Exam.id doc)) (docs (candidates (store b))))
                0 (Results b) [] (examId, candidateId)) as Hframe.
  destruct (score_candidates renv _ _ _ 0 _ (Results b) []) as [db out].
  cbn [fst] in Hframe.
  assert (Hdb : db !! (examId, candidateId) = Results b !! (examId, candidateId)).
  { destruct Hframe as [Heq|Hin]; [exact Heq|]. exfalso. unfold result_keys in Hin.
    apply in_map_iff in Hin as (y & [= Hy _] & _). congruence. }
  destruct out; exact Hdb.
Qed.

Lemma first_exam_dated_today_wins_witness :
  find_today (Sample.results_env "2025-03-01")
    (Exams {| Exams := [Sample.math101;
                        Exam.mk "Physics"
                          (Some (DateTime.mk (VStr "2025-03-01") (VStr "11:00 AM")
                                   (VStr "12:00 PM") (VNum (Int 5)))) []];
              store := store Sample.backend; Results := ∅ |})
  = Some (Sample.math101,
          DateTime.mk (VStr "2025-03-01") (VStr "09:00 AM") (VStr "10:00 AM")
            (VNum (Int 3))).
Proof.
  apply (first_exam_dated_today_wins (Sample.results_env "2025-03-01") _ []
           Sample.math101 _
           [Exam.mk "Physics"
              (Some (DateTime.mk (VStr "2025-03-01") (VStr "11:00 AM")
                       (VStr "12:00 PM") (VNum (Int 5)))) []]).
  - reflexivity.
  - reflexivity.
  - reflexivity.
  - intros e dt' [].
Defined.

(** ** What a verified payment guarantees *)

(** X10. A payment is reported verified only when the signature equals
    the recomputed digest, both gateway fetches succeeded, the fetched
    payment belongs to the order, its amount is the order's amount and its
    status is "captured"; the response then carries that payment, with
    status 200. *)
Theorem verified_payment_checks g req o p payment :
  payment_body (verify_payment g req).1 = Verified o p payment ->
  o = VerifyPayment.orderId req
  /\ p = VerifyPayment.paymentId req
  /\ payment_status (verify_payment g req).1 = 200
  /\ payments_fetch g (VerifyPayment.paymentId req) = Some payment
  /\ (exists order,
         orders_fetch g (VerifyPayment.orderId req) = Some order
         /\ Payment.amount payment = Order.amount order)
  /\ Payment.order_id payment = VerifyPayment.orderId req
  /\ Payment.status payment = VStr "captured"
  /\ (verify_payment g req).2
     = [PaymentsFetch (VerifyPayment.paymentId req);
        OrdersFetch (VerifyPayment.orderId req)].
Proof.
  unfold verify_payment. cbn zeta.
  destruct (negb (truthy (VerifyPayment.orderId req)) || _ || _); [discriminate|].
  destruct (generated_signature g _) as [gen|e]; [|discriminate].
  destruct (negb (strict_eq (VStr gen) (VerifyPayment.signature req))); [discriminate|].
  unfold check_payment. cbn zeta.
  destruct (payments_fetch g (VerifyPayment.paymentId req)) as [pay|]; [|discriminate].
  destruct (orders_fetch g (VerifyPayment.orderId req)) as [order|]; [|discriminate].
  destruct (strict_eq (Payment.order_id pay) (VerifyPayment.orderId req)) eqn:H1;
    [|discriminate].
  destruct (strict_eq (Payment.amount pay) (Order.amount order)) eqn:H2; [|discriminate].
  destruct (strict_eq (Payment.status pay) (VStr "captured")) eqn:H3; [|discriminate].
  cbn [negb fst snd payment_status payment_body]. intros [= <- <- <-].
  apply strict_eq_true in H1, H2, H3.
  repeat split; try reflexivity; try assumption. eauto.
Qed.

Lemma verified_payment_checks_witness :
  Payment.status
    (Payment.mk (VStr "order_1") (VNum (Int 49900)) (VStr "captured") (VStr "upi")
       (VStr "a@b.c") (VStr "9000000000") (VNum (Int 1740819600)))
  = VStr "captured".
Proof.
  apply (verified_payment_checks
           {| RAZORPAY_KEY_SECRET := Some "secret";
              hmac_sha256_hex := fun key text => "mac(" ++ key ++ "," ++ text ++ ")";
              payments_fetch := fun _ =>
                Some (Payment.mk (VStr "order_1") (VNum (Int 49900)) (VStr "captured")
                        (VStr "upi") (VStr "a@b.c") (VStr "9000000000")
                        (VNum (Int 1740819600)));
              orders_fetch := fun _ => Some (Order.mk (VNum (Int 49900))) |}
           {| VerifyPayment.orderId := VStr "order_1";
              VerifyPayment.paymentId := VStr "pay_1";
              VerifyPayment.signature := VStr "mac(secret,order_1|pay_1)" |}
           (VStr "order_1") (VStr "pay_1")).
  reflexivity.
Defined.

(** X11. With the secret configured the payment endpoint never answers
    500: every refusal is a 400, also when the gateway cannot be reached or
    knows no such payment or order ("Invalid payment details"). *)
Theorem payment_refusals_are_400 g req secret :
  RAZORPAY_KEY_SECRET g = Some secret ->
  (payment_status (verify_payment g req).1 = 200
   /\ exists o p payment, payment_body (verify_payment g req).1 = Verified o p payment)
  \/ (payment_status (verify_payment g req).1 = 400
      /\ forall o p payment, payment_body (verify_payment g req).1 <> Verified o p payment).
Proof.
  intros Hs. unfold verify_payment, generated_signature. cbn zeta. rewrite Hs.
  destruct (negb (truthy (VerifyPayment.orderId req)) || _ || _);
    [right; split; [reflexivity|discriminate]|].
  destruct (negb (strict_eq _ (VerifyPayment.signature req)));
    [right; split; [reflexivity|discriminate]|].
  unfold check_payment. cbn zeta.
  destruct (payments_fetch g _) as [pay|]; [|right; split; [reflexivity|discriminate]].
  destruct (orders_fetch g _) as [order|]; [|right; split; [reflexivity|discriminate]].
  destruct (negb (strict_eq (Payment.order_id pay) _));
    [right; split; [reflexivity|discriminate]|].
  destruct (negb (strict_eq (Payment.amount pay) _));
    [right; split; [reflexivity|discriminate]|].
  destruct (negb (strict_eq (Payment.status pay) _));
    [right; split; [reflexivity|discriminate]|].
  left. split; [reflexivity|]. simpl. eauto.
Qed.

Lemma payment_refusals_are_400_witness :
  payment_status (verify_payment Sample.gateway
                    {| VerifyPayment.orderId := VStr "order_1";
                       VerifyPayment.paymentId := VStr "pay_1";
                       VerifyPayment.signature := VStr "mac(secret,order_1|pay_1)" |}).1
  = 400.
Proof.
  destruct (payment_refusals_are_400 Sample.gateway
              {| VerifyPayment.orderId := VStr "order_1";
                 VerifyPayment.paymentId := VStr "pay_1";
                 VerifyPayment.signature := VStr "mac(secret,order_1|pay_1)" |}
              "secret" eq_refl) as [(H & _)|(H & _)].
  - vm_compute in H. discriminate.
  - exact H.
Defined.

(** ** [sanitizeFilename] *)

Lemma underscore_not_filename_char : is_filename_char "_" = false.
Proof. reflexivity. Qed.

Lemma starts_collapse (s : string) :
  starts_with_underscore (collapse_underscores s) = starts_with_underscore s.
Proof.
  induction s as [|c rest IH]; [reflexivity|]. cbn [collapse_underscores].
  destruct (Ascii.eqb c "_") eqn:Hc; cbn [andb].
  - destruct (starts_with_underscore rest) eqn:Hr.
    + rewrite IH. simpl. rewrite Hc. reflexivity.
    + simpl. reflexivity.
  - simpl. reflexivity.
Qed.

Lemma collapse_clean (s : string) :
  all_chars (fun c => is_filename_char c || Ascii.eqb c "_") s = true ->
  clean_name (collapse_underscores s) = true.
Proof.
  induction s as [|c rest IH]; [reflexivity|]. cbn [all_chars collapse_underscores].
  intros H. apply andb_prop in H as [Hc Hrest]. specialize (IH Hrest).
  destruct (Ascii.eqb c "_" && starts_with_underscore rest) eqn:Hd; [exact IH|].
  cbn [clean_name]. rewrite Hc, starts_collapse, Hd, IH. reflexivity.
Qed.

Lemma replace_disallowed_chars (s : string) :
  all_chars (fun c => is_filename_char c || Ascii.eqb c "_") (replace_disallowed s) = true.
Proof.
  induction s as [|c rest IH]; [reflexivity|]. cbn [replace_disallowed all_chars].
  rewrite IH. destruct (is_filename_char c) eqn:Hc; [rewrite Hc|]; reflexivity.
Qed.

Lemma clean_name_fixed (s : string) :
  clean_name s = true -> sanitizeFilename s = s.
Proof.
  unfold sanitizeFilename. induction s as [|c rest IH]; [reflexivity|].
  cbn [clean_name]. intros H. apply andb_prop in H as [H Hrest].
  apply andb_prop in H as [Hc Hd]. apply negb_true_iff in Hd.
  specialize (IH Hrest). cbn [replace_disallowed].
  assert (Hsame : (if is_filename_char c then c else "_"%char) = c).
  { destruct (is_filename_char c); [reflexivity|]. simpl in Hc.
    apply Ascii.eqb_eq in Hc. congruence. }
  rewrite Hsame. cbn [collapse_underscores].
  assert (Hst : starts_with_underscore (replace_disallowed rest)
                = starts_with_underscore rest).
  { rewrite <- IH at 2. symmetry. apply starts_collapse. }
  rewrite Hst, Hd, IH. reflexivity.
Qed.

(** X12. A sanitized name holds only letters, digits, ".", "-" and "_",
    with no two underscores in a row; in particular it holds no "/" and is
    one path segment.  The names left unchanged are exactly the names of
    that form, so sanitizing is idempotent. *)
Theorem sanitizeFilename_clean (filename : string) :
  clean_name (sanitizeFilename filename) = true
  /\ (sanitizeFilename filename = filename <-> clean_name filename = true)
  /\ sanitizeFilename (sanitizeFilename filename) = sanitizeFilename filename
  /\ has_slash (sanitizeFilename filename) = false.
Proof.
  assert (Hclean : forall s, clean_name (sanitizeFilename s) = true).
  { intros s. apply collapse_clean, replace_disallowed_chars. }
  split; [apply Hclean|]. split.
  { split; [intros <-; apply Hclean|apply clean_name_fixed]. }
  split; [apply clean_name_fixed, Hclean|].
  specialize (Hclean filename). revert Hclean.
  generalize (sanitizeFilename filename). intros s.
  induction s as [|c rest IH]; [reflexivity|]. cbn [clean_name].
  intros H. apply andb_prop in H as [H Hrest]. apply andb_prop in H as [Hc _].
  unfold has_slash in *. cbn [list_ascii_of_string existsb]. rewrite (IH Hrest), orb_false_r.
  destruct (Ascii.eqb c "/") eqn:Hs; [|reflexivity].
  apply Ascii.eqb_eq in Hs. subst c. discriminate.
Qed.

Lemma collapse_length (s : string) :
  (String.length (collapse_underscores s) <= String.length s)%nat.
Proof.
  induction s as [|c rest IH]; [simpl; lia|]. cbn [collapse_underscores].
  destruct (Ascii.eqb c "_" && starts_with_underscore rest); simpl; lia.
Qed.

Lemma replace_length (s : string) :
  String.length (replace_disallowed s) = String.length s.
Proof. induction s as [|c rest IH]; [reflexivity|]. simpl. rewrite IH. reflexivity. Qed.

Lemma collapse_nonempty (s : string) : s <> "" -> collapse_underscores s <> "".
Proof.
  induction s as [|c rest IH]; [congruence|]. intros _. cbn [collapse_underscores].
  destruct (Ascii.eqb c "_" && starts_with_underscore rest) eqn:Hd; [|discriminate].
  apply IH. apply andb_prop in Hd as [_ Hd]. destruct rest; [discriminate|discriminate].
Qed.

(** X13. Sanitizing never lengthens a name and never empties one: the
    result of a non-empty name is non-empty. *)
Theorem sanitizeFilename_length (filename : string) :
  (String.length (sanitizeFilename filename) <= String.length filename)%nat
  /\ (filename <> "" -> sanitizeFilename filename <> "").
Proof.
  unfold sanitizeFilename. split.
  - rewrite <- (replace_length filename). apply collapse_length.
  - intros H. apply collapse_nonempty. destruct filename; [congruence|discriminate].
Qed.

Lemma sanitizeFilename_length_witness : sanitizeFilename "Unit 1: algebra.pdf" <> "".
Proof. apply sanitizeFilename_length. discriminate. Defined.

Lemma collapse_all_underscores (s : string) :
  s <> "" -> all_chars (fun c => Ascii.eqb c "_") s = true ->
  collapse_underscores s = "_".
Proof.
  induction s as [|c rest IH]; [congruence|]. intros _. cbn [all_chars].
  intros H. apply andb_prop in H as [Hc Hrest]. cbn [collapse_underscores]. rewrite Hc.
  destruct rest as [|c' rest'].
  - simpl. apply Ascii.eqb_eq in Hc. congruence.
  - cbn [all_chars] in Hrest. apply andb_prop in Hrest as [Hc' Hrest'].
    cbn [starts_with_underscore andb]. rewrite Hc'. apply IH; [discriminate|].
    cbn [all_chars]. rewrite Hc', Hrest'. reflexivity.
Qed.

(** X14. Names without any letter, digit, "." or "-" all collide: every
    non-empty name made only of other characters (a title written in a
    non-Latin script, say) is sanitized to the single underscore, so two
    such titles are stored under one key. *)
Theorem sanitizeFilename_collides (filename : string) :
  filename <> "" ->
  all_chars (fun c => negb (is_filename_char c)) filename = true ->
  sanitizeFilename filename = "_".
Proof.
  intros Hne Hall. unfold sanitizeFilename. apply collapse_all_underscores.
  - destruct filename; [congruence|discriminate].
  - clear Hne. induction filename as [|c rest IH]; [reflexivity|].
    cbn [all_chars] in Hall. apply andb_prop in Hall as [Hc Hrest].
    apply negb_true_iff in Hc. cbn [replace_disallowed all_chars].
    rewrite Hc, (IH Hrest). reflexivity.
Qed.

Lemma sanitizeFilename_collides_witness : sanitizeFilename "#?! @" = "_".
Proof. apply sanitizeFilename_collides; [discriminate|reflexivity]. Defined.

Example sanitize_title : sanitizeFilename "Unit 1: algebra.pdf" = "Unit_1_algebra.pdf".
Proof. reflexivity. Qed.

Example sanitize_runs : sanitizeFilename "a___b  c_d" = "a_b_c_d".
Proof. reflexivity. Qed.

(** ** Matching *)

Lemma append_cons (x : ascii) (a b : string) : String x a ++ b = String x (a ++ b).
Proof. reflexivity. Qed.

Lemma append_assoc (a b c : string) : (a ++ b) ++ c = a ++ (b ++ c).
Proof.
  induction a as [|x a IH]; [reflexivity|]. rewrite !append_cons, IH. reflexivity.
Qed.

Lemma append_nil_r (a : string) : a ++ "" = a.
Proof. induction a as [|x a IH]; [reflexivity|]. rewrite append_cons, IH. reflexivity. Qed.

Lemma run_split (r : Regex.t) :
  forall s s', In s' (Regex.run r s) <-> exists p, s = p ++ s' /\ In "" (Regex.run r p).
Proof.
  induction r as [|f|a IHa b IHb|a IHa b IHb]; intros s s'.
  - cbn [Regex.run In]. split.
    + intros [H|[]]. subst s'. exists "". auto.
    + intros (p & Hs & [Hp|[]]). subst p s. left. reflexivity.
  - split.
    + destruct s as [|c rest]; [intros []|]. cbn [Regex.run].
      destruct (f c) eqn:Hc; [|intros []]. intros [H|[]]. subst s'.
      exists (String c ""). cbn [Regex.run]. rewrite Hc.
      split; [reflexivity|left; reflexivity].
    + intros (p & Hs & Hp). subst s. destruct p as [|c rest]; [destruct Hp|].
      cbn [Regex.run] in Hp. rewrite append_cons. cbn [Regex.run].
      destruct (f c); [|destruct Hp]. destruct Hp as [Hp|[]]. subst rest.
      left. reflexivity.
  - cbn [Regex.run]. rewrite in_flat_map. split.
    + intros (mid & Hmid & Hs'). apply IHa in Hmid as (p1 & Hs & Hp1). subst s.
      apply IHb in Hs' as (p2 & Hmid & Hp2). subst mid. exists (p1 ++ p2).
      split; [symmetry; apply append_assoc|]. apply in_flat_map. exists p2.
      split; [|exact Hp2]. apply IHa. exists p1. split; [reflexivity|exact Hp1].
    + intros (p & Hs & Hp). subst s. apply in_flat_map in Hp as (mid & Hmid & Hend).
      apply IHa in Hmid as (p1 & Hp & Hp1). subst p. exists (mid ++ s'). split.
      * apply IHa. exists p1. split; [apply append_assoc|exact Hp1].
      * apply IHb. exists mid. split; [reflexivity|exact Hend].
  - cbn [Regex.run]. rewrite in_app_iff, IHa, IHb. split.
    + intros [(p & Hs & Hp)|(p & Hs & Hp)]; exists p; rewrite in_app_iff; auto.
    + intros (p & Hs & Hp). apply in_app_iff in Hp as [Hp|Hp]; [left|right]; eauto.
Qed.

Lemma test_In (r : Regex.t) (s : string) :
  Regex.test r s = true <-> In "" (Regex.run r s).
Proof.
  unfold Regex.test. rewrite existsb_exists. split.
  - intros (x & Hx & Heq). apply String.eqb_eq in Heq. subst x. exact Hx.
  - intros H. exists "". split; [exact H|reflexivity].
Qed.

Lemma test_Chr (f : ascii -> bool) (s : string) :
  Regex.test (Regex.Chr f) s = true <-> exists c, s = String c "" /\ f c = true.
Proof.
  rewrite test_In. destruct s as [|c rest]; simpl.
  - split; [intros []|intros (c & H & _); discriminate].
  - destruct (f c) eqn:Hc.
    + split; [intros [->|[]]; eauto|intros (c' & [= <- ->] & _); left; reflexivity].
    + split; [intros []|intros (c' & [= <- _] & Hc'); congruence].
Qed.

Lemma test_Seq (a b : Regex.t) (s : string) :
  Regex.test (Regex.Seq a b) s = true
  <-> exists p1 p2, s = p1 ++ p2 /\ Regex.test a p1 = true /\ Regex.test b p2 = true.
Proof.
  rewrite test_In. cbn [Regex.run]. rewrite in_flat_map. split.
  - intros (mid & Hmid & Hend). apply run_split in Hmid as (p1 & -> & Hp1).
    exists p1, mid. rewrite !test_In. auto.
  - intros (p1 & p2 & -> & H1 & H2). rewrite test_In in H1, H2. exists p2.
    split; [|exact H2]. apply run_split. eauto.
Qed.

Lemma test_Alt (a b : Regex.t) (s : string) :
  Regex.test (Regex.Alt a b) s = true
  <-> Regex.test a s = true \/ Regex.test b s = true.
Proof. rewrite !test_In. cbn [Regex.run]. apply in_app_iff. Qed.

Lemma test_Eps (s : string) : Regex.test Regex.Eps s = true <-> s = "".
Proof. rewrite test_In. simpl. split; [intros [->|[]]; reflexivity|intros ->; auto]. Qed.

Lemma test_Opt (a : Regex.t) (s : string) :
  Regex.test (Regex.Opt a) s = true <-> Regex.test a s = true \/ s = "".
Proof. unfold Regex.Opt. rewrite test_Alt, test_Eps. reflexivity. Qed.

(** Case analysis on a byte known to satisfy a computable condition. *)
Ltac bytes_of c H :=
  destruct c as [[] [] [] [] [] [] [] []]; try (vm_compute in H; discriminate H).

Ltac pick_member := simpl; repeat (first [left; reflexivity | right]).

Lemma hour_pattern_numerals (h : string) :
  Regex.test hour_pattern h = true <-> In h hour_numerals.
Proof.
  split.
  - unfold hour_pattern. rewrite test_Alt, !test_Seq.
    intros [(p1 & p2 & -> & H1 & H2)|(p1 & p2 & -> & H1 & H2)].
    + apply test_Chr in H2 as (c & -> & Hc). apply test_Opt in H1 as [H1| ->].
      * apply test_Chr in H1 as (z & -> & Hz). apply Ascii.eqb_eq in Hz. subst z.
        bytes_of c Hc; pick_member.
      * bytes_of c Hc; pick_member.
    + apply test_Chr in H1 as (z & -> & Hz). apply Ascii.eqb_eq in Hz. subst z.
      apply test_Chr in H2 as (c & -> & Hc). bytes_of c Hc; pick_member.
  - intros H. repeat (destruct H as [<-|H]; [reflexivity|]). destruct H.
Qed.

Lemma meridiem_pattern_cases (ap : string) :
  Regex.test meridiem_pattern ap = true <-> In ap meridiems.
Proof.
  split.
  - unfold meridiem_pattern. rewrite test_Alt, !test_Seq.
    intros [(p1 & p2 & -> & H1 & H2)|(p1 & p2 & -> & H1 & H2)];
      apply test_Chr in H1 as (x & -> & Hx); apply test_Chr in H2 as (y & -> & Hy);
      apply orb_prop in Hx as [Hx|Hx]; apply orb_prop in Hy as [Hy|Hy];
      apply Ascii.eqb_eq in Hx, Hy; subst x y; pick_member.
  - intros H. repeat (destruct H as [<-|H]; [reflexivity|]). destruct H.
Qed.

Lemma minute_pattern_digits (m : string) :
  Regex.test minute_pattern m = true
  <-> exists a b, m = String a (String b "")
                  /\ Regex.in_range "0" "5" a = true /\ Regex.in_range "0" "9" b = true.
Proof.
  unfold minute_pattern. rewrite test_Seq. split.
  - intros (p1 & p2 & -> & H1 & H2). apply test_Chr in H1 as (a & -> & Ha).
    apply test_Chr in H2 as (b & -> & Hb). exists a, b. auto.
  - intros (a & b & -> & Ha & Hb). exists (String a ""), (String b "").
    split; [reflexivity|]. split; apply test_Chr; eauto.
Qed.

Lemma timeRegex_shape (s : string) :
  Regex.test timeRegex s = true
  <-> exists h a b w ap,
        s = h ++ ":" ++ String a (String b (w ++ ap))
        /\ In h hour_numerals
        /\ Regex.in_range "0" "5" a = true
        /\ Regex.in_range "0" "9" b = true
        /\ (w = "" \/ Regex.test Regex.space w = true)
        /\ In ap meridiems.
Proof.
  unfold timeRegex. split.
  - intros H. apply test_Seq in H as (h & r1 & -> & Hh & H).
    apply test_Seq in H as (colon & r2 & -> & Hcolon & H).
    apply test_Seq in H as (m & r3 & -> & Hm & H).
    apply test_Seq in H as (w & ap & -> & Hw & Hap).
    apply test_Chr in Hcolon as (c & -> & Hc). apply Ascii.eqb_eq in Hc. subst c.
    apply minute_pattern_digits in Hm as (a & b & -> & Ha & Hb).
    apply test_Opt in Hw. apply hour_pattern_numerals in Hh.
    apply meridiem_pattern_cases in Hap.
    exists h, a, b, w, ap. repeat split; try assumption. tauto.
  - intros (h & a & b & w & ap & -> & Hh & Ha & Hb & Hw & Hap).
    apply test_Seq. exists h, (":" ++ String a (String b (w ++ ap))).
    split; [reflexivity|]. split; [apply hour_pattern_numerals, Hh|].
    apply test_Seq. exists ":", (String a (String b (w ++ ap))).
    split; [reflexivity|]. split; [reflexivity|].
    apply test_Seq. exists (String a (String b "")), (w ++ ap).
    split; [reflexivity|]. split; [apply minute_pattern_digits; eauto|].
    apply test_Seq. exists w, ap. split; [reflexivity|].
    split; [apply test_Opt; tauto|apply meridiem_pattern_cases, Hap].
Qed.

(** X15. The time pattern of the schedule endpoint accepts exactly the
    strings made of an hour numeral from 1 to 12 (a one-digit hour may have
    a leading zero), a colon, two digits from 00 to 59, at most one white
    space character, and AM or PM in any letter case.  So 24-hour times,
    hour 0 or 13, seconds and a missing AM/PM are all refused. *)
Theorem timeRegex_accepts (s : string) :
  Regex.test timeRegex s = true
  <-> exists h a b w ap,
        s = h ++ ":" ++ String a (String b (w ++ ap))
        /\ In h hour_numerals
        /\ Regex.in_range "0" "5" a = true
        /\ Regex.in_range "0" "9" b = true
        /\ (w = "" \/ Regex.test Regex.space w = true)
        /\ In ap meridiems.
Proof. exact (timeRegex_shape s). Qed.

(** X16. A time the pattern accepts begins with a number that
    [parseInt] reads as an hour between 1 and 12. *)
Theorem accepted_time_hour (s : string) :
  Regex.test timeRegex s = true ->
  exists h, parseInt_string s = Int h /\ 1 <= h <= 12.
Proof.
  intros H. apply timeRegex_shape in H as (h & a & b & w & ap & -> & Hh & _).
  repeat (destruct Hh as [<-|Hh]; [eexists; split; [vm_compute; reflexivity|lia]|]).
  destruct Hh.
Qed.

Lemma accepted_time_hour_witness :
  exists h, parseInt_string "09:05am" = Int h /\ 1 <= h <= 12.
Proof. apply accepted_time_hour. reflexivity. Defined.

(** ** The schedule endpoint *)

Lemma save_exam_date_time_cases aenv examTitle d :
  let out := save_exam_date_time aenv examTitle d in
  (admin_status out.1 = 400 /\ out.2 = []
   /\ (date_time_missing examTitle d = true
       \/ is_12_hour_time (ExamDetails.startTime d) = false
       \/ is_12_hour_time (ExamDetails.endTime d) = false))
  \/ (date_time_missing examTitle d = false
      /\ is_12_hour_time (ExamDetails.startTime d) = true
      /\ is_12_hour_time (ExamDetails.endTime d) = true
      /\ ((admin_status out.1 = 500 /\ realtime_ok aenv examTitle = false /\ out.2 = [])
          \/ (admin_status out.1 = 500 /\ realtime_ok aenv examTitle = true
              /\ (firestore_ok aenv = false \/ has_slash examTitle = true)
              /\ out.2 = [RealtimeSet "ExamDateTime" examTitle d])
          \/ (out.1 = {| admin_status := 200;
                         admin_body := ExamDetailsSaved "Exam details saved successfully"
                                         examTitle d |}
              /\ out.2 = [RealtimeSet "ExamDateTime" examTitle d;
                          FirestoreMerge "Exams" examTitle d]))).
Proof.
  cbn zeta. unfold save_exam_date_time.
  destruct (date_time_missing examTitle d) eqn:Hm; [left; auto|].
  destruct (is_12_hour_time (ExamDetails.startTime d)) eqn:Hs; [|left; auto].
  destruct (is_12_hour_time (ExamDetails.endTime d)) eqn:He; [|left; auto].
  cbn [negb orb]. right. split; [reflexivity|]. split; [reflexivity|].
  split; [reflexivity|].
  destruct (realtime_ok aenv examTitle); cbn [negb]; [|left; auto]. right.
  destruct (doc (VStr examTitle)) as [id|e] eqn:Hdoc.
  - apply doc_Ret in Hdoc as ([= <-] & _ & _).
    destruct (firestore_ok aenv); cbn [negb fst snd admin_status]; [right|left]; auto.
  - left. cbn [fst snd admin_status]. split; [reflexivity|]. split; [reflexivity|].
    split; [|reflexivity]. right. simpl in Hdoc.
    unfold date_time_missing in Hm. apply orb_false_elim in Hm as [Hm _].
    apply orb_false_elim in Hm as [Hm _]. apply orb_false_elim in Hm as [Hm _].
    apply orb_false_elim in Hm as [Hm _]. apply orb_false_elim in Hm as [Hm _].
    apply negb_false_iff in Hm. simpl in Hm. apply negb_true_iff in Hm.
    rewrite Hm in Hdoc. simpl in Hdoc. destruct (has_slash examTitle); [reflexivity|].
    discriminate.
Qed.

(** X17. The schedule endpoint writes only what it has validated.  A
    request answered 400 writes nothing; every write the endpoint issues,
    to either store, carries the details of the request unchanged, with a
    date that is present and start and end times that satisfy the 12-hour
    pattern; a request answered 200 has written the Realtime Database
    entry and then the [dateTime] of the exam document. *)
Theorem schedule_writes_are_validated aenv examTitle d :
  let out := save_exam_date_time aenv examTitle d in
  (admin_status out.1 = 400 -> out.2 = [])
  /\ (forall eff, In eff out.2 ->
        (eff = RealtimeSet "ExamDateTime" examTitle d
         \/ eff = FirestoreMerge "Exams" examTitle d)
        /\ truthy (ExamDetails.date d) = true
        /\ Regex.test timeRegex (JS.to_string (ExamDetails.startTime d)) = true
        /\ Regex.test timeRegex (JS.to_string (ExamDetails.endTime d)) = true)
  /\ (admin_status out.1 = 200 ->
        out.2 = [RealtimeSet "ExamDateTime" examTitle d;
                 FirestoreMerge "Exams" examTitle d]).
Proof.
  cbn zeta.
  destruct (save_exam_date_time_cases aenv examTitle d)
    as [(H400 & Hnil & _)|(Hm & Hs & He & Hrest)].
  - rewrite H400, Hnil. split; [reflexivity|]. split; [intros eff []|discriminate].
  - assert (Hdate : truthy (ExamDetails.date d) = true).
    { unfold date_time_missing in Hm. apply orb_false_elim in Hm as [Hm _].
      apply orb_false_elim in Hm as [Hm _]. apply orb_false_elim in Hm as [Hm _].
      apply orb_false_elim in Hm as [Hm _]. apply orb_false_elim in Hm as [_ Hm].
      apply negb_false_iff in Hm. exact Hm. }
    destruct Hrest as [(H5 & _ & Hnil)|[(H5 & _ & _ & Heff)|(Hout & Heff)]].
    + rewrite H5, Hnil. split; [discriminate|]. split; [intros eff []|discriminate].
    + rewrite H5, Heff. split; [discriminate|]. split; [|discriminate].
      intros eff [<-|[]]. auto.
    + rewrite Hout, Heff. split; [discriminate|]. split; [|reflexivity].
      intros eff [<-|[<-|[]]]; auto.
Qed.

Lemma schedule_writes_are_validated_witness :
  (save_exam_date_time {| realtime_ok := fun _ => true; firestore_ok := true |}
     "Math101"
     (ExamDetails.mk (VStr "2025-03-01") (VStr "9:00 AM") (VStr "10:00 AM")
        (VNum (Int 3)) (VNum (Int 49)))).2
  = [RealtimeSet "ExamDateTime" "Math101"
       (ExamDetails.mk (VStr "2025-03-01") (VStr "9:00 AM") (VStr "10:00 AM")
          (VNum (Int 3)) (VNum (Int 49)));
     FirestoreMerge "Exams" "Math101"
       (ExamDetails.mk (VStr "2025-03-01") (VStr "9:00 AM") (VStr "10:00 AM")
          (VNum (Int 3)) (VNum (Int 49)))].
Proof.
  destruct (schedule_writes_are_validated
              {| realtime_ok := fun _ => true; firestore_ok := true |} "Math101"
              (ExamDetails.mk (VStr "2025-03-01") (VStr "9:00 AM") (VStr "10:00 AM")
                 (VNum (Int 3)) (VNum (Int 49)))) as (_ & _ & H).
  apply H. reflexivity.
Defined.

(** X18. The two stores of the schedule are not written atomically.
    When the Realtime Database has accepted the entry and the write of the
    exam document then fails because the document store is down, the
    request is answered 500 and the Realtime Database entry stays written:
    the two stores disagree about the exam. *)
Theorem schedule_write_is_not_atomic aenv examTitle d :
  date_time_missing examTitle d = false ->
  is_12_hour_time (ExamDetails.startTime d) = true ->
  is_12_hour_time (ExamDetails.endTime d) = true ->
  realtime_ok aenv examTitle = true ->
  firestore_ok aenv = false ->
  admin_status (save_exam_date_time aenv examTitle d).1 = 500
  /\ (save_exam_date_time aenv examTitle d).2
     = [RealtimeSet "ExamDateTime" examTitle d].
Proof.
  intros Hm Hs He Hrt Hfs. unfold save_exam_date_time.
  rewrite Hm, Hs, He, Hrt, Hfs. cbn [negb orb].
  destruct (doc (VStr examTitle)) as [id|e]; auto.
Qed.

Lemma schedule_write_is_not_atomic_witness :
  (save_exam_date_time {| realtime_ok := fun _ => true; firestore_ok := false |}
     "Math101"
     (ExamDetails.mk (VStr "2025-03-01") (VStr "9:00 AM") (VStr "10:00 AM")
        (VNum (Int 3)) (VNum (Int 49)))).2
  = [RealtimeSet "ExamDateTime" "Math101"
       (ExamDetails.mk (VStr "2025-03-01") (VStr "9:00 AM") (VStr "10:00 AM")
          (VNum (Int 3)) (VNum (Int 49)))].
Proof.
  apply (schedule_write_is_not_atomic
           {| realtime_ok := fun _ => true; firestore_ok := false |}); reflexivity.
Defined.

Example time_quarter_to_two : Regex.test timeRegex "1:45 PM" = true.
Proof. reflexivity. Qed.

Example time_lower_case : Regex.test timeRegex "09:05am" = true.
Proof. reflexivity. Qed.

Example time_24_hour : Regex.test timeRegex "14:30" = false.
Proof. reflexivity. Qed.

Example time_hour_13 : Regex.test timeRegex "13:00 PM" = false.
Proof. reflexivity. Qed.

Example time_hour_0 : Regex.test timeRegex "0:30 AM" = false.
Proof. reflexivity. Qed.

Example time_seconds : Regex.test timeRegex "1:45:00 PM" = false.
Proof. reflexivity. Qed.

Example time_two_spaces : Regex.test timeRegex "1:45  PM" = false.
Proof. reflexivity. Qed.

(** ** The question bank *)

Lemma invalid_options_false parsedOptions parsedCorrectAnswer :
  invalid_options parsedOptions parsedCorrectAnswer = false ->
  length (Json.items parsedOptions) = 4%nat /\ parsedCorrectAnswer <> NaN.
Proof.
  unfold invalid_options. intros H.
  apply orb_false_iff in H as [H Hn]. apply orb_false_iff in H as [Ha Hl].
  split.
  - destruct parsedOptions as [v|items|fields]; try discriminate Ha.
    cbn in Hl |- *. apply negb_false_iff in Hl. apply Z.eqb_eq in Hl. lia.
  - destruct parsedCorrectAnswer; [discriminate | discriminate Hn | discriminate].
Qed.

Lemma question_fields_present f :
  question_fields_missing f = false -> truthy (QuestionForm.question f) = true.
Proof.
  unfold question_fields_missing. intros H.
  apply orb_false_iff in H as [H _]. apply orb_false_iff in H as [H _].
  now apply negb_false_iff in H.
Qed.

Lemma add_question_cases qenv examTitle f col :
  (add_question qenv examTitle f col).1 = col
  /\ question_status (add_question qenv examTitle f col).2 <> 200
  \/ exists q,
       col !! auto_id qenv = None
       /\ (add_question qenv examTitle f col).1 = <[auto_id qenv := q]> col
       /\ QuestionDoc.order q = Z.of_nat (size col) + 1
       /\ written_question q
       /\ question_status (add_question qenv examTitle f col).2 = 200.
Proof.
  unfold add_question, add_question_read, add_question_add.
  destruct (negb (truthy (VStr examTitle)) || question_fields_missing f) eqn:Hm;
    [left; split; [reflexivity | discriminate] |].
  apply orb_false_iff in Hm as [_ Hm].
  destruct (JSON_parse qenv _) as [parsedOptions|];
    [| left; split; [reflexivity | discriminate]].
  cbv zeta.
  destruct (invalid_options _ _) eqn:Hi; [left; split; [reflexivity | discriminate] |].
  destruct (doc (VStr examTitle)); [| left; split; [reflexivity | discriminate]].
  destruct (negb (questions_up qenv)); [left; split; [reflexivity | discriminate] |].
  destruct (negb (questions_accept qenv _)); [left; split; [reflexivity | discriminate] |].
  destruct (col !! auto_id qenv) eqn:Hl; [left; split; [reflexivity | discriminate] |].
  right. eexists. split; [reflexivity |]. split; [reflexivity |].
  split; [reflexivity |]. split; [| reflexivity].
  apply invalid_options_false in Hi as [H4 Hn].
  split; [exact (question_fields_present _ Hm) |]. split; assumption.
Qed.

Lemma update_question_cases qenv examTitle questionId f col :
  (update_question qenv examTitle questionId f col).1 = col
  /\ question_status (update_question qenv examTitle questionId f col).2 <> 200
  \/ exists stored q,
       col !! questionId = Some stored
       /\ (update_question qenv examTitle questionId f col).1 = <[questionId := q]> col
       /\ QuestionDoc.order q = QuestionDoc.order stored
       /\ QuestionDoc.timestamp q = QuestionDoc.timestamp stored
       /\ written_question q
       /\ question_status (update_question qenv examTitle questionId f col).2 = 200.
Proof.
  unfold update_question.
  destruct (negb (truthy (VStr examTitle)) || negb (truthy (VStr questionId))
            || question_fields_missing f) eqn:Hm;
    [left; split; [reflexivity | discriminate] |].
  apply orb_false_iff in Hm as [_ Hm].
  destruct (JSON_parse qenv _) as [parsedOptions|];
    [| left; split; [reflexivity | discriminate]].
  cbv zeta.
  destruct (invalid_options _ _) eqn:Hi; [left; split; [reflexivity | discriminate] |].
  destruct (doc (VStr examTitle)); [| left; split; [reflexivity | discriminate]].
  destruct (doc (VStr questionId)) as [id|] eqn:Hd;
    [| left; split; [reflexivity | discriminate]].
  assert (id = questionId) as ->.
  { cbn in Hd. destruct (_ || _) in Hd; congruence. }
  destruct (negb (questions_up qenv)); [left; split; [reflexivity | discriminate] |].
  destruct (col !! questionId) as [stored|] eqn:Hl;
    [| left; split; [reflexivity | discriminate]].
  destruct (negb (questions_accept qenv _)); [left; split; [reflexivity | discriminate] |].
  right. eexists _, _. split; [reflexivity |]. split; [reflexivity |].
  split; [reflexivity |]. split; [reflexivity |]. split; [| reflexivity].
  apply invalid_options_false in Hi as [H4 Hn].
  split; [exact (question_fields_present _ Hm) |]. split; assumption.
Qed.

Lemma delete_question_cases qenv examTitle questionId col :
  (delete_question qenv examTitle questionId col).1 = col
  /\ question_status (delete_question qenv examTitle questionId col).2 <> 200
  \/ (delete_question qenv examTitle questionId col).1 = delete questionId col
     /\ question_status (delete_question qenv examTitle questionId col).2 = 200.
Proof.
  unfold delete_question.
  destruct (doc (VStr examTitle)); [| left; split; [reflexivity | discriminate]].
  destruct (doc (VStr questionId)) as [id|] eqn:Hd;
    [| left; split; [reflexivity | discriminate]].
  assert (id = questionId) as ->.
  { cbn in Hd. destruct (_ || _) in Hd; congruence. }
  destruct (negb (questions_up qenv)); [left; split; [reflexivity | discriminate] |].
  right. split; reflexivity.
Qed.

Lemma orders_insert_fresh col id q :
  col !! id = None ->
  orders (<[id := q]> col) ≡ₚ QuestionDoc.order q :: orders col.
Proof.
  intros H. unfold orders. rewrite (map_to_list_insert col id q H). reflexivity.
Qed.

Lemma orders_insert_same col id stored q :
  col !! id = Some stored ->
  QuestionDoc.order q = QuestionDoc.order stored ->
  orders (<[id := q]> col) ≡ₚ orders col.
Proof.
  intros H Ho.
  rewrite <- (insert_delete_eq col id q).
  rewrite <- (insert_delete_id col id stored H) at 2.
  rewrite !orders_insert_fresh by apply lookup_delete_eq.
  now rewrite Ho.
Qed.

Lemma numbering_S n : numbering (S n) ≡ₚ (Z.of_nat n + 1) :: numbering n.
Proof.
  unfold numbering. rewrite seq_S, fmap_app. cbn [fmap list_fmap].
  rewrite <- Permutation_cons_append.
  replace (Z.of_nat (1 + n)) with (Z.of_nat n + 1) by lia. reflexivity.
Qed.

Lemma numbering_step examTitle r col :
  is_delete r.2 = false ->
  orders col ≡ₚ numbering (size col) ->
  orders (serve_question examTitle col r).1
    ≡ₚ numbering (size (serve_question examTitle col r).1).
Proof.
  intros Hd Hinv. destruct r as [qenv [f|questionId f|questionId]];
    [| | discriminate Hd]; cbn [serve_question fst snd].
  - destruct (add_question_cases qenv examTitle f col)
      as [[-> _]|(q & Hfresh & -> & Ho & _)]; [exact Hinv |].
    rewrite (orders_insert_fresh _ _ _ Hfresh), (map_size_insert_None _ _ _ Hfresh).
    rewrite numbering_S, Ho, Hinv. reflexivity.
  - destruct (update_question_cases qenv examTitle questionId f col)
      as [[-> _]|(stored & q & Hl & -> & Ho & _)]; [exact Hinv |].
    rewrite (orders_insert_same _ _ _ _ Hl Ho), (map_size_insert_Some questionId q col (mk_is_Some _ _ Hl)).
    exact Hinv.
Qed.

Lemma numbering_run examTitle rs col :
  (forall r, In r rs -> is_delete r.2 = false) ->
  orders col ≡ₚ numbering (size col) ->
  orders (serve_questions examTitle rs col)
    ≡ₚ numbering (size (serve_questions examTitle rs col)).
Proof.
  revert col. induction rs as [|r rs IH]; intros col Hrs Hinv; [exact Hinv |].
  cbn [serve_questions fold_left]. apply IH.
  - intros r' Hr'. apply Hrs. now right.
  - apply numbering_step; [apply Hrs; now left | exact Hinv].
Qed.

Example add_out_of_range :
  (add_question (Bank.qenv "q1") "Math" (Bank.form "7") ∅).2
  = {| question_status := 200;
       question_body := QuestionAdded "Question added successfully" "q1" 1 |}.
Proof. reflexivity. Qed.

Example add_trailing_text :
  QuestionDoc.correctAnswer
    <$> (add_question (Bank.qenv "q1") "Math" (Bank.form "2nd") ∅).1 !! "q1"
  = Some (Int 2).
Proof. reflexivity. Qed.

Example add_no_number :
  (add_question (Bank.qenv "q1") "Math" (Bank.form "second") ∅).2 = invalid_fields.
Proof. reflexivity. Qed.

Example parseInt_10_hex : parseInt_10 (VStr "0x1f") = Int 0.
Proof. reflexivity. Qed.

Lemma steps_of_serve examTitle request r b :
  in_flight b = ∅ ->
  question_steps examTitle (steps_of request r) b
  = {| stored := (serve_question examTitle (stored b) r).1; in_flight := ∅ |}.
Proof.
  destruct b as [col pending]. cbn [in_flight stored]. intros ->.
  destruct r as [qenv [f|questionId f|questionId]]; try reflexivity.
  unfold steps_of, question_steps, serve_question, add_question.
  cbn [snd fst fold_left question_step stored in_flight].
  destruct (add_question_read qenv examTitle f col) as [response|questionData].
  - cbn [question_step in_flight]. rewrite lookup_empty. reflexivity.
  - cbn [question_step in_flight stored]. rewrite lookup_insert_eq.
    rewrite delete_insert_eq, delete_empty. reflexivity.
Qed.

Lemma question_steps_app examTitle first rest b :
  question_steps examTitle (first ++ rest) b
  = question_steps examTitle rest (question_steps examTitle first b).
Proof. apply fold_left_app. Qed.

Lemma steps_tagged_serve examTitle rs : forall (tag : nat -> nat) col,
  question_steps examTitle (concat (imap (fun i => steps_of (tag i)) rs))
    {| stored := col; in_flight := ∅ |}
  = {| stored := serve_questions examTitle rs col; in_flight := ∅ |}.
Proof.
  induction rs as [|r rs IH]; intros tag col; [reflexivity |].
  rewrite imap_cons. cbn [concat]. rewrite question_steps_app.
  rewrite steps_of_serve by reflexivity. cbn [stored].
  exact (IH (tag ∘ S) _).
Qed.

Lemma one_after_another_serves examTitle rs col :
  question_steps examTitle (one_after_another rs) {| stored := col; in_flight := ∅ |}
  = {| stored := serve_questions examTitle rs col; in_flight := ∅ |}.
Proof. exact (steps_tagged_serve examTitle rs (fun i => i) col). Qed.

(** X19. When the add and update requests on an exam's questions are
    served one after another (each add's read of the collection is
    followed by its add before any other request is served), then starting
    from an empty question bank, whatever the requests and whether they
    are accepted or refused, the stored questions' [order] values are
    exactly 1, 2, .., n, each once, where n is the number of stored
    questions. *)
Theorem added_questions_numbered_consecutively examTitle rs :
  (forall r, In r rs -> is_delete r.2 = false) ->
  let bank :=
    stored (question_steps examTitle (one_after_another rs)
              {| stored := ∅; in_flight := ∅ |}) in
  orders bank ≡ₚ numbering (size bank).
Proof.
  intros Hrs bank. subst bank. rewrite one_after_another_serves. cbn [stored].
  apply numbering_run; [exact Hrs |].
  unfold orders, numbering. rewrite map_to_list_empty, map_size_empty. reflexivity.
Qed.

Lemma added_questions_numbered_consecutively_witness :
  let bank :=
    stored (question_steps "Math"
              (one_after_another
                 [(Bank.qenv "q1", AddQuestion (Bank.form "1"));
                  (Bank.qenv "q2", AddQuestion (Bank.form "0"));
                  (Bank.qenv "q2", UpdateQuestion "q1" (Bank.form "3"));
                  (Bank.qenv "q2", AddQuestion (Bank.form "2"))])
              {| stored := ∅; in_flight := ∅ |}) in
  orders bank ≡ₚ numbering (size bank).
Proof.
  apply added_questions_numbered_consecutively.
  intros r [<-|[<-|[<-|[<-|[]]]]]; reflexivity.
Defined.

(** X20. Deleting never renumbers: once any question other than the one
    numbered last has been deleted, the next question added is given the
    [order] of the question numbered last, so two stored questions share
    one [order]. *)
Theorem delete_then_add_repeats_an_order
    qenv1 qenv2 examTitle deleted kept last f col :
  col !! kept = Some last ->
  QuestionDoc.order last = Z.of_nat (size col) ->
  is_Some (col !! deleted) ->
  deleted <> kept ->
  let deletion := delete_question qenv1 examTitle deleted col in
  let addition := add_question qenv2 examTitle f deletion.1 in
  question_status deletion.2 = 200 ->
  question_status addition.2 = 200 ->
  addition.1 !! kept = Some last
  /\ auto_id qenv2 <> kept
  /\ exists q, addition.1 !! auto_id qenv2 = Some q
       /\ QuestionDoc.order q = QuestionDoc.order last.
Proof.
  intros Hk Hlast [d Hd] Hne deletion addition H1 H2. subst deletion addition.
  destruct (delete_question_cases qenv1 examTitle deleted col) as [[_ Hs]|[E1 _]];
    [contradiction |].
  rewrite E1 in H2 |- *. clear E1 H1.
  destruct (add_question_cases qenv2 examTitle f (delete deleted col))
    as [[_ Hs]|(q & Hfresh & E2 & Ho & _)]; [contradiction |].
  rewrite E2. clear E2 H2.
  assert (delete deleted col !! kept = Some last) as Hk'.
  { rewrite lookup_delete_ne by exact Hne. exact Hk. }
  assert (auto_id qenv2 <> kept) as Hnew by congruence.
  split; [| split; [exact Hnew |]].
  - rewrite lookup_insert_ne by exact Hnew. exact Hk'.
  - exists q. split; [apply lookup_insert_eq |].
    rewrite Ho, Hlast.
    pose proof (map_size_delete_Some deleted col (mk_is_Some _ _ Hd)) as Hsz.
    assert (size col <> 0%nat) as Hpos.
    { intros Hz. apply map_size_empty_iff in Hz. subst col.
      rewrite lookup_empty in Hk. discriminate. }
    lia.
Qed.

Lemma delete_then_add_repeats_an_order_witness :
  let deletion := delete_question (Bank.qenv "") "Math" "q1" Bank.three in
  let addition := add_question (Bank.qenv "q4") "Math" (Bank.form "0") deletion.1 in
  addition.1 !! "q3" = Some Bank.third
  /\ auto_id (Bank.qenv "q4") <> "q3"
  /\ exists q, addition.1 !! auto_id (Bank.qenv "q4") = Some q
       /\ QuestionDoc.order q = QuestionDoc.order Bank.third.
Proof.
  apply (delete_then_add_repeats_an_order (Bank.qenv "") (Bank.qenv "q4")
           "Math" "q1" "q3" Bank.third (Bank.form "0") Bank.three).
  - vm_compute. reflexivity.
  - vm_compute. reflexivity.
  - eexists. vm_compute. reflexivity.
  - discriminate.
  - reflexivity.
  - reflexivity.
Defined.


Lemma written_run examTitle rs col :
  (forall id q, col !! id = Some q -> written_question q /\ 1 <= QuestionDoc.order q) ->
  forall id q, serve_questions examTitle rs col !! id = Some q ->
    written_question q /\ 1 <= QuestionDoc.order q.
Proof.
  revert col. induction rs as [|[qenv r] rs IH]; intros col Hinv; [exact Hinv |].
  cbn [serve_questions fold_left]. apply IH. clear IH.
  intros id q. destruct r as [f|questionId f|questionId]; cbn [serve_question fst snd].
  - destruct (add_question_cases qenv examTitle f col)
      as [[-> _]|(q0 & _ & -> & Ho & Hw & _)]; [apply Hinv |].
    destruct (decide (id = auto_id qenv)) as [->|Hne].
    + rewrite lookup_insert_eq. intros [= <-]. split; [exact Hw | lia].
    + rewrite lookup_insert_ne by congruence. apply Hinv.
  - destruct (update_question_cases qenv examTitle questionId f col)
      as [[-> _]|(stored & q0 & Hl & -> & Ho & _ & Hw & _)]; [apply Hinv |].
    destruct (decide (id = questionId)) as [->|Hne].
    + rewrite lookup_insert_eq. intros [= <-]. split; [exact Hw |].
      rewrite Ho. exact (proj2 (Hinv _ _ Hl)).
    + rewrite lookup_insert_ne by congruence. apply Hinv.
  - destruct (delete_question_cases qenv examTitle questionId col)
      as [[-> _]|[-> _]]; [apply Hinv |].
    intros Hq. apply lookup_delete_Some in Hq as [_ Hq]. exact (Hinv _ _ Hq).
Qed.

(** X22. Whatever run of add, update and delete requests has been served
    on a bank that started empty, every stored question has a non-empty
    question text, exactly four options, a correct answer that is a
    number (not NaN), and an [order] of at least 1. *)
Theorem stored_questions_well_formed examTitle rs id q :
  serve_questions examTitle rs ∅ !! id = Some q ->
  truthy (QuestionDoc.question q) = true
  /\ length (QuestionDoc.options q) = 4%nat
  /\ QuestionDoc.correctAnswer q <> NaN
  /\ 1 <= QuestionDoc.order q.
Proof.
  intros H.
  destruct (written_run examTitle rs ∅) with (id := id) (q := q)
    as [(Hq & Ho & Hc) Hn]; [| exact H | tauto].
  intros id0 q0 H0. rewrite lookup_empty in H0. discriminate.
Qed.

Lemma stored_questions_well_formed_witness :
  truthy (QuestionDoc.question Bank.third) = true
  /\ length (QuestionDoc.options Bank.third) = 4%nat
  /\ QuestionDoc.correctAnswer Bank.third <> NaN
  /\ 1 <= QuestionDoc.order Bank.third.
Proof.
  apply (stored_questions_well_formed "Math"
           [(Bank.qenv "q1", AddQuestion (Bank.form "1"));
            (Bank.qenv "q2", AddQuestion (Bank.form "1"));
            (Bank.qenv "q3", AddQuestion (Bank.form "1"))] "q3").
  vm_compute. reflexivity.
Defined.

(** ** Registration check and exam start *)


Lemma start_exam_cases env registrationNumber candidates :
  (start_exam env registrationNumber candidates).1 = candidates
  /\ status (start_exam env registrationNumber candidates).2 = 500
  \/ exists id d,
       registrationNumber = VStr id
       /\ doc registrationNumber = Ret id
       /\ firestore_up env = true
       /\ candidates !! id = Some d
       /\ (start_exam env registrationNumber candidates).1
          = <[id := <["examStartTime" := VStr (clock env 0)]>
                      (<["used" := VBool true]> d)]> candidates
       /\ status (start_exam env registrationNumber candidates).2 = 200.
Proof.
  unfold start_exam.
  destruct (doc registrationNumber) as [id|] eqn:Hd; [| left; split; reflexivity].
  destruct (firestore_up env) eqn:Hup; [| left; split; reflexivity].
  cbn [negb]. destruct (candidates !! id) as [d|] eqn:Hl; [| left; split; reflexivity].
  right. exists id, d. apply doc_Ret in Hd as Hv. destruct Hv as [-> _].
  repeat split; assumption || reflexivity.
Qed.

(** X23. Once the start of an exam has been accepted for a registration
    number, the registration check never accepts that number again: it
    answers 400 whenever the store can be reached, 500 otherwise. *)
Theorem started_registration_is_refused env denv registrationNumber candidates :
  status (start_exam env registrationNumber candidates).2 = 200 ->
  let r := validate_registration denv registrationNumber
             (start_exam env registrationNumber candidates).1 in
  registration_status r = (if firestore_up (date_env denv) then 400 else 500).
Proof.
  intros H r. subst r.
  destruct (start_exam_cases env registrationNumber candidates)
    as [[_ Hs]|(id & d & _ & Hd & _ & _ & -> & _)]; [congruence |].
  unfold validate_registration. rewrite Hd.
  destruct (firestore_up (date_env denv)); cbn [negb]; [| reflexivity].
  rewrite lookup_insert_eq. cbv zeta.
  destruct (later_than _ _); [reflexivity |].
  assert (field (<["examStartTime" := VStr (clock env 0)]>
                   (<["used" := VBool true]> d)) "used" = VBool true) as ->.
  { unfold field. rewrite lookup_insert_ne by discriminate.
    rewrite lookup_insert_eq. reflexivity. }
  reflexivity.
Qed.

Lemma started_registration_is_refused_witness :
  let r := validate_registration Registered.denv (VStr "REG1")
             (start_exam Sample.env (VStr "REG1") Registered.candidates).1 in
  registration_status r = (if firestore_up (date_env Registered.denv) then 400 else 500).
Proof.
  apply (started_registration_is_refused Sample.env Registered.denv (VStr "REG1")
           Registered.candidates).
  vm_compute. reflexivity.
Defined.





(** ** The questions sent to a candidate *)

Lemma insert_by_order_Permutation x l : insert_by_order x l ≡ₚ x :: l.
Proof.
  induction l as [|y r IH]; [reflexivity |]. cbn [insert_by_order].
  destruct (_ <=? _); [reflexivity |]. rewrite IH. apply Permutation_swap.
Qed.

Lemma sort_by_order_Permutation l : sort_by_order l ≡ₚ l.
Proof.
  induction l as [|x l IH]; [reflexivity |]. cbn [sort_by_order foldr].
  rewrite insert_by_order_Permutation. now apply Permutation_cons.
Qed.

Lemma insert_by_order_sorted x l :
  StronglySorted by_order l -> StronglySorted by_order (insert_by_order x l).
Proof.
  induction l as [|y r IH]; intros Hs; cbn [insert_by_order].
  - repeat constructor.
  - inversion Hs as [|? ? Hr Hy]; subst.
    destruct (_ <=? _) eqn:Hle.
    + apply Z.leb_le in Hle. constructor; [exact Hs |].
      constructor; [exact Hle |].
      eapply Forall_impl; [exact Hy |]. unfold by_order. intros z Hz. lia.
    + apply Z.leb_gt in Hle. constructor; [apply IH, Hr |].
      rewrite insert_by_order_Permutation. constructor; [| exact Hy].
      unfold by_order. lia.
Qed.

Lemma sort_by_order_sorted l : StronglySorted by_order (sort_by_order l).
Proof.
  induction l as [|x l IH]; [constructor |]. cbn [sort_by_order foldr].
  apply insert_by_order_sorted, IH.
Qed.

Lemma exam_questions_200 {ExamData} env examName (Exams : gmap string ExamData)
    Questions :
  questions_status (exam_questions env examName Exams Questions) = 200 ->
  exists id examData,
    examName = VStr id /\ Exams !! id = Some examData
    /\ questions_body (exam_questions env examName Exams Questions)
       = QuestionsData examData (sort_by_order (docs Questions)).
Proof.
  unfold exam_questions.
  destruct (doc examName) as [id|] eqn:Hd; [| discriminate].
  destruct (negb (firestore_up env)); [discriminate |].
  destruct (Exams !! id) as [examData|] eqn:Hl; [| discriminate].
  intros _. exists id, examData. apply doc_Ret in Hd as [-> _].
  repeat split; reflexivity || assumption.
Qed.

Lemma numbering_sorted n : StronglySorted Z.le (numbering n).
Proof.
  unfold numbering. generalize 1%nat as a.
  induction n as [|n IH]; intros a; cbn [seq fmap list_fmap]; constructor.
  - apply IH.
  - apply Forall_forall. intros z Hz.
    apply list_elem_of_fmap in Hz as (k & -> & Hk).
    apply list_elem_of_In, in_seq in Hk. lia.
Qed.



(** X27. If the questions of an exam were entered into an empty bank by
    add and update requests only, served one after another (no request
    served between an add's read of the collection and its add), the
    question listing sends them numbered 1, 2, .., n in that sequence: no
    number is missing or repeated. *)
Theorem questions_served_in_order_added {ExamData} env examTitle
    (Exams : gmap string ExamData) rs :
  (forall r, In r rs -> is_delete r.2 = false) ->
  let bank :=
    stored (question_steps examTitle (one_after_another rs)
              {| stored := ∅; in_flight := ∅ |}) in
  questions_status (exam_questions env (VStr examTitle) Exams bank) = 200 ->
  exists examData questions,
    questions_body (exam_questions env (VStr examTitle) Exams bank)
    = QuestionsData examData questions
    /\ (fun x => QuestionDoc.order x.2) <$> questions = numbering (size bank).
Proof.
  intros Hrs bank H. apply exam_questions_200 in H as (id & examData & _ & _ & ->).
  exists examData, (sort_by_order (docs bank)). split; [reflexivity |].
  apply (StronglySorted_unique Z.le).
  - apply (StronglySorted_fmap _ by_order); [| apply sort_by_order_sorted].
    intros x y Hxy. exact Hxy.
  - apply numbering_sorted.
  - rewrite sort_by_order_Permutation. unfold docs. rewrite merge_sort_Permutation.
    assert (orders bank ≡ₚ numbering (size bank)) as Hn.
    { subst bank. rewrite one_after_another_serves. cbn [stored].
      apply numbering_run; [exact Hrs |].
      unfold orders, numbering. rewrite map_to_list_empty, map_size_empty.
      reflexivity. }
    unfold orders in Hn. rewrite <- list_fmap_compose in Hn. exact Hn.
Qed.

Lemma questions_served_in_order_added_witness :
  let bank :=
    stored (question_steps "Math"
              (one_after_another
                 [(Bank.qenv "q2", AddQuestion (Bank.form "1"));
                  (Bank.qenv "q1", AddQuestion (Bank.form "0"));
                  (Bank.qenv "q1", UpdateQuestion "q2" (Bank.form "3"))])
              {| stored := ∅; in_flight := ∅ |}) in
  exists examData questions,
    questions_body (exam_questions Sample.env (VStr "Math")
                      ({[ "Math" := tt ]} : gmap string unit) bank)
    = QuestionsData examData questions
    /\ (fun x => QuestionDoc.order x.2) <$> questions = numbering (size bank).
Proof.
  apply (questions_served_in_order_added Sample.env "Math" {[ "Math" := tt ]}).
  - intros r [<-|[<-|[<-|[]]]]; reflexivity.
  - vm_compute. reflexivity.
Defined.

(** ** Add requests that overlap *)

Lemma add_question_read_order qenv examTitle f col questionData :
  add_question_read qenv examTitle f col = inr questionData ->
  QuestionDoc.order questionData = Z.of_nat (size col) + 1.
Proof.
  unfold add_question_read.
  destruct (_ || _); [discriminate |].
  destruct (JSON_parse _ _); [| discriminate].
  destruct (invalid_options _ _); [discriminate |].
  destruct (doc _); [| discriminate].
  destruct (negb _); [discriminate |].
  intros [= <-]. reflexivity.
Qed.

Lemma add_question_add_200 qenv questionData col :
  question_status (add_question_add qenv questionData col).2 = 200 ->
  col !! auto_id qenv = None
  /\ add_question_add qenv questionData col
     = (<[auto_id qenv := questionData]> col,
        {| question_status := 200;
           question_body :=
             QuestionAdded "Question added successfully"
               (auto_id qenv) (QuestionDoc.order questionData) |}).
Proof.
  unfold add_question_add.
  destruct (negb _); [discriminate |].
  destruct (col !! auto_id qenv); [discriminate |].
  intros _. split; reflexivity.
Qed.

Lemma numbering_NoDup n : NoDup (numbering n).
Proof.
  unfold numbering. apply NoDup_fmap_2; [| apply NoDup_seq].
  intros a b. lia.
Qed.

Lemma overlapping_steps qenv1 qenv2 examTitle f1 f2 col d1 d2 :
  add_question_read qenv1 examTitle f1 col = inr d1 ->
  add_question_read qenv2 examTitle f2 col = inr d2 ->
  stored (question_steps examTitle (overlapping qenv1 qenv2 f1 f2)
            {| stored := col; in_flight := ∅ |})
  = (add_question_add qenv2 d2 (add_question_add qenv1 d1 col).1).1.
Proof.
  intros H1 H2. unfold overlapping, question_steps.
  cbn [fold_left question_step stored in_flight]. rewrite H1.
  cbn [question_step stored in_flight]. rewrite H2.
  cbn [question_step stored in_flight].
  rewrite lookup_insert_ne by discriminate. rewrite lookup_insert_eq.
  cbn [question_step stored in_flight].
  rewrite lookup_delete_ne by discriminate. rewrite lookup_insert_eq.
  reflexivity.
Qed.

(** X28. Two add requests that overlap are numbered alike.  When two add
    requests on the same exam both read the collection before either adds
    its document, and both are answered 200, both documents are stored
    with the same [order], the count read plus one, both answers report
    that [order], and the stored [order] values are no longer the numbers
    1, 2, .., n. *)
Theorem overlapping_adds_share_an_order qenv1 qenv2 examTitle f1 f2 col d1 d2 :
  add_question_read qenv1 examTitle f1 col = inr d1 ->
  add_question_read qenv2 examTitle f2 col = inr d2 ->
  let first := add_question_add qenv1 d1 col in
  let second := add_question_add qenv2 d2 first.1 in
  question_status first.2 = 200 ->
  question_status second.2 = 200 ->
  let bank :=
    stored (question_steps examTitle (overlapping qenv1 qenv2 f1 f2)
              {| stored := col; in_flight := ∅ |}) in
  auto_id qenv1 <> auto_id qenv2
  /\ bank !! auto_id qenv1 = Some d1
  /\ bank !! auto_id qenv2 = Some d2
  /\ QuestionDoc.order d1 = Z.of_nat (size col) + 1
  /\ QuestionDoc.order d2 = Z.of_nat (size col) + 1
  /\ question_body first.2
     = QuestionAdded "Question added successfully" (auto_id qenv1)
         (Z.of_nat (size col) + 1)
  /\ question_body second.2
     = QuestionAdded "Question added successfully" (auto_id qenv2)
         (Z.of_nat (size col) + 1)
  /\ size bank = (size col + 2)%nat
  /\ ~ orders bank ≡ₚ numbering (size bank).
Proof.
  intros H1 H2 first second Hs1 Hs2 bank. subst bank.
  rewrite (overlapping_steps _ _ _ _ _ _ _ _ H1 H2). fold first. fold second.
  apply add_question_read_order in H1 as Ho1.
  apply add_question_read_order in H2 as Ho2.
  apply add_question_add_200 in Hs1 as [Hf1 E1].
  subst second. unfold first in *. clear first. rewrite E1 in Hs2 |- *.
  cbn [fst snd] in Hs2 |- *.
  apply add_question_add_200 in Hs2 as [Hf2 E2]. rewrite E2. cbn [fst snd].
  assert (auto_id qenv1 <> auto_id qenv2) as Hne.
  { intros Heq. rewrite <- Heq, lookup_insert_eq in Hf2. discriminate. }
  split; [exact Hne |].
  split; [rewrite lookup_insert_ne by congruence; apply lookup_insert_eq |].
  split; [apply lookup_insert_eq |].
  split; [exact Ho1 |]. split; [exact Ho2 |].
  split; [cbn; now rewrite Ho1 |]. split; [cbn; now rewrite Ho2 |].
  split.
  - rewrite (map_size_insert_None _ _ _ Hf2), (map_size_insert_None _ _ _ Hf1). lia.
  - intros Hp.
    rewrite (orders_insert_fresh _ _ _ Hf2), (orders_insert_fresh _ _ _ Hf1) in Hp.
    pose proof (numbering_NoDup
                  (size (<[auto_id qenv2 := d2]> (<[auto_id qenv1 := d1]> col)))) as Hn.
    rewrite <- Hp, Ho1, Ho2 in Hn.
    apply NoDup_cons in Hn as [Hin _]. apply Hin. left.
Qed.

Lemma overlapping_adds_share_an_order_witness :
  let d := {| QuestionDoc.question := VStr "2 + 2 = ?";
              QuestionDoc.options := Json.items Bank.four;
              QuestionDoc.correctAnswer := Int 1;
              QuestionDoc.order := 1;
              QuestionDoc.timestamp := 1700000000000;
              QuestionDoc.image := None |} in
  let bank :=
    stored (question_steps "Math"
              (overlapping (Bank.qenv "q1") (Bank.qenv "q2")
                 (Bank.form "1") (Bank.form "1"))
              {| stored := ∅; in_flight := ∅ |}) in
  bank !! "q1" = Some d /\ bank !! "q2" = Some d
  /\ ~ orders bank ≡ₚ numbering (size bank).
Proof.
  intros d bank.
  destruct (overlapping_adds_share_an_order (Bank.qenv "q1") (Bank.qenv "q2")
              "Math" (Bank.form "1") (Bank.form "1") ∅ d d)
    as (_ & Hq1 & Hq2 & _ & _ & _ & _ & _ & Hn);
    [reflexivity | reflexivity | reflexivity | reflexivity |].
  split; [exact Hq1 |]. split; [exact Hq2 | exact Hn].
Defined.
